(** * High Capacity Light-Based Neural Processor: the word registry and its
      two WebGL state textures

    A shallow embedding of [HighCapacityNeuralProcessor] (src/app/page.tsx):
    the React state of the component, the closures its callbacks are built
    from, the typed arrays it fills and the two textures it uploads them to.

    Conventions.
    - A JavaScript string is a Rocq [string]: a sequence of code units below
      256 (the Latin-1 range of UTF-16). What is proved of [toLowerCase] and
      of the tokens of a text is proved of such texts only.
    - A JavaScript integer (index, length, size) is a [Z].
    - A JavaScript Number that holds a fraction is an IEEE 754 value
      ([spec_float]): binary64 for Numbers, binary32 for the elements of a
      [Float32Array].
    - [Math.random()] is a stream [rand : nat -> float]; the state counts the
      calls made so far, so the k-th call of a session returns [rand k].
    - A callback created by [useCallback] closes over the [words] of the
      render that created it; that captured array is an explicit argument,
      named [words] as in the source, next to the state the setters act on.
    - The WebGL context, when there is one, is a WebGL 1 context: it takes
      [gl.FLOAT] texture data only where [OES_texture_float] is enabled on
      it. The component never enables the extension, so its own uploads are
      refused unless something outside it has enabled the extension on its
      canvas's context; [Browser] says which. A call the context refuses
      leaves the texture as it was.
    - [handleFileUpload] is async. [play] runs the component with its
      uploads in flight: an upload goes from one [await] to the next, and
      the user's events arrive in between. [session] runs the events one
      after the other, each upload from its first line to its last: these
      are the runs in which nothing arrives while an upload is in flight
      ([sessions_are_uninterrupted_runs]).
    - Rendering reads the state and changes none of it; it is left out,
      and so are the pointer position and the progress percentage, which
      only rendering reads. *)

From Stdlib Require Import ZArith List String Ascii Bool Lia.
From Stdlib Require Import Floats.SpecFloat.
Import ListNotations.

Local Open Scope string_scope.
Local Open Scope list_scope.
Local Open Scope Z_scope.

(** ** Constants *)

Definition TEXTURE_SIZE : Z := 4096.
Definition MAX_WORDS : Z := 100000.

(** ** Numbers *)

Definition float := spec_float.

(** [+0], the value a fresh typed array holds everywhere. *)
Definition plus_zero : float := S754_zero false.

(** An integer as a Number (binary64). *)
Definition Number (z : Z) : float := binary_normalize 53 1024 z 0 false.

(** [a / b] on Numbers. *)
Definition div (a b : float) : float := SFdiv 53 1024 a b.

(** The value a [Float32Array] keeps of a Number stored in it: the nearest
    binary32 value, ties to even. *)
Definition fround (x : float) : float :=
  match x with
  | S754_finite s m e => binary_round 24 128 s m e
  | _ => x
  end.

(** [1] as a binary32 value. *)
Definition one32 : float := SFone 24 128.

Definition leb32 (a b : float) : bool := SFleb a b.
Definition ltb32 (a b : float) : bool := SFltb a b.

(** What [Math.random()] may return: a binary64 value with positive sign,
    at least [+0] and strictly below [1]. *)
Definition unit_interval (d : float) : bool :=
  match d with
  | S754_zero s => negb s
  | S754_finite s m e => negb s && bounded 53 1024 m e && SFltb d (SFone 53 1024)
  | _ => false
  end.

(** ** Typed arrays *)

Record Float32Array := {
  fa_length : Z;
  fa_at : Z -> float
}.

(** [new Float32Array(n)]. *)
Definition new_Float32Array (n : Z) : Float32Array :=
  {| fa_length := n; fa_at := fun _ => plus_zero |}.

(** [a[i] = v]; a write outside the array is ignored. *)
Definition fa_set (a : Float32Array) (i : Z) (v : float) : Float32Array :=
  if (0 <=? i) && (i <? fa_length a)
  then {| fa_length := fa_length a;
          fa_at := fun j => if j =? i then fround v else fa_at a j |}
  else a.

(** [for (let i = 0; i < n; i++) body]: the body runs at 0, 1, ..., n-1. *)
Fixpoint for_upto {S : Type} (n : nat) (body : Z -> S -> S) (s : S) : S :=
  match n with
  | O => s
  | S k => body (Z.of_nat k) (for_upto k body s)
  end.

(** ** The WebGL context *)

(** What the uploads read of the context's state: whether the extension
    [OES_texture_float] is enabled on it. A WebGL 1 context takes
    [gl.FLOAT] texture data only with that extension enabled, and an
    extension is enabled only by a call of [getExtension] on the context. *)
Record Context := {
  OES_texture_float : bool
}.

(** ** Textures (RGBA, [gl.FLOAT]) *)

Record Texture := {
  tex_width : Z;
  tex_height : Z;
  texel : Z -> Z -> Z -> float   (* column x, row y, channel c *)
}.

(** [createAndSetupTexture]: a texture object with no image yet. *)
Definition createAndSetupTexture : Texture :=
  {| tex_width := 0; tex_height := 0; texel := fun _ _ _ => plus_zero |}.

(** [gl.texImage2D(TEXTURE_2D, 0, RGBA, width, height, 0, RGBA, FLOAT, data)]
    on the bound texture [t]. Without [OES_texture_float] the type [FLOAT]
    is refused ([INVALID_ENUM]) and the texture stays as it was. With it the
    image becomes [width] x [height], read row by row from [data], four
    floats per texel; nothing of a former image stays. *)
Definition texImage2D (gl : Context) (t : Texture) (width height : Z)
    (data : Float32Array) : Texture :=
  if OES_texture_float gl
  then {| tex_width := width; tex_height := height;
          texel := fun x y c => fa_at data ((y * width + x) * 4 + c) |}
  else t.

(** Whether the rectangle fits the texture's image. *)
Definition region_fits (t : Texture) (xoffset yoffset width height : Z) : bool :=
  (0 <=? xoffset) && (0 <=? yoffset) &&
  (xoffset + width <=? tex_width t) && (yoffset + height <=? tex_height t).

(** [gl.texSubImage2D(TEXTURE_2D, 0, xoffset, yoffset, width, height, RGBA,
    FLOAT, data)] on the bound texture [t]. Without [OES_texture_float] the
    type [FLOAT] is refused ([INVALID_ENUM]); a rectangle that does not fit
    the image is refused too ([INVALID_VALUE]); a refused call leaves the
    texture as it was. Else the rectangle is replaced. *)
Definition texSubImage2D (gl : Context) (t : Texture)
    (xoffset yoffset width height : Z) (data : Float32Array) : Texture :=
  if OES_texture_float gl && region_fits t xoffset yoffset width height
  then {| tex_width := tex_width t; tex_height := tex_height t;
          texel := fun x y c =>
            if (xoffset <=? x) && (x <? xoffset + width) &&
               (yoffset <=? y) && (y <? yoffset + height)
            then fa_at data (((y - yoffset) * width + (x - xoffset)) * 4 + c)
            else texel t x y c |}
  else t.

(** ** Strings *)

(** [s.length]. *)
Definition str_length (s : string) : Z := Z.of_nat (String.length s).

Definition code (c : ascii) : Z := Z.of_N (N_of_ascii c).

(** [s.charCodeAt(i)]: the code unit at [i], [NaN] outside the string. *)
Definition charCodeAt (s : string) (i : Z) : float :=
  if i <? 0 then S754_nan
  else match String.get (Z.to_nat i) s with
       | Some c => Number (code c)
       | None => S754_nan
       end.

(** Lower case of one code unit below 256: [A-Z] and the accented capitals
    U+00C0..U+00DE (all but the multiplication sign U+00D7) move up by 32. *)
Definition lower_char (c : ascii) : ascii :=
  let n := code c in
  if ((65 <=? n) && (n <=? 90)) || ((192 <=? n) && (n <=? 222) && negb (n =? 215))
  then ascii_of_N (Z.to_N (n + 32))
  else c.

(** [s.toLowerCase()]. *)
Fixpoint toLowerCase (s : string) : string :=
  match s with
  | EmptyString => EmptyString
  | String c rest => String (lower_char c) (toLowerCase rest)
  end.

(** The class [\w]: [A-Za-z0-9_]. *)
Definition is_word_char (c : ascii) : bool :=
  let n := code c in
  ((65 <=? n) && (n <=? 90)) || ((97 <=? n) && (n <=? 122)) ||
  ((48 <=? n) && (n <=? 57)) || (n =? 95).

(** The matches of [/\b\w+\b/g], left to right: the maximal runs of word
    characters. [cur] is the run being read. *)
Fixpoint match_words_from (s : string) (cur : string) : list string :=
  match s with
  | EmptyString => if (cur =? "")%string then [] else [cur]
  | String c rest =>
      if is_word_char c then match_words_from rest (cur ++ String c "")%string
      else ((if (cur =? "")%string then [] else [cur]) ++ match_words_from rest "")%list
  end.

(** [s.match(/\b\w+\b/g) || []]. *)
Definition match_words (s : string) : list string := match_words_from s "".

(** ** Arrays of strings *)

Definition len (l : list string) : Z := Z.of_nat (List.length l).

(** [l.includes(w)]. *)
Definition includes (l : list string) (w : string) : bool :=
  existsb (String.eqb w) l.

(** [l.indexOf(w)], counting from [from]: the first index of [w], or -1. *)
Fixpoint indexOf_from (l : list string) (w : string) (from : Z) : Z :=
  match l with
  | [] => -1
  | x :: rest => if (x =? w)%string then from else indexOf_from rest w (from + 1)
  end.

Definition indexOf (l : list string) (w : string) : Z := indexOf_from l w 0.

(** [l[i]]; [None] is [undefined]. *)
Definition at_index (l : list string) (i : Z) : option string :=
  if i <? 0 then None else nth_error l (Z.to_nat i).

(** ** The component's state *)

Record State := {
  words : list string;
  newWord : string;
  inputWord : string;
  outputWord : option string;
  error : option string;
  isProcessing : bool;
  glRef : option Context;                  (* the WebGL context, once obtained *)
  neuronStateTextureRef : option Texture;
  wordDataTextureRef : option Texture;
  randomCalls : nat                        (* calls of Math.random() so far *)
}.

Definition initialState : State :=
  {| words := []; newWord := ""; inputWord := ""; outputWord := Some "";
     error := None; isProcessing := false; glRef := None;
     neuronStateTextureRef := None; wordDataTextureRef := None;
     randomCalls := O |}.

Definition setWords (f : list string -> list string) (st : State) : State :=
  {| words := f (words st); newWord := newWord st; inputWord := inputWord st;
     outputWord := outputWord st; error := error st;
     isProcessing := isProcessing st; glRef := glRef st;
     neuronStateTextureRef := neuronStateTextureRef st;
     wordDataTextureRef := wordDataTextureRef st;
     randomCalls := randomCalls st |}.

Definition setNewWord (s : string) (st : State) : State :=
  {| words := words st; newWord := s; inputWord := inputWord st;
     outputWord := outputWord st; error := error st;
     isProcessing := isProcessing st; glRef := glRef st;
     neuronStateTextureRef := neuronStateTextureRef st;
     wordDataTextureRef := wordDataTextureRef st;
     randomCalls := randomCalls st |}.

Definition setInputWord (s : string) (st : State) : State :=
  {| words := words st; newWord := newWord st; inputWord := s;
     outputWord := outputWord st; error := error st;
     isProcessing := isProcessing st; glRef := glRef st;
     neuronStateTextureRef := neuronStateTextureRef st;
     wordDataTextureRef := wordDataTextureRef st;
     randomCalls := randomCalls st |}.

Definition setOutputWord (o : option string) (st : State) : State :=
  {| words := words st; newWord := newWord st; inputWord := inputWord st;
     outputWord := o; error := error st;
     isProcessing := isProcessing st; glRef := glRef st;
     neuronStateTextureRef := neuronStateTextureRef st;
     wordDataTextureRef := wordDataTextureRef st;
     randomCalls := randomCalls st |}.

Definition setError (e : option string) (st : State) : State :=
  {| words := words st; newWord := newWord st; inputWord := inputWord st;
     outputWord := outputWord st; error := e;
     isProcessing := isProcessing st; glRef := glRef st;
     neuronStateTextureRef := neuronStateTextureRef st;
     wordDataTextureRef := wordDataTextureRef st;
     randomCalls := randomCalls st |}.

Definition setIsProcessing (b : bool) (st : State) : State :=
  {| words := words st; newWord := newWord st; inputWord := inputWord st;
     outputWord := outputWord st; error := error st;
     isProcessing := b; glRef := glRef st;
     neuronStateTextureRef := neuronStateTextureRef st;
     wordDataTextureRef := wordDataTextureRef st;
     randomCalls := randomCalls st |}.

Definition set_glRef (gl : option Context) (st : State) : State :=
  {| words := words st; newWord := newWord st; inputWord := inputWord st;
     outputWord := outputWord st; error := error st;
     isProcessing := isProcessing st; glRef := gl;
     neuronStateTextureRef := neuronStateTextureRef st;
     wordDataTextureRef := wordDataTextureRef st;
     randomCalls := randomCalls st |}.

Definition set_neuronStateTexture (t : option Texture) (st : State) : State :=
  {| words := words st; newWord := newWord st; inputWord := inputWord st;
     outputWord := outputWord st; error := error st;
     isProcessing := isProcessing st; glRef := glRef st;
     neuronStateTextureRef := t;
     wordDataTextureRef := wordDataTextureRef st;
     randomCalls := randomCalls st |}.

Definition set_wordDataTexture (t : option Texture) (st : State) : State :=
  {| words := words st; newWord := newWord st; inputWord := inputWord st;
     outputWord := outputWord st; error := error st;
     isProcessing := isProcessing st; glRef := glRef st;
     neuronStateTextureRef := neuronStateTextureRef st;
     wordDataTextureRef := t;
     randomCalls := randomCalls st |}.

Definition set_randomCalls (k : nat) (st : State) : State :=
  {| words := words st; newWord := newWord st; inputWord := inputWord st;
     outputWord := outputWord st; error := error st;
     isProcessing := isProcessing st; glRef := glRef st;
     neuronStateTextureRef := neuronStateTextureRef st;
     wordDataTextureRef := wordDataTextureRef st;
     randomCalls := k |}.

(** ** The callbacks *)

(** The typed array [addWord] builds for [word]: channel 0 of cell [i] holds
    the code unit of the i-th character divided by 255. *)
Definition encode_word (word : string) : Float32Array :=
  for_upto (Z.to_nat (str_length word))
    (fun i wordData => fa_set wordData (i * 4) (div (charCodeAt word i) (Number 255)))
    (new_Float32Array (TEXTURE_SIZE * 4)).

(** [addWord], as created by a render whose state was [words]. The test
    reads the captured [words]; [setWords] appends to the state. *)
Definition addWord (words : list string) (word : string) (st : State) : State :=
  if negb (includes words word) && (len words <? MAX_WORDS) then
    let st := setWords (fun prev => (prev ++ [word])%list) st in
    match glRef st, wordDataTextureRef st with
    | Some gl, Some tex =>
        let wordData := encode_word word in
        set_wordDataTexture
          (Some (texSubImage2D gl tex 0 (len words) TEXTURE_SIZE 1 wordData)) st
    | _, _ => st
    end
  else st.

(** [handleAddWord], as created by a render whose state was [words] and
    [newWord]. *)
Definition handleAddWord (words : list string) (newWord : string) (st : State) : State :=
  if negb (newWord =? "")%string && negb (includes words newWord) then
    setNewWord "" (addWord words newWord st)
  else st.

(** [handleFileUpload], as created by a render whose state was [words], on a
    chosen file whose text reads as [file] ([None]: the read fails), run
    from its first line to its last with nothing else handled in between.
    Every pass of the loop calls the [addWord] of that same render. The
    function is async: [resume] below takes it from one [await] to the
    next, and [play] lets other events in between. *)
Definition handleFileUpload (words : list string) (file : option string) (st : State) : State :=
  let st := setIsProcessing true st in
  match file with
  | Some text =>
      let wordsFromFile := match_words (toLowerCase text) in
      let totalWords := Z.min (len wordsFromFile) (MAX_WORDS - len words) in
      let st :=
        for_upto (Z.to_nat totalWords)
          (fun i st =>
             match at_index wordsFromFile i with
             | Some w => addWord words w st
             | None => st
             end)
          st in
      setError None (setIsProcessing false st)
  | None =>
      setIsProcessing false (setError (Some "Error reading file. Please try again.") st)
  end.

Section Random.

(** The stream of values [Math.random()] returns. *)
Variable rand : nat -> float.

(** [for (let i = 0; i < n; i++) a[i * stride] = Math.random()], from a
    session that has drawn [calls] values: the array filled, and the number
    of values drawn by the end. *)
Definition fill_random (n stride : Z) (a : Float32Array) (calls : nat) : Float32Array * nat :=
  for_upto (Z.to_nat n)
    (fun i '(a, k) => (fa_set a (i * stride) (rand k), S k))
    (a, calls).

(** [processInput], as created by a render whose state was [words]. *)
Definition processInput (words : list string) (word : string) (st : State) : State :=
  let index := indexOf words word in
  if negb (index =? -1) then
    let st :=
      match glRef st, neuronStateTextureRef st with
      | Some gl, Some tex =>
          let filled :=
            fill_random (TEXTURE_SIZE * TEXTURE_SIZE) 4
              (new_Float32Array (TEXTURE_SIZE * TEXTURE_SIZE * 4)) (randomCalls st) in
          let neuronData := fst filled in
          set_randomCalls (snd filled)
            (set_neuronStateTexture
               (Some (texSubImage2D gl tex 0 0 TEXTURE_SIZE TEXTURE_SIZE neuronData)) st)
      | _, _ => st
      end in
    let outputIndex := Z.rem (index + 1) (len words) in
    setOutputWord (at_index words outputIndex) st
  else setOutputWord (Some "Unknown word") st.

(** What the browser gives the mount effect. The component never calls
    [getExtension]: on the context of a canvas of its own, [float_textures]
    is false in a browser that follows WebGL 1, and true only where the
    extension has been enabled on that context from outside the
    component. *)
Record Browser := {
  has_canvas : bool;        (* canvasRef.current is set *)
  has_webgl : bool;         (* getContext('webgl') returns a context *)
  shaders_compile : bool;   (* both createShader calls return a shader *)
  program_links : bool;     (* createProgram returns a program *)
  float_textures : bool     (* OES_texture_float is enabled on that context *)
}.

(** The mount effect ([useEffect(..., [])]), up to the texture uploads. *)
Definition mount (env : Browser) (st : State) : State :=
  if negb (has_canvas env) then st
  else if negb (has_webgl env)
  then setError (Some "WebGL is not supported in your browser.") st
  else
    let gl := {| OES_texture_float := float_textures env |} in
    let st := set_glRef (Some gl) st in
    if negb (shaders_compile env)
    then setError (Some "Failed to compile shaders.") st
    else if negb (program_links env)
    then setError (Some "Failed to create shader program.") st
    else
      let filled :=
        fill_random (TEXTURE_SIZE * TEXTURE_SIZE * 4) 1
          (new_Float32Array (TEXTURE_SIZE * TEXTURE_SIZE * 4)) (randomCalls st) in
      let neuronStateData := fst filled in
      let filled' :=
        fill_random (TEXTURE_SIZE * 4) 1 (new_Float32Array (TEXTURE_SIZE * 4))
          (snd filled) in
      let wordData := fst filled' in
      set_randomCalls (snd filled')
        (set_wordDataTexture
           (Some (texImage2D gl createAndSetupTexture TEXTURE_SIZE 1 wordData))
           (set_neuronStateTexture
              (Some (texImage2D gl createAndSetupTexture TEXTURE_SIZE TEXTURE_SIZE
                       neuronStateData)) st)).

(** ** Sessions in which each event ends before the next *)

Inductive Event :=
  | TypeNewWord (s : string)          (* the "Enter a new word" field changes *)
  | ClickAddWord                      (* the "Add Word" button *)
  | ChooseFile (file : option string) (* the file input changes *)
  | TypeInputWord (s : string)        (* the "Enter input word" field changes *)
  | ClickProcess.                     (* the "Process" button *)

(** An event runs the callback of the latest render, whose captured values
    are the current state. The choice of a file stands for the whole
    upload: nothing arrives before it has ended. *)
Definition step (st : State) (ev : Event) : State :=
  match ev with
  | TypeNewWord s => setNewWord s st
  | ClickAddWord => handleAddWord (words st) (newWord st) st
  | ChooseFile file => handleFileUpload (words st) file st
  | TypeInputWord s => setInputWord s st
  | ClickProcess => processInput (words st) (inputWord st) st
  end.

Definition run (st : State) (evs : list Event) : State := fold_left step evs st.

(** A session: the component mounts, then the user acts, and waits for
    the end of each upload. *)
Definition session (env : Browser) (evs : list Event) : State :=
  run (mount env initialState) evs.

(** ** Uploads in flight

    [handleFileUpload] runs to [await file.text()] when the file is chosen,
    goes on to the [await] that ends the first pass of its loop when the
    text is there, and from there to the next such [await], or to its end,
    after each timeout. In between the browser handles whatever arrives:
    the form, the "Process" button and the file input stay enabled. All the
    while the function uses the [words] and the [addWord] of the render
    whose handler was called. *)

Inductive Stage :=
  | AwaitText (file : option string)
      (* at [await file.text()]; [None]: the read will fail *)
  | AwaitTimeout (wordsFromFile : list string) (totalWords i : Z).
      (* at the [await] that ends pass [i] of the loop *)

Record Upload := {
  up_words : list string;   (* the captured [words] *)
  up_stage : Stage
}.

(** The loop from its test [i < totalWords] on: one more pass, up to its
    [await], or the lines after the loop. *)
Definition loop_from (words wordsFromFile : list string) (totalWords i : Z)
    (st : State) : State * option Upload :=
  if i <? totalWords then
    (match at_index wordsFromFile i with
     | Some w => addWord words w st
     | None => st
     end,
     Some {| up_words := words;
             up_stage := AwaitTimeout wordsFromFile totalWords i |})
  else (setError None (setIsProcessing false st), None).

(** The upload goes on from its [await]: the state it leaves, and the
    upload at its next [await] if it has not ended. *)
Definition resume (up : Upload) (st : State) : State * option Upload :=
  match up_stage up with
  | AwaitText (Some text) =>
      let wordsFromFile := match_words (toLowerCase text) in
      let totalWords :=
        Z.min (len wordsFromFile) (MAX_WORDS - len (up_words up)) in
      loop_from (up_words up) wordsFromFile totalWords 0 st
  | AwaitText None =>
      (setIsProcessing false
         (setError (Some "Error reading file. Please try again.") st), None)
  | AwaitTimeout wordsFromFile totalWords i =>
      loop_from (up_words up) wordsFromFile totalWords (i + 1) st
  end.

(** The component and the uploads in flight, the oldest first. *)
Record Running := {
  app : State;
  uploads : list Upload
}.

(** What happens next: an event of the user, or the upload at place [k]
    among those in flight goes on (its text has been read, or its timeout
    has passed). *)
Inductive Action :=
  | User (ev : Event)
  | Resume (k : nat).

Definition act (r : Running) (a : Action) : Running :=
  match a with
  | User (ChooseFile file) =>
      {| app := setIsProcessing true (app r);
         uploads := uploads r ++
                    [{| up_words := words (app r); up_stage := AwaitText file |}] |}
  | User ev => {| app := step (app r) ev; uploads := uploads r |}
  | Resume k =>
      match nth_error (uploads r) k with
      | Some up =>
          let next := resume up (app r) in
          {| app := fst next;
             uploads := firstn k (uploads r) ++
                        match snd next with
                        | Some up' => [up']
                        | None => []
                        end ++ skipn (S k) (uploads r) |}
      | None => r
      end
  end.

Definition play (r : Running) (acts : list Action) : Running :=
  fold_left act acts r.

(** The component after its mount effect, no upload in flight. *)
Definition mounted (env : Browser) : Running :=
  {| app := mount env initialState; uploads := [] |}.

End Random.

(** ** Names for parts of the callbacks *)

(** The test of [addWord], created over [ws], on [w]. *)
Definition accepts (ws : list string) (w : string) : bool :=
  negb (includes ws w) && (len ws <? MAX_WORDS).

(** [wordsFromFile] and [totalWords] of [handleFileUpload], created over
    [ws], for a file that reads as [text]. *)
Definition wordsFromFile (text : string) : list string :=
  match_words (toLowerCase text).

Definition totalWords (ws : list string) (text : string) : Z :=
  Z.min (len (wordsFromFile text)) (MAX_WORDS - len ws).

(** The state of a component whose mount effect went through on a context
    that takes [FLOAT] textures: that context, and the two textures with the
    sizes the effect then gives them. *)
Definition store_allocated (st : State) : Prop :=
  glRef st = Some {| OES_texture_float := true |} /\
  (exists neuron, neuronStateTextureRef st = Some neuron /\
     tex_width neuron = TEXTURE_SIZE /\ tex_height neuron = TEXTURE_SIZE) /\
  (exists wordData, wordDataTextureRef st = Some wordData /\
     tex_width wordData = TEXTURE_SIZE /\ tex_height wordData = 1).

(** The state of a component whose mount effect went through on a context
    without the extension: that context, and the two texture objects,
    neither with an image. *)
Definition store_without_images (st : State) : Prop :=
  glRef st = Some {| OES_texture_float := false |} /\
  neuronStateTextureRef st = Some createAndSetupTexture /\
  wordDataTextureRef st = Some createAndSetupTexture.

(** The state of the loop of [fill_random] after [m] passes. *)
Definition filled_after (rand : nat -> float) (stride : Z) (m : nat)
    (a : Float32Array) (calls : nat) : Float32Array * nat :=
  for_upto m (fun i '(a, k) => (fa_set a (i * stride) (rand k), S k)) (a, calls).

(** The state of the loop of [encode_word] after [m] passes. *)
Definition encoded_after (word : string) (m : nat) : Float32Array :=
  for_upto m
    (fun i wordData => fa_set wordData (i * 4) (div (charCodeAt word i) (Number 255)))
    (new_Float32Array (TEXTURE_SIZE * 4)).

(** What an event does to the registry and to the "new word" field, which
    is all the registry's next value depends on. *)
Definition registry_step (r : list string * string) (ev : Event) : list string * string :=
  let '(ws, nw) := r in
  match ev with
  | TypeNewWord s => (ws, s)
  | ClickAddWord =>
      if negb (nw =? "")%string && accepts ws nw then (ws ++ [nw], "") else
      if negb (nw =? "")%string && negb (includes ws nw) then (ws, "") else (ws, nw)
  | ChooseFile (Some text) =>
      (ws ++ filter (accepts ws)
               (firstn (Z.to_nat (totalWords ws text)) (wordsFromFile text)), nw)
  | ChooseFile None => (ws, nw)
  | TypeInputWord _ => (ws, nw)
  | ClickProcess => (ws, nw)
  end.

(** ** Sample states *)

(** A state whose registry holds [ws]; no WebGL context. *)
Definition registry_state (ws : list string) : State :=
  setWords (fun _ => ws) initialState.

(** A stream of [Math.random()] that always returns [+0]. *)
Definition rand_zero : nat -> float := fun _ => plus_zero.

(** [0.5], and a stream of [Math.random()] that always returns it. *)
Definition half : float := S754_finite false 4503599627370496 (-53).
Definition rand_half : nat -> float := fun _ => half.

(** [1 - 2^-53], the largest binary64 value below 1, and a stream of
    [Math.random()] that always returns it. *)
Definition below_one : float := S754_finite false 9007199254740991 (-53).
Definition rand_below_one : nat -> float := fun _ => below_one.

(** A browser in which every step of the mount effect succeeds and the
    context takes [FLOAT] textures: [OES_texture_float] has been enabled on
    it from outside the component. *)
Definition working_browser : Browser :=
  {| has_canvas := true; has_webgl := true;
     shaders_compile := true; program_links := true;
     float_textures := true |}.

(** A browser that follows WebGL 1, in which every step of the mount effect
    succeeds: the context has no extension enabled. This is what the
    component meets when nothing but itself touches its canvas. *)
Definition webgl1_browser : Browser :=
  {| has_canvas := true; has_webgl := true;
     shaders_compile := true; program_links := true;
     float_textures := false |}.

(** A browser without WebGL. *)
Definition browser_without_webgl : Browser :=
  {| has_canvas := true; has_webgl := false;
     shaders_compile := true; program_links := true;
     float_textures := false |}.

(** ** Sample texts *)

(** The binary digits of [p], lowest first: a word of the characters [0]
    and [1]. *)
Fixpoint bits (p : positive) : string :=
  match p with
  | xH => "1"
  | xO q => String "0" (bits q)
  | xI q => String "1" (bits q)
  end.

(** [n] words that differ from one another. *)
Definition numbered_words (n : nat) : list string :=
  map (fun i => bits (Pos.of_succ_nat i)) (seq 0 n).

(** A text of the words [ws], a space after each. *)
Fixpoint join_words (ws : list string) : string :=
  match ws with
  | [] => ""
  | w :: rest => (w ++ String " " (join_words rest))%string
  end.

(** A text of [MAX_WORDS + k] words that differ from one another. *)
Definition text_beyond_capacity (k : Z) : string :=
  join_words (numbered_words (Z.to_nat (MAX_WORDS + k))).

(** Every character of [s] passes [f]. *)
Fixpoint all_chars (f : ascii -> bool) (s : string) : bool :=
  match s with
  | EmptyString => true
  | String c rest => f c && all_chars f rest
  end.

(** A word that [toLowerCase] keeps and [/\b\w+\b/g] matches whole. *)
Definition plain_word (w : string) : bool :=
  negb (w =? "")%string &&
  all_chars (fun c => is_word_char c && Ascii.eqb (lower_char c) c) w.

(** ** The word list the component shows *)

(** One [<li>] of the word list: a word under its key, or the line that
    counts the words left out. *)
Inductive ListItem :=
  | WordItem (key : Z) (word : string)
  | MoreItem (count : Z).

(** [l.slice(0, n)], for [n] at least 0. *)
Definition slice_from_0 (l : list string) (n : Z) : list string :=
  firstn (Z.to_nat n) l.

(** [l.map((word, index) => <li key={index}>{word}</li>)], the indices
    counted from [from]. *)
Fixpoint map_items (l : list string) (from : Z) : list ListItem :=
  match l with
  | [] => []
  | word :: rest => WordItem from word :: map_items rest (from + 1)
  end.

(** The children of the [<ul>]: the first 100 words, and one more line when
    there are more than 100. *)
Definition wordList (words : list string) : list ListItem :=
  map_items (slice_from_0 words 100) 0 ++
  (if 100 <? len words then [MoreItem (len words - 100)] else []).

(** ** Notions the further properties are stated with *)

(** What the user reads and types: the registry, the two text fields and
    the output word. *)
Definition visible (st : State) : list string * string * string * option string :=
  (words st, newWord st, inputWord st, outputWord st).

(** The mount effect reaches its texture uploads. *)
Definition mount_succeeds (env : Browser) : bool :=
  has_canvas env && has_webgl env && shaders_compile env && program_links env.

(** No texture, and no value drawn so far. *)
Definition untouched (st : State) : Prop :=
  neuronStateTextureRef st = None /\ wordDataTextureRef st = None /\
  randomCalls st = O.

(** An event that is not the upload of a text with a repeated token. *)
Definition no_repeated_token (ev : Event) : Prop :=
  match ev with
  | ChooseFile (Some text) => NoDup (wordsFromFile text)
  | _ => True
  end.

(** The user types [w] in the input field and presses "Process", then types
    the word shown and presses again, [k] times in all. *)
Fixpoint process_chain (rand : nat -> float) (k : nat) (st : State) (w : string) : State :=
  match k with
  | O => st
  | S k' =>
      let st' := step rand (step rand st (TypeInputWord w)) ClickProcess in
      match outputWord st' with
      | Some w' => process_chain rand k' st' w'
      | None => st'
      end
  end.

(** The event is the choice of a file. *)
Definition is_upload (ev : Event) : bool :=
  match ev with
  | ChooseFile _ => true
  | _ => false
  end.

(** The actions of a session in which each upload ends before the next
    event: every event, and after the choice of a file the resumptions the
    upload takes to end, one for the read and one for each timeout. [r] is
    the registry and the "new word" field before the events. *)
Fixpoint uninterrupted (r : list string * string) (evs : list Event) : list Action :=
  match evs with
  | [] => []
  | ev :: rest =>
      (User ev ::
       match ev with
       | ChooseFile (Some text) =>
           repeat (Resume 0) (S (Z.to_nat (totalWords (fst r) text)))
       | ChooseFile None => [Resume 0]
       | _ => []
       end) ++ uninterrupted (registry_step r ev) rest
  end.

(** A word is added through the form between the first and the second pass
    of the upload of a text of [MAX_WORDS] words. *)
Definition add_during_upload : list Action :=
  [User (ChooseFile (Some (text_beyond_capacity 0))); Resume 0;
   User (TypeNewWord "new"); User ClickAddWord] ++
  repeat (Resume 0) (Z.to_nat MAX_WORDS).

(** A text of [MAX_WORDS + k] words that differ from one another, two of
    them written with capitals. *)
Definition text_with_capitals (k : Z) : string :=
  ("Hello WORLD " ++ join_words (numbered_words (Z.to_nat (MAX_WORDS + k - 2))))%string.

(** ** The tokens of a text, in the specification's words

    "Tokens extracted via word-boundary matching on a lower-cased copy",
    written out without [toLowerCase] and without the matcher above: the
    capital letters and their small letters by table (the letters of
    Latin-1: [A-Z], and U+00C0..U+00DE without the multiplication sign), the
    words as the maximal runs of letters, digits and underscores. *)

Definition capital_letters : list ascii :=
  list_ascii_of_string "ABCDEFGHIJKLMNOPQRSTUVWXYZ" ++
  map ascii_of_nat (seq 192 23 ++ seq 216 7).

Definition small_letters : list ascii :=
  list_ascii_of_string "abcdefghijklmnopqrstuvwxyz" ++
  map ascii_of_nat (seq 224 23 ++ seq 248 7).

(** The small letter at the place [c] has among the capitals; [c] itself
    when it is no capital. *)
Fixpoint small_letter_of (capitals smalls : list ascii) (c : ascii) : ascii :=
  match capitals, smalls with
  | capital :: capitals', small :: smalls' =>
      if Ascii.eqb c capital then small else small_letter_of capitals' smalls' c
  | _, _ => c
  end.

Fixpoint lower_cased_copy (text : string) : string :=
  match text with
  | EmptyString => EmptyString
  | String c rest =>
      String (small_letter_of capital_letters small_letters c) (lower_cased_copy rest)
  end.

Definition word_characters : list ascii :=
  list_ascii_of_string
    "abcdefghijklmnopqrstuvwxyzABCDEFGHIJKLMNOPQRSTUVWXYZ0123456789_".

Definition in_a_word (c : ascii) : bool := existsb (Ascii.eqb c) word_characters.

(** The run of word characters [s] starts with, and the words after it. *)
Fixpoint head_and_words (s : string) : string * list string :=
  match s with
  | EmptyString => ("", [])
  | String c rest =>
      let hw := head_and_words rest in
      if in_a_word c then (String c (fst hw), snd hw)
      else ("", if (fst hw =? "")%string then snd hw else fst hw :: snd hw)
  end.

Definition words_of (s : string) : list string :=
  let hw := head_and_words s in
  if (fst hw =? "")%string then snd hw else fst hw :: snd hw.

Definition lower_cased_tokens (text : string) : list string :=
  words_of (lower_cased_copy text).

(** The small letters, the digits and the underscore. *)
Definition small_word_characters : list ascii :=
  list_ascii_of_string "abcdefghijklmnopqrstuvwxyz0123456789_".

Definition is_small_word_char (c : ascii) : bool :=
  existsb (Ascii.eqb c) small_word_characters.

(** * Properties *)

(** ** Arrays of strings *)

Lemma includes_true_iff (l : list string) (w : string) :
  includes l w = true <-> In w l.
Proof.
  unfold includes. rewrite existsb_exists. split.
  - intros [x [Hin Heq]]. apply String.eqb_eq in Heq. now subst.
  - intros Hin. exists w. split; [assumption | apply String.eqb_refl].
Qed.

Lemma includes_false_iff (l : list string) (w : string) :
  includes l w = false <-> ~ In w l.
Proof.
  rewrite <- includes_true_iff. destruct (includes l w); split; intros H;
    try reflexivity; try discriminate; try (intros H'; discriminate).
  exfalso. now apply H.
Qed.

Lemma indexOf_from_absent (l : list string) (w : string) (from : Z) :
  ~ In w l -> indexOf_from l w from = -1.
Proof.
  revert from. induction l as [|x rest IH]; intros from Hnot; simpl.
  - reflexivity.
  - destruct (String.eqb_spec x w) as [Heq | Hne].
    + exfalso. apply Hnot. now left.
    + apply IH. intros Hin. apply Hnot. now right.
Qed.

(** [indexOf] finds the first place of a word that is there. *)
Lemma indexOf_from_first (l : list string) (w : string) (from : Z) (i : nat) :
  nth_error l i = Some w ->
  (forall j, (j < i)%nat -> nth_error l j <> Some w) ->
  indexOf_from l w from = from + Z.of_nat i.
Proof.
  revert from i. induction l as [|x rest IH]; intros from i Hat Hfirst.
  - destruct i; discriminate.
  - simpl. destruct (String.eqb_spec x w) as [Heq | Hne].
    + destruct i as [|i]; [lia |].
      exfalso. apply (Hfirst O); [lia | simpl; now subst].
    + destruct i as [|i]; [simpl in Hat; congruence |].
      rewrite (IH (from + 1) i); [lia | exact Hat |].
      intros j Hj. apply (Hfirst (S j)). lia.
Qed.

Lemma indexOf_from_range (l : list string) (w : string) (from : Z) :
  indexOf_from l w from = -1 \/
  (from <= indexOf_from l w from < from + len l).
Proof.
  revert from. induction l as [|x rest IH]; intros from; simpl.
  - now left.
  - unfold len in *. simpl List.length. rewrite Nat2Z.inj_succ.
    destruct (x =? w)%string.
    + right. lia.
    + destruct (IH (from + 1)) as [H | H]; [now left | right; lia].
Qed.

Lemma indexOf_absent_iff (l : list string) (w : string) :
  indexOf l w = -1 <-> ~ In w l.
Proof.
  split; [| apply indexOf_from_absent].
  unfold indexOf. intros H Hin.
  apply In_nth_error in Hin. destruct Hin as [n Hn].
  assert (Hex : exists i, nth_error l i = Some w /\
                          forall j, (j < i)%nat -> nth_error l j <> Some w).
  { clear H. revert n Hn. induction l as [|x rest IH]; intros n Hn.
    - destruct n; discriminate.
    - destruct (String.eqb_spec x w) as [Heq | Hne].
      + exists O. split; [simpl; now subst | intros j Hj; lia].
      + destruct n as [|n]; [simpl in Hn; congruence |].
        destruct (IH n Hn) as [i [Hi Hfirst]].
        exists (S i). split; [exact Hi |].
        intros [|j] Hj; simpl; [congruence | apply Hfirst; lia]. }
  destruct Hex as [i [Hi Hfirst]].
  rewrite (indexOf_from_first l w 0 i Hi Hfirst) in H. lia.
Qed.

(** ** What [processInput] shows *)

Section OutputWord.

Variable rand : nat -> float.

Lemma outputWord_processInput (ws : list string) (w : string) (st : State) :
  outputWord (processInput rand ws w st) =
  if indexOf ws w =? -1 then Some "Unknown word"
  else at_index ws (Z.rem (indexOf ws w + 1) (len ws)).
Proof.
  unfold processInput. destruct (indexOf ws w =? -1); reflexivity.
Qed.

Lemma words_processInput (ws : list string) (w : string) (st : State) :
  words (processInput rand ws w st) = words st.
Proof.
  unfold processInput.
  destruct (indexOf ws w =? -1); [reflexivity |].
  destruct (glRef st); [| reflexivity].
  destruct (neuronStateTextureRef st); reflexivity.
Qed.

End OutputWord.

(** ** Processing a word *)

(** In a registry without repeated words, the place of a word is its first
    place. *)
Lemma first_place_of_NoDup (l : list string) (w : string) (i : nat) :
  NoDup l -> nth_error l i = Some w ->
  forall j, (j < i)%nat -> nth_error l j <> Some w.
Proof.
  intros Hnd Hat j Hj Hat'.
  assert (Hlt : (i < List.length l)%nat) by (apply nth_error_Some; congruence).
  assert (j = i); [| lia].
  apply (proj1 (NoDup_nth_error l) Hnd); [lia | congruence].
Qed.



(** C2. For every registry and every word [w] that is not in it,
    [processInput] shows the sentinel ['Unknown word'] and changes nothing
    else: the neuron-state texture, the word-data texture, the registry and
    the count of random draws are as before. *)
Theorem processInput_unknown_word (rand : nat -> float) (st : State) (w : string) :
  ~ In w (words st) ->
  processInput rand (words st) w st = setOutputWord (Some "Unknown word") st /\
  outputWord (processInput rand (words st) w st) = Some "Unknown word" /\
  neuronStateTextureRef (processInput rand (words st) w st)
    = neuronStateTextureRef st /\
  wordDataTextureRef (processInput rand (words st) w st) = wordDataTextureRef st /\
  randomCalls (processInput rand (words st) w st) = randomCalls st.
Proof.
  intros Hnot. apply indexOf_absent_iff in Hnot.
  assert (H : processInput rand (words st) w st
              = setOutputWord (Some "Unknown word") st).
  { unfold processInput. rewrite Hnot. reflexivity. }
  rewrite H. repeat split; reflexivity.
Qed.

(** With tokens [x, y, z], processing [w] shows ['Unknown word']. *)
Lemma processInput_unknown_word_xyz :
  outputWord (processInput rand_zero (words (registry_state ["x"; "y"; "z"])) "w"
                (registry_state ["x"; "y"; "z"])) = Some "Unknown word".
Proof.
  apply (processInput_unknown_word rand_zero (registry_state ["x"; "y"; "z"]) "w").
  simpl. intros [H | [H | [H | H]]]; try discriminate H; exact H.
Defined.

(** C10. The word [processInput] shows depends on the registry and on the
    input word only: two calls on equal registries and equal words show the
    same word, whatever the two states' textures hold and whatever the two
    streams of random values are. *)
Theorem processInput_output_determined (rand1 rand2 : nat -> float)
    (st1 st2 : State) (w : string) :
  words st1 = words st2 ->
  outputWord (processInput rand1 (words st1) w st1)
    = outputWord (processInput rand2 (words st2) w st2).
Proof.
  intros Heq. rewrite !outputWord_processInput, Heq. reflexivity.
Qed.

(** ** The registry under [addWord] and [handleFileUpload] *)

Lemma MAX_WORDS_eq : MAX_WORDS = 100000.
Proof. reflexivity. Qed.

Lemma TEXTURE_SIZE_eq : TEXTURE_SIZE = 4096.
Proof. reflexivity. Qed.

(** From here on the two sizes are unfolded on request only, through the
    two equations above. *)
Opaque MAX_WORDS TEXTURE_SIZE.

Lemma words_setError (e : option string) (st : State) :
  words (setError e st) = words st.
Proof. reflexivity. Qed.

Lemma words_setIsProcessing (b : bool) (st : State) :
  words (setIsProcessing b st) = words st.
Proof. reflexivity. Qed.

Lemma words_setNewWord (s : string) (st : State) :
  words (setNewWord s st) = words st.
Proof. reflexivity. Qed.

Lemma len_app (l1 l2 : list string) : len (l1 ++ l2) = len l1 + len l2.
Proof. unfold len. rewrite length_app. lia. Qed.

Lemma len_nonneg (l : list string) : 0 <= len l.
Proof. unfold len. lia. Qed.

Lemma words_addWord (ws : list string) (w : string) (st : State) :
  words (addWord ws w st) = if accepts ws w then words st ++ [w] else words st.
Proof.
  unfold addWord, accepts.
  destruct (negb (includes ws w) && (len ws <? MAX_WORDS)); [| reflexivity].
  simpl glRef. simpl wordDataTextureRef.
  destruct (glRef st); [| reflexivity].
  destruct (wordDataTextureRef st); reflexivity.
Qed.

Lemma addWord_rejects (ws : list string) (w : string) (st : State) :
  accepts ws w = false -> addWord ws w st = st.
Proof.
  unfold addWord, accepts. intros H. rewrite H. reflexivity.
Qed.

Lemma at_index_nth_error (l : list string) (k : nat) :
  at_index l (Z.of_nat k) = nth_error l k.
Proof.
  unfold at_index.
  replace (Z.of_nat k <? 0) with false by (symmetry; apply Z.ltb_ge; lia).
  now rewrite Nat2Z.id.
Qed.

Lemma firstn_snoc (l : list string) (k : nat) (w : string) :
  nth_error l k = Some w -> firstn (S k) l = firstn k l ++ [w].
Proof.
  revert k. induction l as [|x rest IH]; intros k H.
  - destruct k; discriminate.
  - destruct k as [|k]; simpl in *.
    + congruence.
    + f_equal. now apply IH.
Qed.

(** The loop of [handleFileUpload], [n] passes over [toks]: every token the
    captured registry [ws] does not hold is appended, in order. *)
Lemma words_upload_loop (ws toks : list string) (n : nat) (st : State) :
  (n <= List.length toks)%nat ->
  words (for_upto n
           (fun i st => match at_index toks i with
                        | Some w => addWord ws w st
                        | None => st
                        end) st)
  = words st ++ filter (accepts ws) (firstn n toks).
Proof.
  induction n as [|k IH]; intros Hn.
  - simpl. now rewrite app_nil_r.
  - simpl for_upto. rewrite at_index_nth_error.
    destruct (nth_error toks k) as [w |] eqn:Hk.
    + rewrite words_addWord, IH by lia.
      rewrite (firstn_snoc _ _ _ Hk), filter_app. simpl.
      destruct (accepts ws w).
      * now rewrite app_assoc.
      * now rewrite app_nil_r.
    + apply nth_error_None in Hk. lia.
Qed.

Lemma words_handleFileUpload (ws : list string) (text : string) (st : State) :
  words (handleFileUpload ws (Some text) st)
  = words st ++
    filter (accepts ws) (firstn (Z.to_nat (totalWords ws text)) (wordsFromFile text)).
Proof.
  unfold handleFileUpload.
  rewrite words_setError, words_setIsProcessing.
  fold (wordsFromFile text). fold (totalWords ws text).
  rewrite words_upload_loop.
  - now rewrite words_setIsProcessing.
  - unfold totalWords, len. lia.
Qed.

Lemma words_handleFileUpload_failed (ws : list string) (st : State) :
  words (handleFileUpload ws None st) = words st.
Proof. reflexivity. Qed.

Lemma error_addWord (ws : list string) (w : string) (st : State) :
  error (addWord ws w st) = error st.
Proof.
  unfold addWord.
  destruct (negb (includes ws w) && (len ws <? MAX_WORDS)); [| reflexivity].
  simpl glRef. simpl wordDataTextureRef.
  destruct (glRef st); [| reflexivity].
  destruct (wordDataTextureRef st); reflexivity.
Qed.

Lemma error_handleAddWord (ws : list string) (nw : string) (st : State) :
  error (handleAddWord ws nw st) = error st.
Proof.
  unfold handleAddWord.
  destruct (negb (nw =? "")%string && negb (includes ws nw)); [| reflexivity].
  apply (error_addWord ws nw st).
Qed.

Lemma words_handleAddWord (ws : list string) (nw : string) (st : State) :
  words (handleAddWord ws nw st)
  = if negb (nw =? "")%string && accepts ws nw then words st ++ [nw] else words st.
Proof.
  unfold handleAddWord.
  destruct (negb (nw =? "")%string); simpl.
  - unfold accepts at 1. destruct (negb (includes ws nw)) eqn:Hinc; simpl.
    + rewrite words_addWord. unfold accepts. rewrite Hinc. reflexivity.
    + reflexivity.
  - reflexivity.
Qed.

(** The loop of [handleFileUpload] is a left fold of [addWord] over the
    first [n] tokens, in the order of the text. *)
Lemma upload_loop_fold (ws toks : list string) (n : nat) (st : State) :
  (n <= List.length toks)%nat ->
  for_upto n
    (fun i st => match at_index toks i with
                 | Some w => addWord ws w st
                 | None => st
                 end) st
  = fold_left (fun st w => addWord ws w st) (firstn n toks) st.
Proof.
  induction n as [|k IH]; intros Hn.
  - reflexivity.
  - simpl for_upto. rewrite at_index_nth_error.
    destruct (nth_error toks k) as [w |] eqn:Hk.
    + rewrite IH by lia. rewrite (firstn_snoc _ _ _ Hk), fold_left_app.
      reflexivity.
    + apply nth_error_None in Hk. lia.
Qed.

Lemma handleFileUpload_fold (ws : list string) (text : string) (st : State) :
  handleFileUpload ws (Some text) st
  = setError None
      (setIsProcessing false
         (fold_left (fun st w => addWord ws w st)
            (firstn (Z.to_nat (totalWords ws text)) (wordsFromFile text))
            (setIsProcessing true st))).
Proof.
  unfold handleFileUpload.
  fold (wordsFromFile text). fold (totalWords ws text).
  rewrite upload_loop_fold; [reflexivity |].
  unfold totalWords, len. lia.
Qed.

Lemma accepts_nil (w : string) : accepts [] w = true.
Proof.
  unfold accepts. simpl. apply Z.ltb_lt. rewrite MAX_WORDS_eq. reflexivity.
Qed.

Lemma filter_accepts_nil (l : list string) : filter (accepts []) l = l.
Proof.
  induction l as [|x rest IH]; simpl; [reflexivity |].
  now rewrite accepts_nil, IH.
Qed.

(** An upload into an empty registry keeps the first [MAX_WORDS] tokens of
    the text, or all of them when they are fewer. *)
Lemma words_upload_into_empty (text : string) (st : State) :
  words st = [] ->
  words (handleFileUpload (words st) (Some text) st)
  = firstn (Z.to_nat MAX_WORDS) (wordsFromFile text).
Proof.
  intros Hempty. rewrite words_handleFileUpload, Hempty, filter_accepts_nil.
  simpl app. unfold totalWords.
  change (len []) with 0. rewrite Z.sub_0_r.
  destruct (Z.min_spec (len (wordsFromFile text)) MAX_WORDS) as [[Hlt ->] | [Hle ->]].
  - unfold len in *. rewrite Nat2Z.id.
    rewrite !firstn_all2; [reflexivity | lia | lia].
  - reflexivity.
Qed.

Lemma NoDup_app_disjoint (l1 l2 : list string) (t : string) :
  NoDup (l1 ++ l2) -> In t l2 -> ~ In t l1.
Proof.
  induction l1 as [|x rest IH]; intros Hnd Hin2 Hin1; [contradiction |].
  simpl in Hnd. apply NoDup_cons_iff in Hnd. destruct Hnd as [Hx Hrest].
  destruct Hin1 as [-> | Hin1].
  - apply Hx. apply in_or_app. now right.
  - now apply (IH Hrest Hin2).
Qed.

(** ** Sessions *)

Section Sessions.

Variable rand : nat -> float.

Lemma words_mount (env : Browser) (st : State) :
  words (mount rand env st) = words st.
Proof.
  unfold mount.
  destruct (has_canvas env); [| reflexivity].
  destruct (has_webgl env); [| reflexivity].
  destruct (shaders_compile env); [| reflexivity].
  destruct (program_links env); reflexivity.
Qed.

Lemma words_step (st : State) (ev : Event) :
  words (step rand st ev) =
  match ev with
  | ClickAddWord =>
      if negb (newWord st =? "")%string && accepts (words st) (newWord st)
      then words st ++ [newWord st] else words st
  | ChooseFile (Some text) =>
      words st ++
      filter (accepts (words st))
        (firstn (Z.to_nat (totalWords (words st) text)) (wordsFromFile text))
  | _ => words st
  end.
Proof.
  destruct ev as [s | | [text |] | s |]; simpl step.
  - reflexivity.
  - apply words_handleAddWord.
  - apply words_handleFileUpload.
  - reflexivity.
  - reflexivity.
  - apply words_processInput.
Qed.

Lemma step_within_capacity (st : State) (ev : Event) :
  len (words st) <= MAX_WORDS -> len (words (step rand st ev)) <= MAX_WORDS.
Proof.
  intros Hle. rewrite words_step.
  destruct ev as [s | | [text |] | s |]; try assumption.
  - destruct (negb (newWord st =? "")%string); simpl; [| assumption].
    unfold accepts.
    destruct (negb (includes (words st) (newWord st))); simpl; [| assumption].
    destruct (Z.ltb_spec (len (words st)) MAX_WORDS); [| assumption].
    rewrite len_app. change (len [newWord st]) with 1. lia.
  - rewrite len_app.
    set (n := Z.to_nat (totalWords (words st) text)).
    assert (Hn : Z.of_nat n <= MAX_WORDS - len (words st)).
    { subst n. unfold totalWords. lia. }
    pose proof (filter_length_le (accepts (words st)) (firstn n (wordsFromFile text))).
    pose proof (firstn_le_length n (wordsFromFile text)).
    unfold len in *. lia.
Qed.

Lemma step_at_capacity (st : State) (ev : Event) :
  MAX_WORDS <= len (words st) -> words (step rand st ev) = words st.
Proof.
  intros Hfull. rewrite words_step.
  destruct ev as [s | | [text |] | s |]; try reflexivity.
  - unfold accepts.
    replace (len (words st) <? MAX_WORDS) with false
      by (symmetry; apply Z.ltb_ge; exact Hfull).
    rewrite !andb_false_r. reflexivity.
  - replace (Z.to_nat (totalWords (words st) text)) with O
      by (unfold totalWords; lia).
    simpl. apply app_nil_r.
Qed.

Lemma run_one (st : State) (ev : Event) : run rand st [ev] = step rand st ev.
Proof. reflexivity. Qed.

Lemma run_cons (st : State) (ev : Event) (evs : list Event) :
  run rand st (ev :: evs) = run rand (step rand st ev) evs.
Proof. reflexivity. Qed.

Lemma step_ChooseFile (st : State) (file : option string) :
  step rand st (ChooseFile file) = handleFileUpload (words st) file st.
Proof. reflexivity. Qed.

Lemma run_within_capacity (evs : list Event) (st : State) :
  len (words st) <= MAX_WORDS -> len (words (run rand st evs)) <= MAX_WORDS.
Proof.
  revert st. induction evs as [|ev rest IH]; intros st Hle; simpl.
  - exact Hle.
  - apply IH. now apply step_within_capacity.
Qed.

Lemma session_within_capacity (env : Browser) (evs : list Event) :
  len (words (session rand env evs)) <= MAX_WORDS.
Proof.
  unfold session. apply run_within_capacity.
  rewrite words_mount. simpl. rewrite MAX_WORDS_eq. unfold len. simpl. lia.
Qed.

End Sessions.

(** ** Texts and their tokens *)

Lemma string_app_assoc (a b c : string) :
  ((a ++ b) ++ c)%string = (a ++ (b ++ c))%string.
Proof.
  induction a as [|x a IH]; simpl; [reflexivity | now rewrite IH].
Qed.

Lemma string_app_empty_r (a : string) : (a ++ "")%string = a.
Proof.
  induction a as [|x a IH]; simpl; [reflexivity | now rewrite IH].
Qed.

Lemma toLowerCase_app (a b : string) :
  toLowerCase (a ++ b) = (toLowerCase a ++ toLowerCase b)%string.
Proof.
  induction a as [|x a IH]; simpl; [reflexivity | now rewrite IH].
Qed.

Lemma all_chars_and (f g : ascii -> bool) (s : string) :
  all_chars (fun c => f c && g c) s = all_chars f s && all_chars g s.
Proof.
  induction s as [|c s IH]; simpl; [reflexivity |].
  rewrite IH. destruct (f c), (g c), (all_chars f s); reflexivity.
Qed.

Lemma toLowerCase_fixed (s : string) :
  all_chars (fun c => Ascii.eqb (lower_char c) c) s = true -> toLowerCase s = s.
Proof.
  induction s as [|c s IH]; simpl; [reflexivity |].
  intros H. apply andb_true_iff in H. destruct H as [Hc Hs].
  apply Ascii.eqb_eq in Hc. now rewrite Hc, IH.
Qed.

(** A run of word characters is read into the current match. *)
Lemma match_words_from_run (w s cur : string) :
  all_chars is_word_char w = true ->
  match_words_from (w ++ s) cur = match_words_from s (cur ++ w).
Proof.
  revert cur. induction w as [|c w IH]; intros cur H; simpl.
  - now rewrite string_app_empty_r.
  - simpl in H. apply andb_true_iff in H. destruct H as [Hc Hw].
    rewrite Hc, IH by exact Hw. now rewrite string_app_assoc.
Qed.

Lemma plain_word_parts (w : string) :
  plain_word w = true ->
  w <> "" /\ all_chars is_word_char w = true /\ toLowerCase w = w.
Proof.
  unfold plain_word. rewrite all_chars_and.
  intros H. apply andb_true_iff in H. destruct H as [Hne H].
  apply andb_true_iff in H. destruct H as [Hword Hlow].
  repeat split.
  - intros ->. discriminate Hne.
  - exact Hword.
  - now apply toLowerCase_fixed.
Qed.

(** The tokens of a text made of plain words, a space after each, are those
    words in their order. *)
Lemma wordsFromFile_join_words (ws : list string) :
  forallb plain_word ws = true -> wordsFromFile (join_words ws) = ws.
Proof.
  unfold wordsFromFile, match_words.
  induction ws as [|w rest IH]; intros H; simpl.
  - reflexivity.
  - simpl in H. apply andb_true_iff in H. destruct H as [Hw Hrest].
    destruct (plain_word_parts w Hw) as [Hne [Hword Hlow]].
    rewrite toLowerCase_app, Hlow, match_words_from_run by exact Hword.
    simpl.
    destruct (String.eqb_spec w "") as [-> | _]; [congruence |].
    simpl. now rewrite IH.
Qed.

Lemma plain_word_bits (p : positive) : plain_word (bits p) = true.
Proof.
  unfold plain_word. apply andb_true_iff. split.
  - destruct p; reflexivity.
  - induction p as [q IH | q IH |]; simpl; [exact IH | exact IH | reflexivity].
Qed.

Lemma bits_inj (p q : positive) : bits p = bits q -> p = q.
Proof.
  revert q. induction p as [p IH | p IH |]; intros [q | q |] H; simpl in H;
    try discriminate H; try reflexivity.
  - f_equal. apply IH. now inversion H.
  - inversion H as [H']. destruct p; discriminate H'.
  - f_equal. apply IH. now inversion H.
  - inversion H as [H']. destruct q; discriminate H'.
Qed.

Lemma length_numbered_words (n : nat) : List.length (numbered_words n) = n.
Proof. unfold numbered_words. now rewrite length_map, length_seq. Qed.

Lemma NoDup_map_injective {A B : Type} (f : A -> B) (l : list A) :
  (forall x y, f x = f y -> x = y) -> NoDup l -> NoDup (map f l).
Proof.
  intros Hinj Hnd. induction Hnd as [|x l Hx Hl IH]; simpl; constructor.
  - intros Hin. apply in_map_iff in Hin. destruct Hin as [y [Heq Hy]].
    apply Hinj in Heq. now subst.
  - exact IH.
Qed.

Lemma NoDup_numbered_words (n : nat) : NoDup (numbered_words n).
Proof.
  unfold numbered_words. apply NoDup_map_injective.
  - intros i j H. apply bits_inj in H. now apply SuccNat2Pos.inj.
  - apply seq_NoDup.
Qed.

Lemma plain_numbered_words (n : nat) :
  forallb plain_word (numbered_words n) = true.
Proof.
  unfold numbered_words. apply forallb_forall. intros w Hin.
  apply in_map_iff in Hin. destruct Hin as [i [<- _]]. apply plain_word_bits.
Qed.

Lemma wordsFromFile_text_beyond_capacity (k : Z) :
  wordsFromFile (text_beyond_capacity k)
  = numbered_words (Z.to_nat (MAX_WORDS + k)).
Proof.
  unfold text_beyond_capacity.
  apply wordsFromFile_join_words, plain_numbered_words.
Qed.

Lemma firstn_seq_le (n m start : nat) :
  (n <= m)%nat -> firstn n (seq start m) = seq start n.
Proof.
  revert m start. induction n as [|n IH]; intros m start Hle.
  - reflexivity.
  - destruct m as [|m]; [lia |]. simpl. f_equal. apply IH. lia.
Qed.

Lemma firstn_numbered_words (n m : nat) :
  (n <= m)%nat -> firstn n (numbered_words m) = numbered_words n.
Proof.
  intros Hle. unfold numbered_words.
  now rewrite firstn_map, firstn_seq_le.
Qed.

(** ** The tokens, in the specification's words *)

Lemma small_letter_lower_char (c : ascii) :
  small_letter_of capital_letters small_letters c = lower_char c.
Proof.
  destruct c as [b0 b1 b2 b3 b4 b5 b6 b7].
  destruct b0, b1, b2, b3, b4, b5, b6, b7; vm_compute; reflexivity.
Qed.

Lemma in_a_word_is_word_char (c : ascii) : in_a_word c = is_word_char c.
Proof.
  destruct c as [b0 b1 b2 b3 b4 b5 b6 b7].
  destruct b0, b1, b2, b3, b4, b5, b6, b7; vm_compute; reflexivity.
Qed.

Lemma lower_cased_copy_toLowerCase (text : string) :
  lower_cased_copy text = toLowerCase text.
Proof.
  induction text as [|c text IH]; cbn [lower_cased_copy toLowerCase];
    [reflexivity |].
  now rewrite small_letter_lower_char, IH.
Qed.

Lemma string_app_eq_empty (a b : string) :
  ((a ++ b) =? "")%string = ((a =? "")%string && (b =? "")%string).
Proof. destruct a, b; reflexivity. Qed.

Lemma match_words_from_head_and_words (s cur : string) :
  match_words_from s cur
  = if ((cur ++ fst (head_and_words s)) =? "")%string
    then snd (head_and_words s)
    else (cur ++ fst (head_and_words s))%string :: snd (head_and_words s).
Proof.
  revert cur. induction s as [|c s IH]; intros cur.
  - simpl. now rewrite string_app_empty_r.
  - simpl match_words_from. simpl head_and_words.
    rewrite in_a_word_is_word_char.
    destruct (is_word_char c); simpl fst; simpl snd.
    + rewrite IH, string_app_assoc. reflexivity.
    + rewrite (IH ""), string_app_empty_r. simpl append.
      destruct (cur =? "")%string; reflexivity.
Qed.

Lemma match_words_words_of (s : string) : match_words s = words_of s.
Proof. unfold match_words. now rewrite match_words_from_head_and_words. Qed.

(** The tokens [handleFileUpload] reads are the words of the lower-cased
    copy. *)
Lemma wordsFromFile_lower_cased_tokens (text : string) :
  wordsFromFile text = lower_cased_tokens text.
Proof.
  unfold wordsFromFile, lower_cased_tokens.
  now rewrite match_words_words_of, lower_cased_copy_toLowerCase.
Qed.

(** The tokens of the sample text with capitals. *)
Lemma wordsFromFile_hello_world (rest : string) :
  wordsFromFile ("Hello WORLD " ++ rest) = "hello" :: "world" :: wordsFromFile rest.
Proof.
  unfold wordsFromFile, match_words. rewrite toLowerCase_app.
  generalize (toLowerCase rest). intros lowered. reflexivity.
Qed.

Lemma wordsFromFile_text_with_capitals (k : Z) :
  wordsFromFile (text_with_capitals k)
  = "hello" :: "world" :: numbered_words (Z.to_nat (MAX_WORDS + k - 2)).
Proof.
  unfold text_with_capitals. rewrite wordsFromFile_hello_world.
  f_equal. f_equal. apply wordsFromFile_join_words, plain_numbered_words.
Qed.

Lemma numbered_word_starts_with_digit (n : nat) (w : string) :
  In w (numbered_words n) ->
  exists rest, w = String "0" rest \/ w = String "1" rest.
Proof.
  unfold numbered_words. intros Hin. apply in_map_iff in Hin.
  destruct Hin as [i [<- _]].
  destruct (Pos.of_succ_nat i) as [q | q |]; simpl; eexists; eauto.
Qed.

Lemma NoDup_hello_world_numbered (n : nat) :
  NoDup ("hello" :: "world" :: numbered_words n).
Proof.
  constructor; [| constructor; [| apply NoDup_numbered_words]].
  - intros [H | H]; [discriminate H |].
    apply numbered_word_starts_with_digit in H.
    destruct H as [rest [H | H]]; discriminate H.
  - intros H. apply numbered_word_starts_with_digit in H.
    destruct H as [rest [H | H]]; discriminate H.
Qed.

(** ** Capacity *)


(** C9. The tokens an upload reads from a text are the words of its
    lower-cased copy, as the specification words them: the maximal runs of
    letters, digits and underscores of the text with every capital letter
    replaced by its small letter. The upload passes them to [addWord] in the
    order of the text, at most [MAX_WORDS] of them. When the registry is
    empty and the text holds [MAX_WORDS + k] tokens that differ from one
    another, the registry becomes the first [MAX_WORDS] tokens, in that
    order, and none of the remaining [k] tokens is in it. (Texts of code
    units below 256; the upload runs to its end before the next event.) *)
Theorem upload_beyond_capacity (rand : nat -> float) (st : State)
    (text : string) (k : Z) :
  words st = [] ->
  NoDup (lower_cased_tokens text) ->
  len (lower_cased_tokens text) = MAX_WORDS + k ->
  0 <= k ->
  match_words (toLowerCase text) = lower_cased_tokens text /\
  step rand st (ChooseFile (Some text))
    = setError None
        (setIsProcessing false
           (fold_left (fun st' w => addWord (words st) w st')
              (firstn (Z.to_nat MAX_WORDS) (lower_cased_tokens text))
              (setIsProcessing true st))) /\
  words (step rand st (ChooseFile (Some text)))
    = firstn (Z.to_nat MAX_WORDS) (lower_cased_tokens text) /\
  len (words (step rand st (ChooseFile (Some text)))) = MAX_WORDS /\
  len (skipn (Z.to_nat MAX_WORDS) (lower_cased_tokens text)) = k /\
  (forall t, In t (skipn (Z.to_nat MAX_WORDS) (lower_cased_tokens text)) ->
     ~ In t (words (step rand st (ChooseFile (Some text))))).
Proof.
  rewrite <- wordsFromFile_lower_cased_tokens.
  intros Hempty Hnd Hlen Hk.
  split; [reflexivity |].
  assert (Hmax : 0 <= MAX_WORDS) by (rewrite MAX_WORDS_eq; lia).
  assert (Hwords : words (step rand st (ChooseFile (Some text)))
                   = firstn (Z.to_nat MAX_WORDS) (wordsFromFile text)).
  { rewrite step_ChooseFile. now apply words_upload_into_empty. }
  split.
  - rewrite step_ChooseFile, handleFileUpload_fold. unfold totalWords.
    rewrite Hempty, Hlen. change (len []) with 0.
    now replace (Z.min (MAX_WORDS + k) (MAX_WORDS - 0)) with MAX_WORDS by lia.
  - rewrite Hwords. split; [reflexivity |].
    split; [| split].
    + unfold len in *. rewrite length_firstn. lia.
    + unfold len in *. rewrite length_skipn. lia.
    + intros t Hin.
      apply (NoDup_app_disjoint
               (firstn (Z.to_nat MAX_WORDS) (wordsFromFile text))
               (skipn (Z.to_nat MAX_WORDS) (wordsFromFile text)) t);
        [now rewrite firstn_skipn | exact Hin].
Qed.

(** The upload of [Hello WORLD] followed by [MAX_WORDS - 1] numbered words,
    [MAX_WORDS + 1] different tokens in all, into the empty registry of a
    fresh component: the registry becomes [hello], [world] and the first
    [MAX_WORDS - 2] numbered words. *)
Lemma upload_beyond_capacity_one_over :
  words (step rand_zero initialState (ChooseFile (Some (text_with_capitals 1))))
  = "hello" :: "world" :: numbered_words (Z.to_nat (MAX_WORDS - 2)).
Proof.
  assert (Htokens : lower_cased_tokens (text_with_capitals 1)
                    = "hello" :: "world"
                      :: numbered_words (Z.to_nat (MAX_WORDS + 1 - 2)))
    by (rewrite <- wordsFromFile_lower_cased_tokens;
        apply wordsFromFile_text_with_capitals).
  destruct (upload_beyond_capacity rand_zero initialState
              (text_with_capitals 1) 1) as [_ [_ [H _]]].
  - reflexivity.
  - rewrite Htokens. apply NoDup_hello_world_numbered.
  - rewrite Htokens. unfold len. simpl List.length.
    rewrite length_numbered_words, MAX_WORDS_eq. lia.
  - lia.
  - rewrite H, Htokens.
    assert (Hn : exists n, Z.to_nat MAX_WORDS = S (S n) /\
                           Z.to_nat (MAX_WORDS - 2) = n /\
                           Z.to_nat (MAX_WORDS + 1 - 2) = S n).
    { exists (Z.to_nat (MAX_WORDS - 2)). rewrite MAX_WORDS_eq. lia. }
    destruct Hn as [n [-> [-> ->]]].
    cbn [firstn]. f_equal. f_equal.
    apply firstn_numbered_words. lia.
Defined.

(** ** Typed arrays filled in a loop *)

Lemma fa_at_set_same (a : Float32Array) (i : Z) (v : float) :
  0 <= i < fa_length a -> fa_at (fa_set a i v) i = fround v.
Proof.
  intros Hi. unfold fa_set.
  replace ((0 <=? i) && (i <? fa_length a)) with true
    by (symmetry; apply andb_true_iff; split;
        [apply Z.leb_le | apply Z.ltb_lt]; lia).
  simpl. now rewrite Z.eqb_refl.
Qed.

Lemma fa_at_set_other (a : Float32Array) (i j : Z) (v : float) :
  j <> i -> fa_at (fa_set a i v) j = fa_at a j.
Proof.
  intros Hne. unfold fa_set.
  destruct ((0 <=? i) && (i <? fa_length a)); [| reflexivity].
  simpl. now replace (j =? i) with false by (symmetry; apply Z.eqb_neq; exact Hne).
Qed.

Lemma fa_length_set (a : Float32Array) (i : Z) (v : float) :
  fa_length (fa_set a i v) = fa_length a.
Proof.
  unfold fa_set. destruct ((0 <=? i) && (i <? fa_length a)); reflexivity.
Qed.

Section Filling.

Variable rand : nat -> float.
Variable stride : Z.
Hypothesis stride_pos : 0 < stride.

Lemma filled_after_succ (m : nat) (a : Float32Array) (calls : nat) :
  filled_after rand stride (S m) a calls
  = (fa_set (fst (filled_after rand stride m a calls)) (Z.of_nat m * stride)
       (rand (snd (filled_after rand stride m a calls))),
     S (snd (filled_after rand stride m a calls))).
Proof.
  unfold filled_after. simpl for_upto.
  destruct (for_upto m _ (a, calls)) as [a' k]. reflexivity.
Qed.

Lemma filled_after_calls (m : nat) (a : Float32Array) (calls : nat) :
  snd (filled_after rand stride m a calls) = (calls + m)%nat.
Proof.
  induction m as [|m IH].
  - simpl. lia.
  - rewrite filled_after_succ. simpl. rewrite IH. lia.
Qed.

Lemma filled_after_length (m : nat) (a : Float32Array) (calls : nat) :
  fa_length (fst (filled_after rand stride m a calls)) = fa_length a.
Proof.
  induction m as [|m IH].
  - reflexivity.
  - rewrite filled_after_succ. simpl. now rewrite fa_length_set.
Qed.

(** Pass [i] leaves the i-th value drawn at index [i * stride]. *)
Lemma filled_after_hit (m i : nat) (a : Float32Array) (calls : nat) :
  (i < m)%nat ->
  Z.of_nat i * stride < fa_length a ->
  fa_at (fst (filled_after rand stride m a calls)) (Z.of_nat i * stride)
  = fround (rand (calls + i)%nat).
Proof.
  intros Him Hin. induction m as [|m IH]; [lia |].
  rewrite filled_after_succ. simpl fst.
  destruct (Nat.eq_dec i m) as [-> | Hne].
  - rewrite fa_at_set_same.
    + now rewrite filled_after_calls.
    + rewrite filled_after_length. nia.
  - rewrite fa_at_set_other.
    + apply IH. lia.
    + intros Heq. apply Z.mul_cancel_r in Heq; lia.
Qed.

(** An index no pass writes keeps its value. *)
Lemma filled_after_miss (m : nat) (j : Z) (a : Float32Array) (calls : nat) :
  (forall i, (i < m)%nat -> j <> Z.of_nat i * stride) ->
  fa_at (fst (filled_after rand stride m a calls)) j = fa_at a j.
Proof.
  induction m as [|m IH]; intros Hmiss; [reflexivity |].
  rewrite filled_after_succ. simpl fst.
  rewrite fa_at_set_other by (apply Hmiss; lia).
  apply IH. intros i Hi. apply Hmiss. lia.
Qed.

Lemma fill_random_filled_after (n : Z) (a : Float32Array) (calls : nat) :
  fill_random rand n stride a calls = filled_after rand stride (Z.to_nat n) a calls.
Proof. reflexivity. Qed.

End Filling.

(** ** Textures *)

Lemma texSubImage2D_rejected (gl : Context) (t : Texture)
    (xoffset yoffset width height : Z) (data : Float32Array) :
  region_fits t xoffset yoffset width height = false ->
  texSubImage2D gl t xoffset yoffset width height data = t.
Proof. unfold texSubImage2D. intros ->. now rewrite andb_false_r. Qed.

(** Without the extension every upload is refused. *)
Lemma texSubImage2D_no_float (gl : Context) (t : Texture)
    (xoffset yoffset width height : Z) (data : Float32Array) :
  OES_texture_float gl = false ->
  texSubImage2D gl t xoffset yoffset width height data = t.
Proof. unfold texSubImage2D. now intros ->. Qed.

Lemma texImage2D_no_float (gl : Context) (t : Texture) (width height : Z)
    (data : Float32Array) :
  OES_texture_float gl = false -> texImage2D gl t width height data = t.
Proof. unfold texImage2D. now intros ->. Qed.

Lemma texel_texImage2D (gl : Context) (t : Texture) (width height : Z)
    (data : Float32Array) (x y c : Z) :
  OES_texture_float gl = true ->
  texel (texImage2D gl t width height data) x y c
  = fa_at data ((y * width + x) * 4 + c).
Proof. unfold texImage2D. now intros ->. Qed.

Lemma texImage2D_size (gl : Context) (t : Texture) (width height : Z)
    (data : Float32Array) :
  OES_texture_float gl = true ->
  tex_width (texImage2D gl t width height data) = width /\
  tex_height (texImage2D gl t width height data) = height.
Proof. unfold texImage2D. intros ->. now split. Qed.

Lemma texSubImage2D_size (gl : Context) (t : Texture)
    (xoffset yoffset width height : Z) (data : Float32Array) :
  tex_width (texSubImage2D gl t xoffset yoffset width height data) = tex_width t /\
  tex_height (texSubImage2D gl t xoffset yoffset width height data) = tex_height t.
Proof.
  unfold texSubImage2D.
  destruct (OES_texture_float gl && region_fits t xoffset yoffset width height);
    split; reflexivity.
Qed.

(** A rectangle that fits is read from the array, row by row. *)
Lemma texel_texSubImage2D_inside (gl : Context) (t : Texture)
    (xoffset yoffset width height : Z) (data : Float32Array) (x y c : Z) :
  OES_texture_float gl = true ->
  region_fits t xoffset yoffset width height = true ->
  xoffset <= x < xoffset + width ->
  yoffset <= y < yoffset + height ->
  texel (texSubImage2D gl t xoffset yoffset width height data) x y c
  = fa_at data (((y - yoffset) * width + (x - xoffset)) * 4 + c).
Proof.
  intros Hfloat Hfits Hx Hy. unfold texSubImage2D. rewrite Hfloat, Hfits. simpl.
  replace ((xoffset <=? x) && (x <? xoffset + width) &&
           (yoffset <=? y) && (y <? yoffset + height)) with true; [reflexivity |].
  symmetry. repeat (apply andb_true_iff; split);
    try (apply Z.leb_le; lia); apply Z.ltb_lt; lia.
Qed.

(** Outside the rectangle the texture keeps what it held. *)
Lemma texel_texSubImage2D_outside (gl : Context) (t : Texture)
    (xoffset yoffset width height : Z) (data : Float32Array) (x y c : Z) :
  ~ (xoffset <= x < xoffset + width /\ yoffset <= y < yoffset + height) ->
  texel (texSubImage2D gl t xoffset yoffset width height data) x y c = texel t x y c.
Proof.
  intros Hout. unfold texSubImage2D.
  destruct (OES_texture_float gl && region_fits t xoffset yoffset width height);
    [| reflexivity].
  simpl.
  destruct ((xoffset <=? x) && (x <? xoffset + width) &&
            (yoffset <=? y) && (y <? yoffset + height)) eqn:Hin; [| reflexivity].
  exfalso. apply Hout.
  repeat (apply andb_true_iff in Hin; destruct Hin as [Hin ?]).
  repeat match goal with
         | H : (_ <=? _) = true |- _ => apply Z.leb_le in H
         | H : (_ <? _) = true |- _ => apply Z.ltb_lt in H
         end.
  lia.
Qed.

Lemma TEXTURE_SIZE_pos : 0 < TEXTURE_SIZE.
Proof. rewrite TEXTURE_SIZE_eq. lia. Qed.

(** ** The neuron-state texture under [processInput] *)

Section Grid.

Variable rand : nat -> float.

(** The array [processInput] uploads, from a session that has drawn [calls]
    values: channel 0 of cell [i] holds draw [calls + i], the other three
    channels hold [+0]. *)
Lemma neuronData_channel0 (cells : Z) (calls : nat) (i : Z) :
  0 <= i < cells ->
  fa_at (fst (fill_random rand cells 4 (new_Float32Array (cells * 4)) calls))
        (i * 4)
  = fround (rand (calls + Z.to_nat i)%nat).
Proof.
  intros Hi. rewrite fill_random_filled_after.
  replace (i * 4) with (Z.of_nat (Z.to_nat i) * 4) by lia.
  apply filled_after_hit; [lia | lia | simpl; lia].
Qed.

Lemma neuronData_other_channels (cells : Z) (calls : nat) (i c : Z) :
  0 < c < 4 ->
  fa_at (fst (fill_random rand cells 4 (new_Float32Array (cells * 4)) calls))
        (i * 4 + c)
  = plus_zero.
Proof.
  intros Hc. rewrite fill_random_filled_after.
  rewrite filled_after_miss; [reflexivity |].
  intros k _. lia.
Qed.

(** What [processInput] leaves in the neuron-state texture for a word of the
    registry, in a state whose texture is the full grid. *)
Lemma processInput_grid (ws : list string) (w : string) (st : State) (tex : Texture) :
  In w ws ->
  glRef st = Some {| OES_texture_float := true |} ->
  neuronStateTextureRef st = Some tex ->
  tex_width tex = TEXTURE_SIZE ->
  tex_height tex = TEXTURE_SIZE ->
  exists tex',
    neuronStateTextureRef (processInput rand ws w st) = Some tex' /\
    tex_width tex' = TEXTURE_SIZE /\
    tex_height tex' = TEXTURE_SIZE /\
    randomCalls (processInput rand ws w st)
      = (randomCalls st + Z.to_nat (TEXTURE_SIZE * TEXTURE_SIZE))%nat /\
    forall x y, 0 <= x < TEXTURE_SIZE -> 0 <= y < TEXTURE_SIZE ->
      texel tex' x y 0
        = fround (rand (randomCalls st + Z.to_nat (y * TEXTURE_SIZE + x))%nat) /\
      texel tex' x y 1 = plus_zero /\
      texel tex' x y 2 = plus_zero /\
      texel tex' x y 3 = plus_zero.
Proof.
  intros Hin Hgl Htex Hw Hh.
  assert (Hidx : (indexOf ws w =? -1) = false).
  { apply Z.eqb_neq. intros H. now apply indexOf_absent_iff in H. }
  pose proof TEXTURE_SIZE_pos as Hpos.
  assert (Hfits : region_fits tex 0 0 TEXTURE_SIZE TEXTURE_SIZE = true).
  { unfold region_fits. rewrite Hw, Hh. simpl.
    rewrite Z.leb_refl. reflexivity. }
  unfold processInput. rewrite Hidx, Hgl, Htex. cbv beta iota zeta.
  match goal with
  | |- context [texSubImage2D ?gl tex 0 0 TEXTURE_SIZE TEXTURE_SIZE ?d] =>
      exists (texSubImage2D gl tex 0 0 TEXTURE_SIZE TEXTURE_SIZE d)
  end.
  split; [reflexivity |].
  split; [now rewrite (proj1 (texSubImage2D_size _ _ _ _ _ _ _)) |].
  split; [now rewrite (proj2 (texSubImage2D_size _ _ _ _ _ _ _)) |].
  split.
  - simpl randomCalls. rewrite fill_random_filled_after, filled_after_calls.
    reflexivity.
  - intros x y Hx Hy.
    assert (Hcell : 0 <= y * TEXTURE_SIZE + x < TEXTURE_SIZE * TEXTURE_SIZE) by nia.
    rewrite !texel_texSubImage2D_inside by (reflexivity || assumption || lia).
    rewrite !Z.sub_0_r.
    replace ((y * TEXTURE_SIZE + x) * 4 + 0) with ((y * TEXTURE_SIZE + x) * 4) by lia.
    rewrite neuronData_channel0 by exact Hcell.
    rewrite !neuronData_other_channels by lia.
    repeat split; reflexivity.
Qed.

(** On a context without the extension, [processInput] draws its values for
    a word of the registry all the same, and its upload is refused: the
    texture stays as it was. *)
Lemma processInput_no_float (ws : list string) (w : string) (st : State)
    (gl : Context) (tex : Texture) :
  In w ws ->
  glRef st = Some gl ->
  OES_texture_float gl = false ->
  neuronStateTextureRef st = Some tex ->
  neuronStateTextureRef (processInput rand ws w st) = Some tex /\
  randomCalls (processInput rand ws w st)
    = (randomCalls st + Z.to_nat (TEXTURE_SIZE * TEXTURE_SIZE))%nat.
Proof.
  intros Hin Hgl Hfloat Htex.
  assert (Hidx : (indexOf ws w =? -1) = false).
  { apply Z.eqb_neq. intros H. now apply indexOf_absent_iff in H. }
  unfold processInput. rewrite Hidx, Hgl, Htex. cbv beta iota zeta.
  split.
  - simpl neuronStateTextureRef.
    now rewrite texSubImage2D_no_float by exact Hfloat.
  - simpl randomCalls. rewrite fill_random_filled_after, filled_after_calls.
    reflexivity.
Qed.

End Grid.

(** ** Rounding to binary32 *)

Lemma digits2_pos_bounds (p : positive) :
  2 ^ (Zpos (digits2_pos p) - 1) <= Zpos p < 2 ^ Zpos (digits2_pos p).
Proof.
  induction p as [p IH | p IH |]; simpl digits2_pos.
  - rewrite Pos2Z.inj_succ.
    replace (Z.succ (Zpos (digits2_pos p)) - 1) with (Zpos (digits2_pos p)) by lia.
    rewrite Z.pow_succ_r by lia.
    replace (2 ^ Zpos (digits2_pos p)) with (2 * 2 ^ (Zpos (digits2_pos p) - 1)) in *
      by (rewrite <- Z.pow_succ_r by lia; f_equal; lia).
    lia.
  - rewrite Pos2Z.inj_succ.
    replace (Z.succ (Zpos (digits2_pos p)) - 1) with (Zpos (digits2_pos p)) by lia.
    rewrite Z.pow_succ_r by lia.
    replace (2 ^ Zpos (digits2_pos p)) with (2 * 2 ^ (Zpos (digits2_pos p) - 1)) in *
      by (rewrite <- Z.pow_succ_r by lia; f_equal; lia).
    lia.
  - simpl. lia.
Qed.

(** A mantissa of a value that is at most [2 ^ b] has at most [b + 1]
    digits. *)
Lemma Zdigits2_le (m b : Z) :
  0 <= m -> 0 <= b -> m <= 2 ^ b -> Zdigits2 m <= b + 1.
Proof.
  intros Hm Hb Hle. destruct m as [| p | p]; simpl; [lia | | lia].
  pose proof (digits2_pos_bounds p) as [Hlow _].
  destruct (Z.le_gt_cases (Zpos (digits2_pos p)) (b + 1)) as [H | H]; [exact H |].
  exfalso.
  assert (Hpow : 2 ^ (b + 1) <= 2 ^ (Zpos (digits2_pos p) - 1))
    by (apply Z.pow_le_mono_r; lia).
  rewrite Z.pow_add_r in Hpow by lia. change (2 ^ 1) with 2 in Hpow.
  assert (0 < 2 ^ b) by (apply Z.pow_pos_nonneg; lia). lia.
Qed.

Lemma Zdigits2_lt (m b : Z) :
  0 <= m -> 0 <= b -> m < 2 ^ b -> Zdigits2 m <= b.
Proof.
  intros Hm Hb Hlt. destruct m as [| p | p]; simpl; [lia | | lia].
  pose proof (digits2_pos_bounds p) as [Hlow _].
  destruct (Z.le_gt_cases (Zpos (digits2_pos p)) b) as [H | H]; [exact H |].
  exfalso.
  assert (2 ^ b <= 2 ^ (Zpos (digits2_pos p) - 1))
    by (apply Z.pow_le_mono_r; lia).
  lia.
Qed.

Lemma shr_m_shr_1 (mrs : shr_record) :
  0 <= shr_m mrs -> shr_m (shr_1 mrs) = shr_m mrs / 2.
Proof.
  destruct mrs as [m r s]. simpl. intros Hm.
  destruct m as [| [p | p |] | p]; simpl; try reflexivity; try lia.
  - rewrite Pos2Z.inj_xI.
    apply (Z.div_unique_pos _ _ _ 1); lia.
  - change (Zpos p~0) with (2 * Zpos p).
    apply (Z.div_unique_pos _ _ _ 0); lia.
Qed.

Lemma shr_m_iter_pos (p : positive) (mrs : shr_record) :
  0 <= shr_m mrs ->
  shr_m (iter_pos shr_1 p mrs) = shr_m mrs / 2 ^ Zpos p.
Proof.
  revert mrs. induction p as [p IH | p IH |]; intros mrs Hm; simpl iter_pos.
  - assert (H1 : 0 <= shr_m (shr_1 mrs))
      by (rewrite shr_m_shr_1 by exact Hm; apply Z.div_pos; lia).
    assert (H2 : 0 <= shr_m (iter_pos shr_1 p (shr_1 mrs)))
      by (rewrite IH by exact H1; apply Z.div_pos; [exact H1 | apply Z.pow_pos_nonneg; lia]).
    rewrite IH, IH, shr_m_shr_1 by assumption.
    rewrite !Z.div_div by (try apply Z.pow_pos_nonneg; lia).
    f_equal. rewrite Pos2Z.inj_xI.
    replace (2 * Zpos p + 1) with (Z.succ (2 * Zpos p)) by lia.
    rewrite Z.pow_succ_r, Z.pow_twice_r by lia. reflexivity.
  - assert (H2 : 0 <= shr_m (iter_pos shr_1 p mrs))
      by (rewrite IH by exact Hm; apply Z.div_pos; [exact Hm | apply Z.pow_pos_nonneg; lia]).
    rewrite IH, IH by assumption.
    rewrite !Z.div_div by (try apply Z.pow_pos_nonneg; lia).
    f_equal. change (Zpos p~0) with (2 * Zpos p).
    rewrite Z.pow_twice_r. reflexivity.
  - rewrite shr_m_shr_1 by exact Hm. reflexivity.
Qed.

Lemma fexp32_eq (t : Z) : fexp 24 128 t = Z.max (t - 24) (-149).
Proof. reflexivity. Qed.

(** One pass of [shr_fexp] over a mantissa [m] and exponent [e] of a value
    [m * 2^e] that is at most 1 (at [b = 1]) or below 1 (at [b = 0]). *)
Lemma shr_fexp_below_one (m e : Z) (l : location) (b : Z) :
  0 <= m -> e <= -24 -> 0 <= b <= 1 -> m + (1 - b) <= 2 ^ (- e) ->
  0 <= shr_m (fst (shr_fexp 24 128 m e l)) /\
  snd (shr_fexp 24 128 m e l) <= -24 + b /\
  shr_m (fst (shr_fexp 24 128 m e l)) + (1 - b)
    <= 2 ^ (- snd (shr_fexp 24 128 m e l)).
Proof.
  intros Hm He Hb Hle.
  assert (Hdig : Zdigits2 m <= - e + b).
  { destruct (Z.eq_dec b 1) as [-> | Hb0].
    - apply Zdigits2_le; lia.
    - replace (- e + b) with (- e) by lia. apply Zdigits2_lt; lia. }
  unfold shr_fexp. rewrite fexp32_eq.
  set (n := Z.max (Zdigits2 m + e - 24) (-149) - e).
  assert (Hrec : shr_m (shr_record_of_loc m l) = m)
    by (destruct l as [| []]; reflexivity).
  unfold shr. destruct n as [| p | p] eqn:Hn; simpl fst; simpl snd.
  - rewrite Hrec. repeat split; lia.
  - rewrite shr_m_iter_pos by (rewrite Hrec; exact Hm). rewrite Hrec.
    assert (Hpow : 0 < 2 ^ Zpos p) by (apply Z.pow_pos_nonneg; lia).
    assert (Hsum : e + Zpos p <= -24 + b) by lia.
    assert (Hsplit : 2 ^ (- e) = 2 ^ Zpos p * 2 ^ (- (e + Zpos p))).
    { rewrite <- Z.pow_add_r by lia. f_equal. lia. }
    assert (Hq : 0 < 2 ^ (- (e + Zpos p))) by (apply Z.pow_pos_nonneg; lia).
    split; [apply Z.div_pos; lia |].
    split; [exact Hsum |].
    destruct (Z.eq_dec b 1) as [-> | Hb0].
    + replace (m / 2 ^ Zpos p + (1 - 1)) with (m / 2 ^ Zpos p) by lia.
      apply Z.div_le_upper_bound; [exact Hpow | lia].
    + assert (m / 2 ^ Zpos p < 2 ^ (- (e + Zpos p)));
        [apply Z.div_lt_upper_bound; [exact Hpow | lia] | lia].
  - rewrite Hrec. repeat split; lia.
Qed.

Lemma round_nearest_even_bounds (m : Z) (l : location) :
  m <= round_nearest_even m l <= m + 1.
Proof.
  unfold round_nearest_even. destruct l as [| []]; try lia.
  destruct (Z.even m); lia.
Qed.

Lemma leb32_zero_finite (m : positive) (e : Z) :
  leb32 plus_zero (S754_finite false m e) = true.
Proof. reflexivity. Qed.

Lemma one32_eq : one32 = S754_finite false 8388608 (-23).
Proof. reflexivity. Qed.

(** A positive binary32 value [m * 2^e] that is at most 1 compares so. *)
Lemma leb32_finite_one (m : positive) (e : Z) :
  e <= -23 -> Zpos m <= 2 ^ (- e) ->
  leb32 (S754_finite false m e) one32 = true.
Proof.
  intros He Hm. rewrite one32_eq. unfold leb32, SFleb, SFcompare.
  destruct (Z.compare_spec e (-23)) as [-> | Hlt | Hgt].
  - change (2 ^ (- -23)) with 8388608 in Hm.
    rewrite Pos.compare_cont_spec. simpl Pos.switch_Eq.
    destruct (Pos.compare_spec m 8388608) as [_ | _ | Hgt]; try reflexivity.
    exfalso. apply Pos2Z.pos_lt_pos in Hgt. clear - Hm Hgt. lia.
  - reflexivity.
  - lia.
Qed.

(** [binary_round_aux] on a value below 1 gives a value between 0 and 1. *)
Lemma binary_round_aux_below_one (m e : Z) (l : location) :
  0 <= m -> e <= -24 -> m < 2 ^ (- e) ->
  leb32 plus_zero (binary_round_aux 24 128 false m e l) = true /\
  leb32 (binary_round_aux 24 128 false m e l) one32 = true.
Proof.
  intros Hm He Hlt. unfold binary_round_aux.
  pose proof (shr_fexp_below_one m e l 0 Hm He) as H1.
  destruct (shr_fexp 24 128 m e l) as [mrs' e'].
  simpl fst in H1. simpl snd in H1.
  destruct H1 as [H1m [H1e H1le]]; [lia | lia |].
  pose proof (round_nearest_even_bounds (shr_m mrs') (loc_of_shr_record mrs')) as Hr.
  set (m2 := round_nearest_even (shr_m mrs') (loc_of_shr_record mrs')) in *.
  pose proof (shr_fexp_below_one m2 e' loc_Exact 1) as H2.
  destruct (shr_fexp 24 128 m2 e' loc_Exact) as [mrs'' e''].
  simpl fst in H2. simpl snd in H2.
  destruct H2 as [H2m [H2e H2le]]; [lia | lia | lia | lia |].
  destruct (shr_m mrs'') as [| p | p] eqn:Hm3.
  - split; reflexivity.
  - replace (e'' <=? 128 - 24) with true by (symmetry; apply Z.leb_le; lia).
    split; [apply leb32_zero_finite |].
    apply leb32_finite_one; lia.
  - lia.
Qed.

Lemma Pos_iter_xO (m d : positive) :
  Zpos (Pos.iter xO m d) = Zpos m * 2 ^ Zpos d.
Proof.
  induction d as [| d IH] using Pos.peano_ind.
  - simpl. lia.
  - rewrite Pos.iter_succ, Pos2Z.inj_succ, Z.pow_succ_r by lia.
    change (Zpos (Pos.iter xO m d)~0) with (2 * Zpos (Pos.iter xO m d)).
    rewrite IH. lia.
Qed.

(** [shl_align] keeps the value and does not raise the exponent. *)
Lemma shl_align_below_one (m : positive) (e e' : Z) :
  e <= 0 -> Zpos m < 2 ^ (- e) ->
  snd (shl_align m e e') <= e /\
  Zpos (fst (shl_align m e e')) < 2 ^ (- snd (shl_align m e e')).
Proof.
  intros He Hlt. unfold shl_align.
  destruct (e' - e) as [| d | d] eqn:Hd; simpl fst; simpl snd.
  - split; [lia | exact Hlt].
  - split; [lia | exact Hlt].
  - rewrite Pos_iter_xO. split; [lia |].
    replace (- e') with (- e + Zpos d) by lia.
    rewrite Z.pow_add_r by lia.
    apply Z.mul_lt_mono_pos_r; [apply Z.pow_pos_nonneg; lia | exact Hlt].
Qed.

(** What [unit_interval] says of a finite value [m * 2^e]. *)
Lemma unit_interval_finite (s : bool) (m : positive) (e : Z) :
  unit_interval (S754_finite s m e) = true ->
  s = false /\ e <= -52 /\ Zpos m < 2 ^ (- e).
Proof.
  unfold unit_interval. intros H.
  apply andb_true_iff in H. destruct H as [H Hlt].
  apply andb_true_iff in H. destruct H as [Hs Hb].
  destruct s; [discriminate Hs |]. split; [reflexivity |].
  unfold bounded, canonical_mantissa in Hb.
  apply andb_true_iff in Hb. destruct Hb as [Hcan _].
  apply Z.eqb_eq in Hcan.
  change (fexp 53 1024 (Zpos (digits2_pos m) + e))
    with (Z.max (Zpos (digits2_pos m) + e - 53) (-1074)) in Hcan.
  pose proof (digits2_pos_bounds m) as [_ Hup].
  unfold SFltb, SFcompare in Hlt.
  change (SFone 53 1024) with (S754_finite false 4503599627370496 (-52)) in Hlt.
  cbv iota in Hlt.
  destruct (Z.compare_spec e (-52)) as [-> | Hlt52 | Hgt52].
  - split; [lia |].
    rewrite Pos.compare_cont_spec in Hlt. simpl Pos.switch_Eq in Hlt.
    destruct (Pos.compare_spec m 4503599627370496) as [| Hm |]; try discriminate Hlt.
    change (2 ^ (- -52)) with 4503599627370496. exact Hm.
  - split; [lia |].
    assert (Hdig : Zpos (digits2_pos m) <= - e) by lia.
    apply (Z.lt_le_trans _ _ _ Hup). apply Z.pow_le_mono_r; lia.
  - discriminate Hlt.
Qed.

(** A value [Math.random()] may return, stored in a [Float32Array], is a
    binary32 value between 0 and 1, both included. *)
Lemma fround_unit_interval (d : float) :
  unit_interval d = true ->
  leb32 plus_zero (fround d) = true /\ leb32 (fround d) one32 = true.
Proof.
  destruct d as [s | s | | s m e]; intros H; try discriminate H.
  - destruct s; [discriminate H |]. split; reflexivity.
  - apply unit_interval_finite in H. destruct H as [-> [He Hlt]].
    unfold fround, binary_round.
    pose proof (shl_align_below_one m e
                  (fexp 24 128 (Zpos (digits2_pos m) + e))) as Hal.
    destruct (shl_align m e (fexp 24 128 (Zpos (digits2_pos m) + e))) as [mz ez].
    simpl fst in Hal. simpl snd in Hal.
    destruct Hal as [Hez Hmz]; [lia | exact Hlt |].
    apply binary_round_aux_below_one; lia.
Qed.

(** ** The mount effect *)

Section Mount.

Variable rand : nat -> float.

(** An array filled from end to end holds one draw per element. *)
Lemma random_array (n : Z) (calls : nat) (j : Z) :
  0 <= j < n ->
  fa_at (fst (fill_random rand n 1 (new_Float32Array n) calls)) j
  = fround (rand (calls + Z.to_nat j)%nat).
Proof.
  intros Hj. rewrite fill_random_filled_after.
  replace j with (Z.of_nat (Z.to_nat j) * 1) at 1 by lia.
  apply filled_after_hit; [lia | lia | simpl; lia].
Qed.

Lemma random_array_calls (n : Z) (calls : nat) :
  snd (fill_random rand n 1 (new_Float32Array n) calls) = (calls + Z.to_nat n)%nat.
Proof. rewrite fill_random_filled_after. apply filled_after_calls. Qed.

Lemma glRef_mount (st : State) :
  glRef (mount rand working_browser st) = Some {| OES_texture_float := true |}.
Proof. reflexivity. Qed.

Lemma neuronStateTextureRef_mount (st : State) :
  neuronStateTextureRef (mount rand working_browser st)
  = Some (texImage2D {| OES_texture_float := true |} createAndSetupTexture
            TEXTURE_SIZE TEXTURE_SIZE
            (fst (fill_random rand (TEXTURE_SIZE * TEXTURE_SIZE * 4) 1
                    (new_Float32Array (TEXTURE_SIZE * TEXTURE_SIZE * 4))
                    (randomCalls st)))).
Proof. reflexivity. Qed.

Lemma wordDataTextureRef_mount (st : State) :
  wordDataTextureRef (mount rand working_browser st)
  = Some (texImage2D {| OES_texture_float := true |} createAndSetupTexture
            TEXTURE_SIZE 1
            (fst (fill_random rand (TEXTURE_SIZE * 4) 1
                    (new_Float32Array (TEXTURE_SIZE * 4))
                    (snd (fill_random rand (TEXTURE_SIZE * TEXTURE_SIZE * 4) 1
                            (new_Float32Array (TEXTURE_SIZE * TEXTURE_SIZE * 4))
                            (randomCalls st)))))).
Proof. reflexivity. Qed.

(** The texels of the two textures after the mount effect, in the order the
    values were drawn. *)
Lemma mount_texels (st : State) :
  exists neuron wordData,
    neuronStateTextureRef (mount rand working_browser st) = Some neuron /\
    wordDataTextureRef (mount rand working_browser st) = Some wordData /\
    tex_width neuron = TEXTURE_SIZE /\ tex_height neuron = TEXTURE_SIZE /\
    tex_width wordData = TEXTURE_SIZE /\ tex_height wordData = 1 /\
    (forall x y c, 0 <= x < TEXTURE_SIZE -> 0 <= y < TEXTURE_SIZE -> 0 <= c < 4 ->
       texel neuron x y c
       = fround (rand (randomCalls st
                       + Z.to_nat ((y * TEXTURE_SIZE + x) * 4 + c))%nat)) /\
    (forall x c, 0 <= x < TEXTURE_SIZE -> 0 <= c < 4 ->
       texel wordData x 0 c
       = fround (rand (randomCalls st
                       + Z.to_nat (TEXTURE_SIZE * TEXTURE_SIZE * 4)
                       + Z.to_nat (x * 4 + c))%nat)).
Proof.
  pose proof TEXTURE_SIZE_pos as Hpos.
  eexists. eexists.
  split; [apply neuronStateTextureRef_mount |].
  split; [apply wordDataTextureRef_mount |].
  do 4 (split; [reflexivity |]).
  split.
  - intros x y c Hx Hy Hc. rewrite texel_texImage2D by reflexivity.
    apply random_array. nia.
  - intros x c Hx Hc. rewrite texel_texImage2D by reflexivity.
    rewrite random_array by lia.
    now rewrite random_array_calls.
Qed.

End Mount.

(** ** The textures along a session *)

Lemma addWord_keeps_grid (ws : list string) (w : string) (st : State) :
  glRef (addWord ws w st) = glRef st /\
  neuronStateTextureRef (addWord ws w st) = neuronStateTextureRef st /\
  randomCalls (addWord ws w st) = randomCalls st.
Proof.
  unfold addWord.
  destruct (negb (includes ws w) && (len ws <? MAX_WORDS)); [| now repeat split].
  simpl glRef. simpl wordDataTextureRef.
  destruct (glRef st) eqn:Hgl; [| now repeat split].
  destruct (wordDataTextureRef st); simpl; now repeat split.
Qed.

(** The word-data texture after [addWord]: untouched when the word is
    refused or there is no texture, else the result of the upload at the row
    the captured registry's size names. *)
Lemma wordDataTextureRef_addWord (ws : list string) (w : string) (st : State) :
  wordDataTextureRef (addWord ws w st)
  = if accepts ws w
    then match glRef st with
         | Some gl =>
             option_map
               (fun tex =>
                  texSubImage2D gl tex 0 (len ws) TEXTURE_SIZE 1 (encode_word w))
               (wordDataTextureRef st)
         | None => wordDataTextureRef st
         end
    else wordDataTextureRef st.
Proof.
  unfold addWord, accepts.
  destruct (negb (includes ws w) && (len ws <? MAX_WORDS)); [| reflexivity].
  simpl glRef. simpl wordDataTextureRef.
  destruct (glRef st); [| reflexivity].
  destruct (wordDataTextureRef st) eqn:Hword; simpl; [reflexivity | exact Hword].
Qed.

Lemma addWord_store_allocated (ws : list string) (w : string) (st : State) :
  store_allocated st -> store_allocated (addWord ws w st).
Proof.
  intros [Hgl [Hneuron [wordData [Hword [Hw Hh]]]]].
  destruct (addWord_keeps_grid ws w st) as [Hgl' [Hneuron' _]].
  unfold store_allocated.
  rewrite Hgl', Hneuron', wordDataTextureRef_addWord, Hgl, Hword.
  split; [reflexivity |]. split; [exact Hneuron |].
  destruct (accepts ws w); simpl.
  - eexists. split; [reflexivity |].
    destruct (texSubImage2D_size {| OES_texture_float := true |} wordData 0 (len ws)
                TEXTURE_SIZE 1 (encode_word w)) as [-> ->].
    now split.
  - exists wordData. now repeat split.
Qed.

Lemma fold_addWord_store_allocated (ws toks : list string) (st : State) :
  store_allocated st ->
  store_allocated (fold_left (fun st w => addWord ws w st) toks st).
Proof.
  revert st. induction toks as [|t rest IH]; intros st H; simpl.
  - exact H.
  - apply IH. now apply addWord_store_allocated.
Qed.

Lemma fold_addWord_keeps_grid (ws toks : list string) (st : State) :
  glRef (fold_left (fun st w => addWord ws w st) toks st) = glRef st /\
  neuronStateTextureRef (fold_left (fun st w => addWord ws w st) toks st)
    = neuronStateTextureRef st /\
  randomCalls (fold_left (fun st w => addWord ws w st) toks st) = randomCalls st.
Proof.
  revert st. induction toks as [|t rest IH]; intros st; simpl.
  - now repeat split.
  - destruct (IH (addWord ws t st)) as [H1 [H2 H3]].
    destruct (addWord_keeps_grid ws t st) as [G1 [G2 G3]].
    rewrite H1, H2, H3, G1, G2, G3. now repeat split.
Qed.

Lemma handleFileUpload_keeps_grid (ws : list string) (file : option string) (st : State) :
  glRef (handleFileUpload ws file st) = glRef st /\
  neuronStateTextureRef (handleFileUpload ws file st) = neuronStateTextureRef st /\
  randomCalls (handleFileUpload ws file st) = randomCalls st.
Proof.
  destruct file as [text |]; [| now repeat split].
  rewrite handleFileUpload_fold.
  destruct (fold_addWord_keeps_grid ws
              (firstn (Z.to_nat (totalWords ws text)) (wordsFromFile text))
              (setIsProcessing true st)) as [H1 [H2 H3]].
  repeat split; [exact H1 | exact H2 | exact H3].
Qed.

Lemma handleFileUpload_store_allocated (ws : list string) (file : option string)
    (st : State) :
  store_allocated st -> store_allocated (handleFileUpload ws file st).
Proof.
  intros H. destruct file as [text |]; [| exact H].
  rewrite handleFileUpload_fold.
  apply (fold_addWord_store_allocated ws
           (firstn (Z.to_nat (totalWords ws text)) (wordsFromFile text))
           (setIsProcessing true st)).
  exact H.
Qed.

Lemma handleAddWord_store_allocated (ws : list string) (nw : string) (st : State) :
  store_allocated st -> store_allocated (handleAddWord ws nw st).
Proof.
  intros H. unfold handleAddWord.
  destruct (negb (nw =? "")%string && negb (includes ws nw)); [| exact H].
  apply (addWord_store_allocated ws nw st H).
Qed.

Section Allocated.

Variable rand : nat -> float.

Lemma mount_store_allocated (st : State) :
  store_allocated (mount rand working_browser st).
Proof.
  destruct (mount_texels rand st)
    as [neuron [wordData [H1 [H2 [H3 [H4 [H5 [H6 _]]]]]]]].
  split; [apply glRef_mount |].
  split; [exists neuron | exists wordData]; now repeat split.
Qed.

Lemma processInput_store_allocated (ws : list string) (w : string) (st : State) :
  store_allocated st -> store_allocated (processInput rand ws w st).
Proof.
  intros [Hgl [[neuron [Hneuron [Hw Hh]]] Hword]].
  unfold processInput.
  destruct (indexOf ws w =? -1); simpl negb; cbv iota.
  - split; [exact Hgl |]. split; [now exists neuron | exact Hword].
  - rewrite Hgl, Hneuron. cbv beta iota zeta.
    split; [exact Hgl |]. split; [| exact Hword].
    eexists. split; [reflexivity |].
    match goal with
    | |- context [texSubImage2D ?gl neuron 0 0 TEXTURE_SIZE TEXTURE_SIZE ?d] =>
        destruct (texSubImage2D_size gl neuron 0 0 TEXTURE_SIZE TEXTURE_SIZE d)
          as [-> ->]
    end.
    now split.
Qed.

Lemma step_store_allocated (st : State) (ev : Event) :
  store_allocated st -> store_allocated (step rand st ev).
Proof.
  intros H. destruct ev as [s | | file | s |].
  - exact H.
  - now apply handleAddWord_store_allocated.
  - now apply handleFileUpload_store_allocated.
  - exact H.
  - now apply processInput_store_allocated.
Qed.

Lemma run_store_allocated (evs : list Event) (st : State) :
  store_allocated st -> store_allocated (run rand st evs).
Proof.
  revert st. induction evs as [|ev rest IH]; intros st H; simpl.
  - exact H.
  - apply IH. now apply step_store_allocated.
Qed.

(** In a working browser every state of a session has its context and its
    two textures, of sizes 4096 x 4096 and 4096 x 1. *)
Lemma session_store_allocated (evs : list Event) :
  store_allocated (session rand working_browser evs).
Proof. apply run_store_allocated, mount_store_allocated. Qed.

End Allocated.

(** ** The registry along a session *)

Lemma newWord_addWord (ws : list string) (w : string) (st : State) :
  newWord (addWord ws w st) = newWord st.
Proof.
  unfold addWord.
  destruct (negb (includes ws w) && (len ws <? MAX_WORDS)); [| reflexivity].
  simpl glRef. simpl wordDataTextureRef.
  destruct (glRef st); [| reflexivity].
  destruct (wordDataTextureRef st); reflexivity.
Qed.

Lemma newWord_fold_addWord (ws toks : list string) (st : State) :
  newWord (fold_left (fun st w => addWord ws w st) toks st) = newWord st.
Proof.
  revert st. induction toks as [|t rest IH]; intros st; simpl.
  - reflexivity.
  - now rewrite IH, newWord_addWord.
Qed.

Lemma newWord_handleFileUpload (ws : list string) (file : option string) (st : State) :
  newWord (handleFileUpload ws file st) = newWord st.
Proof.
  destruct file as [text |]; [| reflexivity].
  rewrite handleFileUpload_fold.
  apply (newWord_fold_addWord ws
           (firstn (Z.to_nat (totalWords ws text)) (wordsFromFile text))
           (setIsProcessing true st)).
Qed.

Section Registry.

Variable rand : nat -> float.

Lemma newWord_processInput (ws : list string) (w : string) (st : State) :
  newWord (processInput rand ws w st) = newWord st.
Proof.
  unfold processInput.
  destruct (indexOf ws w =? -1); [reflexivity |].
  destruct (glRef st); [| reflexivity].
  destruct (neuronStateTextureRef st); reflexivity.
Qed.

Lemma registry_step_correct (st : State) (ev : Event) :
  (words (step rand st ev), newWord (step rand st ev))
  = registry_step (words st, newWord st) ev.
Proof.
  destruct ev as [s | | [text |] | s |]; unfold registry_step.
  - reflexivity.
  - simpl step. rewrite words_handleAddWord. unfold handleAddWord.
    destruct (negb (newWord st =? "")%string) eqn:Hnw; simpl.
    + unfold accepts at 1 2.
      destruct (negb (includes (words st) (newWord st))) eqn:Hinc; simpl.
      * destruct (len (words st) <? MAX_WORDS); reflexivity.
      * reflexivity.
    + reflexivity.
  - rewrite step_ChooseFile, words_handleFileUpload, newWord_handleFileUpload.
    reflexivity.
  - reflexivity.
  - reflexivity.
  - simpl step. now rewrite words_processInput, newWord_processInput.
Qed.

Lemma registry_run (evs : list Event) (st : State) :
  (words (run rand st evs), newWord (run rand st evs))
  = fold_left registry_step evs (words st, newWord st).
Proof.
  revert st. induction evs as [|ev rest IH]; intros st.
  - reflexivity.
  - rewrite run_cons, IH, registry_step_correct. reflexivity.
Qed.

(** The registry at the end of a session is computed from the events
    alone. *)
Lemma words_session (env : Browser) (evs : list Event) :
  words (session rand env evs) = fst (fold_left registry_step evs ([], "")).
Proof.
  unfold session.
  change ([], "") with (words initialState, newWord initialState).
  rewrite <- (words_mount rand env initialState) at 1.
  replace (newWord initialState) with (newWord (mount rand env initialState)).
  - now rewrite <- registry_run.
  - unfold mount.
    destruct (has_canvas env); [| reflexivity].
    destruct (has_webgl env); [| reflexivity].
    destruct (shaders_compile env); [| reflexivity].
    destruct (program_links env); reflexivity.
Qed.

End Registry.

(** ** Uploads in flight *)

Section InFlight.

Variable rand : nat -> float.

Lemma play_cons (r : Running) (a : Action) (acts : list Action) :
  play rand r (a :: acts) = play rand (act rand r a) acts.
Proof. reflexivity. Qed.

Lemma play_one (r : Running) (a : Action) : play rand r [a] = act rand r a.
Proof. reflexivity. Qed.

Lemma play_app (r : Running) (acts1 acts2 : list Action) :
  play rand r (acts1 ++ acts2) = play rand (play rand r acts1) acts2.
Proof. unfold play. apply fold_left_app. Qed.

Lemma repeat_snoc {A : Type} (x : A) (n : nat) :
  repeat x (S n) = repeat x n ++ [x].
Proof.
  induction n as [|n IH]; [reflexivity |].
  simpl in *. f_equal. exact IH.
Qed.

(** The file is chosen: the upload is in flight, at its first [await]. *)
Lemma act_ChooseFile (st : State) (file : option string) :
  act rand {| app := st; uploads := [] |} (User (ChooseFile file))
  = {| app := setIsProcessing true st;
       uploads := [{| up_words := words st; up_stage := AwaitText file |}] |}.
Proof. reflexivity. Qed.

(** The text is there: the tokens are read, and the loop starts. *)
Lemma act_text_read (ws : list string) (text : string) (st : State) :
  act rand {| app := st;
              uploads := [{| up_words := ws; up_stage := AwaitText (Some text) |}] |}
    (Resume 0)
  = if 0 <? totalWords ws text
    then {| app := match at_index (wordsFromFile text) 0 with
                   | Some w => addWord ws w st
                   | None => st
                   end;
            uploads := [{| up_words := ws;
                           up_stage := AwaitTimeout (wordsFromFile text)
                                         (totalWords ws text) 0 |}] |}
    else {| app := setError None (setIsProcessing false st); uploads := [] |}.
Proof.
  unfold act, resume, loop_from, totalWords, wordsFromFile. simpl.
  destruct (0 <? Z.min (len (match_words (toLowerCase text))) (MAX_WORDS - len ws));
    reflexivity.
Qed.

(** A timeout has passed: one more pass, or the end of the upload. *)
Lemma act_timeout (ws wff : list string) (total i : Z) (st : State) :
  act rand {| app := st;
              uploads := [{| up_words := ws;
                             up_stage := AwaitTimeout wff total i |}] |}
    (Resume 0)
  = if i + 1 <? total
    then {| app := match at_index wff (i + 1) with
                   | Some w => addWord ws w st
                   | None => st
                   end;
            uploads := [{| up_words := ws;
                           up_stage := AwaitTimeout wff total (i + 1) |}] |}
    else {| app := setError None (setIsProcessing false st); uploads := [] |}.
Proof.
  unfold act, resume, loop_from. simpl.
  destruct (i + 1 <? total); reflexivity.
Qed.

(** [n] timeouts in a row, while the loop has passes left. *)
Lemma loop_passes (ws wff : list string) (total : Z) (n j : nat) (st : State) :
  Z.of_nat (j + n) < total ->
  play rand {| app := st;
               uploads := [{| up_words := ws;
                              up_stage := AwaitTimeout wff total (Z.of_nat j) |}] |}
    (repeat (Resume 0) n)
  = {| app := fold_left
                (fun st k => match at_index wff (Z.of_nat k) with
                             | Some w => addWord ws w st
                             | None => st
                             end) (seq (S j) n) st;
       uploads := [{| up_words := ws;
                      up_stage := AwaitTimeout wff total (Z.of_nat (j + n)) |}] |}.
Proof.
  revert j st. induction n as [|n IH]; intros j st Hlt.
  - rewrite Nat.add_0_r. reflexivity.
  - simpl repeat. rewrite play_cons, act_timeout.
    replace (Z.of_nat j + 1 <? total) with true by (symmetry; apply Z.ltb_lt; lia).
    replace (Z.of_nat j + 1) with (Z.of_nat (S j)) by lia.
    rewrite IH by lia.
    replace (S j + n)%nat with (j + S n)%nat by lia. reflexivity.
Qed.

Lemma for_upto_fold_seq (n : nat) (body : Z -> State -> State) (st : State) :
  for_upto n body st = fold_left (fun st k => body (Z.of_nat k) st) (seq 0 n) st.
Proof.
  induction n as [|n IH]; [reflexivity |].
  rewrite seq_S, fold_left_app. simpl. now rewrite IH.
Qed.

(** An upload that nothing interrupts: the file is chosen, its text is read
    and every timeout passes before anything else arrives. Its effect is
    that of [handleFileUpload] run as one step. *)
Lemma uninterrupted_upload (st : State) (text : string) :
  play rand {| app := st; uploads := [] |}
    (User (ChooseFile (Some text)) ::
     repeat (Resume 0) (S (Z.to_nat (totalWords (words st) text))))
  = {| app := handleFileUpload (words st) (Some text) st; uploads := [] |}.
Proof.
  rewrite play_cons, act_ChooseFile. simpl repeat.
  rewrite play_cons, act_text_read.
  change (words (setIsProcessing true st)) with (words st).
  assert (Hupload : handleFileUpload (words st) (Some text) st
                    = setError None
                        (setIsProcessing false
                           (fold_left
                              (fun st' k =>
                                 match at_index (wordsFromFile text) (Z.of_nat k) with
                                 | Some w => addWord (words st) w st'
                                 | None => st'
                                 end)
                              (seq 0 (Z.to_nat (totalWords (words st) text)))
                              (setIsProcessing true st)))).
  { unfold handleFileUpload. fold (wordsFromFile text).
    fold (totalWords (words st) text).
    now rewrite for_upto_fold_seq. }
  rewrite Hupload.
  destruct (Z.ltb_spec 0 (totalWords (words st) text)) as [Hpos | Hnone].
  - destruct (Z.to_nat (totalWords (words st) text)) as [|m] eqn:Hm; [lia |].
    rewrite repeat_snoc, play_app.
    rewrite (loop_passes (words st) (wordsFromFile text)
               (totalWords (words st) text) m 0) by lia.
    rewrite play_one, act_timeout.
    replace (Z.of_nat (0 + m) + 1 <? totalWords (words st) text) with false
      by (symmetry; apply Z.ltb_ge; lia).
    reflexivity.
  - replace (Z.to_nat (totalWords (words st) text)) with O by lia.
    reflexivity.
Qed.

(** The same for a file that cannot be read. *)
Lemma uninterrupted_failed_upload (st : State) :
  play rand {| app := st; uploads := [] |} [User (ChooseFile None); Resume 0]
  = {| app := handleFileUpload (words st) None st; uploads := [] |}.
Proof. reflexivity. Qed.

Lemma uninterrupted_run (evs : list Event) (st : State) :
  play rand {| app := st; uploads := [] |}
    (uninterrupted (words st, newWord st) evs)
  = {| app := run rand st evs; uploads := [] |}.
Proof.
  revert st. induction evs as [|ev rest IH]; intros st.
  - reflexivity.
  - cbn [uninterrupted]. rewrite play_app.
    rewrite <- (registry_step_correct rand st ev), run_cons, <- IH.
    f_equal.
    destruct ev as [s | | [text |] | s |]; try reflexivity.
    + apply uninterrupted_upload.
Qed.

(** A session in which each upload ends before the next event is a run of
    the component with its uploads in flight: the events, and after each
    choice of a file the resumptions of that upload and nothing else. *)
Lemma sessions_are_uninterrupted_runs (env : Browser) (evs : list Event) :
  play rand (mounted rand env) (uninterrupted ([], "") evs)
  = {| app := session rand env evs; uploads := [] |}.
Proof.
  unfold mounted, session.
  rewrite <- uninterrupted_run. f_equal. f_equal.
  f_equal.
  - now rewrite words_mount.
  - unfold mount.
    destruct (has_canvas env); [| reflexivity].
    destruct (has_webgl env); [| reflexivity].
    destruct (shaders_compile env); [| reflexivity].
    destruct (program_links env); reflexivity.
Qed.

(** The passes of an upload begun over an empty registry append their
    tokens whatever the registry has become. *)
Lemma words_passes_over_empty (wff : list string) (n a : nat) (st : State) :
  (a + n <= List.length wff)%nat ->
  len (words (fold_left
                (fun st k => match at_index wff (Z.of_nat k) with
                             | Some w => addWord [] w st
                             | None => st
                             end) (seq a n) st))
  = len (words st) + Z.of_nat n.
Proof.
  revert a st. induction n as [|n IH]; intros a st Hle.
  - simpl. lia.
  - simpl seq. simpl fold_left. rewrite IH by lia.
    rewrite at_index_nth_error.
    destruct (nth_error wff a) as [w |] eqn:Hw.
    + rewrite words_addWord, accepts_nil, len_app. change (len [w]) with 1. lia.
    + apply nth_error_None in Hw. lia.
Qed.

End InFlight.

(** C3 fails in the program. In every browser and for every stream of
    random values: a file of [MAX_WORDS] different words is chosen, its
    text is read and the first pass of the loop adds its first word; the
    user types [new] and presses "Add Word"; the timeouts of the upload
    pass. The upload has captured the empty registry, so each of its passes
    finds room, and at its end the registry holds [MAX_WORDS + 1] words. *)
Theorem add_during_upload_exceeds_capacity (rand : nat -> float) (env : Browser) :
  MAX_WORDS = 100000 /\
  len (wordsFromFile (text_beyond_capacity 0)) = MAX_WORDS /\
  uploads (play rand (mounted rand env) add_during_upload) = [] /\
  len (words (app (play rand (mounted rand env) add_during_upload)))
    = MAX_WORDS + 1.
Proof.
  split; [exact MAX_WORDS_eq |].
  assert (Hm : exists m, Z.to_nat (MAX_WORDS + 0) = S m /\
                         Z.to_nat MAX_WORDS = S m /\ Z.of_nat (S m) = MAX_WORDS).
  { exists (Z.to_nat (MAX_WORDS - 1)). rewrite MAX_WORDS_eq. lia. }
  destruct Hm as [m [Hm0 [Hm1 Hm2]]].
  assert (Hwff : wordsFromFile (text_beyond_capacity 0) = numbered_words (S m))
    by (rewrite wordsFromFile_text_beyond_capacity, Hm0; reflexivity).
  assert (Htotal : totalWords [] (text_beyond_capacity 0) = MAX_WORDS).
  { unfold totalWords. rewrite Hwff. unfold len.
    rewrite length_numbered_words. simpl List.length. lia. }
  split; [rewrite Hwff; unfold len; now rewrite length_numbered_words |].
  set (st1 := addWord [] "1" (setIsProcessing true (mount rand env initialState))).
  set (st2 := step rand (step rand st1 (TypeNewWord "new")) ClickAddWord).
  assert (Hwords1 : words st1 = ["1"]).
  { subst st1. rewrite words_addWord, accepts_nil.
    change (words (setIsProcessing true (mount rand env initialState)))
      with (words (mount rand env initialState)).
    now rewrite words_mount. }
  assert (Hwords2 : words st2 = ["1"; "new"]).
  { subst st2. rewrite words_step.
    change (newWord (step rand st1 (TypeNewWord "new"))) with "new".
    change (words (step rand st1 (TypeNewWord "new"))) with (words st1).
    rewrite Hwords1. unfold accepts.
    replace (len ["1"] <? MAX_WORDS) with true
      by (symmetry; apply Z.ltb_lt; rewrite MAX_WORDS_eq; reflexivity).
    reflexivity. }
  assert (Hstart :
    play rand {| app := mount rand env initialState; uploads := [] |}
      [User (ChooseFile (Some (text_beyond_capacity 0))); Resume 0;
       User (TypeNewWord "new"); User ClickAddWord]
    = {| app := st2;
         uploads := [{| up_words := [];
                        up_stage := AwaitTimeout (numbered_words (S m))
                                      MAX_WORDS 0 |}] |}).
  { rewrite play_cons, act_ChooseFile, (words_mount rand env initialState).
    change (words initialState) with (@nil string).
    rewrite play_cons, act_text_read, Htotal, Hwff.
    replace (0 <? MAX_WORDS) with true
      by (symmetry; apply Z.ltb_lt; rewrite MAX_WORDS_eq; lia).
    reflexivity. }
  assert (Hrun :
    play rand (mounted rand env) add_during_upload
    = {| app := setError None
                  (setIsProcessing false
                     (fold_left
                        (fun st k =>
                           match at_index (numbered_words (S m)) (Z.of_nat k) with
                           | Some w => addWord [] w st
                           | None => st
                           end) (seq 1 m) st2));
         uploads := [] |}).
  { unfold add_during_upload, mounted.
    rewrite play_app, Hstart, Hm1, repeat_snoc, play_app.
    rewrite (loop_passes rand [] (numbered_words (S m)) MAX_WORDS m 0) by lia.
    rewrite play_one, act_timeout.
    replace (Z.of_nat (0 + m) + 1 <? MAX_WORDS) with false
      by (symmetry; apply Z.ltb_ge; lia).
    reflexivity. }
  rewrite Hrun. split; [reflexivity |].
  cbn [app]. rewrite words_setError, words_setIsProcessing.
  rewrite words_passes_over_empty
    by (rewrite length_numbered_words; lia).
  rewrite Hwords2. unfold len. simpl List.length. lia.
Qed.

(** ** The array [addWord] uploads *)

Section Encoding.

Variable word : string.

Lemma encoded_after_succ (m : nat) :
  encoded_after word (S m)
  = fa_set (encoded_after word m) (Z.of_nat m * 4)
      (div (charCodeAt word (Z.of_nat m)) (Number 255)).
Proof. reflexivity. Qed.

Lemma encoded_after_length (m : nat) :
  fa_length (encoded_after word m) = TEXTURE_SIZE * 4.
Proof.
  induction m as [|m IH]; [reflexivity |].
  now rewrite encoded_after_succ, fa_length_set.
Qed.

Lemma encoded_after_hit (m i : nat) :
  (i < m)%nat -> Z.of_nat i < TEXTURE_SIZE ->
  fa_at (encoded_after word m) (Z.of_nat i * 4)
  = fround (div (charCodeAt word (Z.of_nat i)) (Number 255)).
Proof.
  intros Him Hin. induction m as [|m IH]; [lia |].
  rewrite encoded_after_succ.
  destruct (Nat.eq_dec i m) as [-> | Hne].
  - apply fa_at_set_same. rewrite encoded_after_length. lia.
  - rewrite fa_at_set_other by lia. apply IH. lia.
Qed.

Lemma encoded_after_miss (m : nat) (j : Z) :
  (forall i, (i < m)%nat -> j <> Z.of_nat i * 4) ->
  fa_at (encoded_after word m) j = plus_zero.
Proof.
  induction m as [|m IH]; intros Hmiss; [reflexivity |].
  rewrite encoded_after_succ.
  rewrite fa_at_set_other by (apply Hmiss; lia).
  apply IH. intros i Hi. apply Hmiss. lia.
Qed.

(** Channel 0 of cell [x] of the array holds the code unit of the x-th
    character divided by 255, for every character that has a cell. *)
Lemma encode_word_char (x : Z) :
  0 <= x < str_length word -> x < TEXTURE_SIZE ->
  fa_at (encode_word word) (x * 4 + 0)
  = fround (div (charCodeAt word x) (Number 255)).
Proof.
  intros Hx Hin. unfold encode_word. fold (encoded_after word (Z.to_nat (str_length word))).
  rewrite Z.add_0_r. rewrite <- (Z2Nat.id x) by lia.
  apply encoded_after_hit; lia.
Qed.

(** Every other element of the array holds [+0]. *)
Lemma encode_word_rest (x c : Z) :
  0 <= c < 4 -> (0 < c \/ x < 0 \/ str_length word <= x) ->
  fa_at (encode_word word) (x * 4 + c) = plus_zero.
Proof.
  intros Hc Hrest. unfold encode_word.
  fold (encoded_after word (Z.to_nat (str_length word))).
  apply encoded_after_miss. intros i Hi. unfold str_length in *. lia.
Qed.

End Encoding.

(** The upload of [addWord] is refused whenever the captured registry holds
    a word already: the word-data texture has one row, and the upload names
    row [len ws]. *)
Lemma addWord_upload_rejected (ws : list string) (w : string) (st : State) :
  store_allocated st -> 1 <= len ws ->
  wordDataTextureRef (addWord ws w st) = wordDataTextureRef st.
Proof.
  intros [Hgl [_ [wordData [Hword [Hw Hh]]]]] Hlen.
  rewrite wordDataTextureRef_addWord, Hgl, Hword.
  destruct (accepts ws w); [| reflexivity].
  simpl. rewrite texSubImage2D_rejected; [reflexivity |].
  unfold region_fits. rewrite Hh.
  replace (len ws + 1 <=? 1) with false by (symmetry; apply Z.leb_gt; lia).
  apply andb_false_r.
Qed.

(** On a context without the extension the upload of [addWord] is refused
    whatever the row. *)
Lemma addWord_upload_no_float (ws : list string) (w : string) (st : State)
    (gl : Context) :
  glRef st = Some gl -> OES_texture_float gl = false ->
  wordDataTextureRef (addWord ws w st) = wordDataTextureRef st.
Proof.
  intros Hgl Hfloat. rewrite wordDataTextureRef_addWord, Hgl.
  destruct (accepts ws w); [| reflexivity].
  destruct (wordDataTextureRef st) as [tex |]; [| reflexivity].
  simpl. now rewrite texSubImage2D_no_float.
Qed.

(** The upload of [addWord] into row 0, by a callback created over an empty
    registry, replaces the whole word-data texture: the word's encoding in
    channel 0 of its first cells, [+0] everywhere else. *)
Lemma addWord_first_upload (w : string) (st : State) :
  store_allocated st ->
  exists wordData,
    wordDataTextureRef (addWord [] w st) = Some wordData /\
    tex_width wordData = TEXTURE_SIZE /\ tex_height wordData = 1 /\
    (forall x, 0 <= x < str_length w -> x < TEXTURE_SIZE ->
       texel wordData x 0 0 = fround (div (charCodeAt w x) (Number 255))) /\
    (forall x c, 0 <= x < TEXTURE_SIZE -> 0 <= c < 4 ->
       (0 < c \/ str_length w <= x) -> texel wordData x 0 c = plus_zero).
Proof.
  intros [Hgl [_ [old [Hword [Hw Hh]]]]].
  rewrite wordDataTextureRef_addWord, accepts_nil, Hgl, Hword. simpl.
  eexists. split; [reflexivity |].
  destruct (texSubImage2D_size {| OES_texture_float := true |} old 0 (len [])
              TEXTURE_SIZE 1 (encode_word w)) as [-> ->].
  split; [exact Hw |]. split; [exact Hh |].
  assert (Hfits : region_fits old 0 (len []) TEXTURE_SIZE 1 = true).
  { unfold region_fits. rewrite Hw, Hh. change (len []) with 0. simpl.
    now rewrite Z.leb_refl. }
  change (len []) with 0 in *.
  split.
  - intros x Hx Hin.
    rewrite texel_texSubImage2D_inside by (reflexivity || assumption || lia).
    replace ((0 - 0) * TEXTURE_SIZE + (x - 0)) with x by lia.
    now apply encode_word_char.
  - intros x c Hx Hc Hrest.
    rewrite texel_texSubImage2D_inside by (reflexivity || assumption || lia).
    replace ((0 - 0) * TEXTURE_SIZE + (x - 0)) with x by lia.
    apply encode_word_rest; [exact Hc | lia].
Qed.

(** ** The textures on a context without the extension *)

Section WithoutImages.

Variable rand : nat -> float.

Lemma mount_succeeds_fields (env : Browser) :
  mount_succeeds env = true ->
  has_canvas env = true /\ has_webgl env = true /\
  shaders_compile env = true /\ program_links env = true.
Proof.
  unfold mount_succeeds. intros H.
  apply andb_true_iff in H. destruct H as [H H4].
  apply andb_true_iff in H. destruct H as [H H3].
  apply andb_true_iff in H. destruct H as [H1 H2].
  now repeat split.
Qed.

(** Where the mount effect goes through and the context takes [FLOAT]
    textures, the browser is the working browser. *)
Lemma mount_succeeds_with_float (env : Browser) :
  mount_succeeds env = true -> float_textures env = true ->
  env = working_browser.
Proof.
  intros H Hfloat. apply mount_succeeds_fields in H.
  destruct H as [H1 [H2 [H3 H4]]].
  destruct env as [c w s l f]. simpl in *. now subst.
Qed.

Lemma mount_succeeds_without_float (env : Browser) :
  mount_succeeds env = true -> float_textures env = false ->
  env = webgl1_browser.
Proof.
  intros H Hfloat. apply mount_succeeds_fields in H.
  destruct H as [H1 [H2 [H3 H4]]].
  destruct env as [c w s l f]. simpl in *. now subst.
Qed.

(** The mount effect on a context without the extension: both uploads are
    refused, and the values have been drawn all the same. *)
Lemma mount_without_float (st : State) :
  store_without_images (mount rand webgl1_browser st) /\
  randomCalls (mount rand webgl1_browser st)
  = (randomCalls st + Z.to_nat (TEXTURE_SIZE * TEXTURE_SIZE * 4)
     + Z.to_nat (TEXTURE_SIZE * 4))%nat.
Proof.
  split.
  - repeat split.
  - unfold mount. simpl randomCalls.
    now rewrite !random_array_calls.
Qed.

Lemma glRef_processInput (ws : list string) (w : string) (st : State) :
  glRef (processInput rand ws w st) = glRef st.
Proof.
  unfold processInput.
  destruct (indexOf ws w =? -1); [reflexivity |].
  destruct (glRef st) as [gl |] eqn:Hgl;
    [destruct (neuronStateTextureRef st) |];
    cbn [negb glRef setOutputWord set_randomCalls set_neuronStateTexture];
    exact Hgl.
Qed.

Lemma addWord_store_without_images (ws : list string) (w : string) (st : State) :
  store_without_images st -> store_without_images (addWord ws w st).
Proof.
  intros [Hgl [Hneuron Hword]].
  destruct (addWord_keeps_grid ws w st) as [Hgl' [Hneuron' _]].
  unfold store_without_images.
  rewrite Hgl', Hneuron',
    (addWord_upload_no_float ws w st {| OES_texture_float := false |} Hgl eq_refl).
  now repeat split.
Qed.

Lemma fold_addWord_store_without_images (ws toks : list string) (st : State) :
  store_without_images st ->
  store_without_images (fold_left (fun st w => addWord ws w st) toks st).
Proof.
  revert st. induction toks as [|t rest IH]; intros st H; simpl.
  - exact H.
  - apply IH. now apply addWord_store_without_images.
Qed.

Lemma processInput_store_without_images (ws : list string) (w : string) (st : State) :
  store_without_images st -> store_without_images (processInput rand ws w st).
Proof.
  intros [Hgl [Hneuron Hword]]. unfold store_without_images.
  rewrite glRef_processInput. split; [exact Hgl |].
  unfold processInput.
  destruct (indexOf ws w =? -1); simpl negb; cbv iota.
  - now split.
  - rewrite Hgl, Hneuron. cbv beta iota zeta. split; [| exact Hword].
    simpl neuronStateTextureRef.
    now rewrite texSubImage2D_no_float by reflexivity.
Qed.

Lemma step_store_without_images (st : State) (ev : Event) :
  store_without_images st -> store_without_images (step rand st ev).
Proof.
  intros H. destruct ev as [s | | [text |] | s |];
    [simpl step | simpl step | rewrite step_ChooseFile | simpl step
     | simpl step | simpl step].
  - exact H.
  - unfold handleAddWord.
    destruct (negb (newWord st =? "")%string
              && negb (includes (words st) (newWord st))); [| exact H].
    exact (addWord_store_without_images (words st) (newWord st) st H).
  - rewrite handleFileUpload_fold.
    exact (fold_addWord_store_without_images (words st)
             (firstn (Z.to_nat (totalWords (words st) text)) (wordsFromFile text))
             (setIsProcessing true st) H).
  - exact H.
  - exact H.
  - now apply processInput_store_without_images.
Qed.

Lemma run_store_without_images (evs : list Event) (st : State) :
  store_without_images st -> store_without_images (run rand st evs).
Proof.
  revert st. induction evs as [|ev rest IH]; intros st H.
  - exact H.
  - rewrite run_cons. apply IH. now apply step_store_without_images.
Qed.

(** In a browser that follows WebGL 1 every state of a session has its
    context and its two texture objects, and neither has an image. *)
Lemma session_store_without_images (evs : list Event) :
  store_without_images (session rand webgl1_browser evs).
Proof. apply run_store_without_images, mount_without_float. Qed.

End WithoutImages.

(** * What the textures hold *)

(** A session with one word, [a], in a working browser. *)
Lemma words_session_a (rand : nat -> float) :
  words (session rand working_browser [ChooseFile (Some "a")]) = ["a"].
Proof. rewrite words_session. vm_compute. reflexivity. Qed.

Lemma fround_half : fround half = S754_finite false 8388608 (-24).
Proof. vm_compute. reflexivity. Qed.

Lemma fround_below_one : fround below_one = one32.
Proof. vm_compute. reflexivity. Qed.

(** C10, on two sessions: one in a working browser, with textures and the
    stream of halves, the other without WebGL and with the stream of zeros. *)
Lemma processInput_output_determined_two_sessions :
  outputWord (processInput rand_half
                (words (session rand_half working_browser [ChooseFile (Some "a b c")]))
                "b" (session rand_half working_browser [ChooseFile (Some "a b c")]))
  = outputWord (processInput rand_zero (words (registry_state ["a"; "b"; "c"]))
                  "b" (registry_state ["a"; "b"; "c"])).
Proof.
  apply (processInput_output_determined rand_half rand_zero
           (session rand_half working_browser [ChooseFile (Some "a b c")])
           (registry_state ["a"; "b"; "c"]) "b").
  rewrite words_session. vm_compute. reflexivity.
Defined.

(** What [processInput] would do to the grid on a context with the
    extension enabled. For every word of the registry, in a state whose
    textures are allocated, [processInput] replaces the whole neuron-state
    texture in one upload that covers all its cells: channel 0 of the cell
    in column [x] of row [y] holds the value drawn by the call of
    [Math.random()] numbered [y * 4096 + x] among the 4096 * 4096 calls of
    this run, and channels 1, 2 and 3 of every cell hold [+0]. *)
Lemma processInput_overwrites_grid (rand : nat -> float) (st : State) (w : string) :
  store_allocated st ->
  In w (words st) ->
  exists grid,
    neuronStateTextureRef (processInput rand (words st) w st) = Some grid /\
    tex_width grid = TEXTURE_SIZE /\
    tex_height grid = TEXTURE_SIZE /\
    randomCalls (processInput rand (words st) w st)
      = (randomCalls st + Z.to_nat (TEXTURE_SIZE * TEXTURE_SIZE))%nat /\
    forall x y, 0 <= x < TEXTURE_SIZE -> 0 <= y < TEXTURE_SIZE ->
      texel grid x y 0
        = fround (rand (randomCalls st + Z.to_nat (y * TEXTURE_SIZE + x))%nat) /\
      texel grid x y 1 = plus_zero /\
      texel grid x y 2 = plus_zero /\
      texel grid x y 3 = plus_zero.
Proof.
  intros [Hgl [[neuron [Hneuron [Hw Hh]]] _]] Hin.
  exact (processInput_grid rand (words st) w st neuron Hin Hgl Hneuron Hw Hh).
Qed.

(** In a session with the word [a], after [a] is processed with every draw
    equal to 0.5, channel 0 of the first cell holds 0.5 and channel 1
    holds [+0]. *)
Lemma processInput_overwrites_grid_a :
  exists grid,
    neuronStateTextureRef
      (processInput rand_half
         (words (session rand_half working_browser [ChooseFile (Some "a")])) "a"
         (session rand_half working_browser [ChooseFile (Some "a")])) = Some grid /\
    texel grid 0 0 0 = fround half /\
    texel grid 0 0 1 = plus_zero.
Proof.
  destruct (processInput_overwrites_grid rand_half
              (session rand_half working_browser [ChooseFile (Some "a")]) "a")
    as [grid [Hgrid [_ [_ [_ Htexels]]]]].
  - apply session_store_allocated.
  - rewrite words_session_a. now left.
  - exists grid. split; [exact Hgrid |].
    pose proof TEXTURE_SIZE_pos as Hpos.
    destruct (Htexels 0 0) as [H0 [H1 _]]; [lia | lia |].
    split; [exact H0 | exact H1].
Defined.

(** Even so, not every channel receives a sample: after [a] is processed
    with every draw equal to 0.5, channel 1 of the first cell holds [+0],
    which is none of the values drawn. *)
Lemma processInput_leaves_channels_undrawn :
  exists grid,
    neuronStateTextureRef
      (processInput rand_half
         (words (session rand_half working_browser [ChooseFile (Some "a")])) "a"
         (session rand_half working_browser [ChooseFile (Some "a")])) = Some grid /\
    texel grid 0 0 1 = plus_zero /\
    (forall k, fround (rand_half k) <> texel grid 0 0 1).
Proof.
  destruct (session_store_allocated rand_half [ChooseFile (Some "a")])
    as [Hgl [[neuron [Hneuron [Hw Hh]]] _]].
  destruct (processInput_grid rand_half
              (words (session rand_half working_browser [ChooseFile (Some "a")]))
              "a" (session rand_half working_browser [ChooseFile (Some "a")])
              neuron) as [grid [Hgrid [_ [_ [_ Htexels]]]]];
    try assumption.
  - rewrite words_session_a. now left.
  - exists grid. split; [exact Hgrid |].
    pose proof TEXTURE_SIZE_pos as Hpos.
    destruct (Htexels 0 0) as [_ [H1 _]]; [lia | lia |].
    split; [exact H1 |].
    intros k. rewrite H1. unfold rand_half. rewrite fround_half. discriminate.
Qed.

(** What the mount effect would leave on a context with the extension
    enabled: the neuron-state texture is 4096 x 4096 cells and the
    word-data texture is one row of 4096 cells; every channel of every cell
    of both holds the binary32 value nearest to one value drawn from
    [Math.random()], a different draw for each channel; and when every draw
    is a binary64 value in [0, 1), each of these binary32 values lies
    between 0 and 1, both included. *)
Lemma mount_allocates_textures (rand : nat -> float) :
  (forall k, unit_interval (rand k) = true) ->
  TEXTURE_SIZE = 4096 /\
  exists neuron wordData,
    neuronStateTextureRef (session rand working_browser []) = Some neuron /\
    wordDataTextureRef (session rand working_browser []) = Some wordData /\
    tex_width neuron = TEXTURE_SIZE /\ tex_height neuron = TEXTURE_SIZE /\
    tex_width wordData = TEXTURE_SIZE /\ tex_height wordData = 1 /\
    (forall x y c, 0 <= x < TEXTURE_SIZE -> 0 <= y < TEXTURE_SIZE -> 0 <= c < 4 ->
       texel neuron x y c
         = fround (rand (Z.to_nat ((y * TEXTURE_SIZE + x) * 4 + c))) /\
       leb32 plus_zero (texel neuron x y c) = true /\
       leb32 (texel neuron x y c) one32 = true) /\
    (forall x c, 0 <= x < TEXTURE_SIZE -> 0 <= c < 4 ->
       texel wordData x 0 c
         = fround (rand (Z.to_nat (TEXTURE_SIZE * TEXTURE_SIZE * 4)
                         + Z.to_nat (x * 4 + c))%nat) /\
       leb32 plus_zero (texel wordData x 0 c) = true /\
       leb32 (texel wordData x 0 c) one32 = true).
Proof.
  intros Hrand. split; [exact TEXTURE_SIZE_eq |].
  change (session rand working_browser [])
    with (mount rand working_browser initialState).
  destruct (mount_texels rand initialState)
    as [neuron [wordData [H1 [H2 [H3 [H4 [H5 [H6 [Hn Hw]]]]]]]]].
  exists neuron, wordData.
  do 6 (split; [assumption |]).
  split.
  - intros x y c Hx Hy Hc. rewrite (Hn x y c Hx Hy Hc).
    change (randomCalls initialState) with O. rewrite Nat.add_0_l.
    split; [reflexivity | apply fround_unit_interval, Hrand].
  - intros x c Hx Hc. rewrite (Hw x c Hx Hc).
    change (randomCalls initialState) with O. rewrite Nat.add_0_l.
    split; [reflexivity | apply fround_unit_interval, Hrand].
Qed.

(** With every draw equal to 0.5, every channel of the first cell of each
    texture holds 0.5. *)
Lemma mount_allocates_textures_half :
  exists neuron wordData,
    neuronStateTextureRef (session rand_half working_browser []) = Some neuron /\
    wordDataTextureRef (session rand_half working_browser []) = Some wordData /\
    tex_width neuron = 4096 /\ tex_height neuron = 4096 /\
    tex_width wordData = 4096 /\ tex_height wordData = 1 /\
    texel neuron 0 0 0 = fround half /\
    texel wordData 0 0 3 = fround half.
Proof.
  destruct (mount_allocates_textures rand_half) as [Hsize H].
  - intros k. reflexivity.
  - destruct H as [neuron [wordData [H1 [H2 [H3 [H4 [H5 [H6 [Hn Hw]]]]]]]]].
    exists neuron, wordData. rewrite <- Hsize.
    do 6 (split; [assumption |]).
    pose proof TEXTURE_SIZE_pos as Hpos.
    split.
    + destruct (Hn 0 0 0) as [-> _]; [lia | lia | lia | reflexivity].
    + destruct (Hw 0 3) as [-> _]; [lia | lia | reflexivity].
Defined.

(** Even so, the word-data texture has 4096 cells in one row, not one slot
    for each of the 100000 words the registry may hold; and with every draw
    equal to [1 - 2^-53], a value below 1, every channel holds 1, which is
    not below 1. *)
Lemma mount_word_texture_is_one_row_and_holds_one :
  (forall k, unit_interval (rand_below_one k) = true) /\
  exists neuron wordData,
    neuronStateTextureRef (session rand_below_one working_browser []) = Some neuron /\
    wordDataTextureRef (session rand_below_one working_browser []) = Some wordData /\
    tex_width wordData = 4096 /\ tex_height wordData = 1 /\
    tex_width wordData * tex_height wordData < MAX_WORDS /\
    tex_height wordData < MAX_WORDS /\
    texel neuron 0 0 0 = one32 /\
    ltb32 (texel neuron 0 0 0) one32 = false.
Proof.
  split; [intros k; reflexivity |].
  change (session rand_below_one working_browser [])
    with (mount rand_below_one working_browser initialState).
  destruct (mount_texels rand_below_one initialState)
    as [neuron [wordData [H1 [H2 [H3 [H4 [H5 [H6 [Hn Hw]]]]]]]]].
  exists neuron, wordData.
  pose proof TEXTURE_SIZE_pos as Hpos.
  assert (Hone : texel neuron 0 0 0 = one32).
  { rewrite Hn by lia. unfold rand_below_one. apply fround_below_one. }
  split; [exact H1 |]. split; [exact H2 |].
  split; [now rewrite H5, TEXTURE_SIZE_eq |]. split; [exact H6 |].
  split; [rewrite H5, H6, TEXTURE_SIZE_eq, MAX_WORDS_eq; lia |].
  split; [rewrite H6, MAX_WORDS_eq; lia |].
  split; [exact Hone |].
  rewrite Hone. reflexivity.
Qed.

(** ** The uploads of the component on its own context *)

(** C7 fails in the program. Where the mount effect goes through on a
    context without [OES_texture_float] (the component never enables it),
    both [texImage2D] calls are refused: each texture object is there and
    neither has an image (width 0, height 0, no cell), although the
    4096 * 4096 * 4 + 4096 * 4 values have been drawn. *)
Theorem mount_uploads_are_refused (rand : nat -> float) (env : Browser) :
  mount_succeeds env = true ->
  float_textures env = false ->
  glRef (session rand env []) = Some {| OES_texture_float := false |} /\
  neuronStateTextureRef (session rand env []) = Some createAndSetupTexture /\
  wordDataTextureRef (session rand env []) = Some createAndSetupTexture /\
  tex_width createAndSetupTexture = 0 /\
  tex_height createAndSetupTexture = 0 /\
  randomCalls (session rand env [])
  = (Z.to_nat (TEXTURE_SIZE * TEXTURE_SIZE * 4) + Z.to_nat (TEXTURE_SIZE * 4))%nat.
Proof.
  intros Hmount Hfloat.
  rewrite (mount_succeeds_without_float env Hmount Hfloat).
  destruct (session_store_without_images rand []) as [Hgl [Hneuron Hword]].
  destruct (mount_without_float rand initialState) as [_ Hcalls].
  do 3 (split; [assumption |]).
  do 2 (split; [reflexivity |]).
  exact Hcalls.
Qed.

(** The component in a browser that follows WebGL 1, every draw equal to
    0.5. *)
Lemma mount_uploads_are_refused_webgl1 :
  neuronStateTextureRef (session rand_half webgl1_browser [])
    = Some createAndSetupTexture /\
  wordDataTextureRef (session rand_half webgl1_browser [])
    = Some createAndSetupTexture /\
  tex_width createAndSetupTexture = 0 /\
  tex_height createAndSetupTexture = 0.
Proof.
  destruct (mount_uploads_are_refused rand_half webgl1_browser)
    as [_ [Hneuron [Hword [Hw [Hh _]]]]].
  - reflexivity.
  - reflexivity.
  - now repeat split.
Defined.

(** C5 fails in the program. Where the mount effect goes through on a
    context without [OES_texture_float], [processInput] on a word of the
    registry draws its 4096 * 4096 values and its [texSubImage2D] call is
    refused: the neuron-state texture is what it was, a texture object
    without an image. *)
Theorem processInput_upload_is_refused (rand : nat -> float) (env : Browser)
    (evs : list Event) (w : string) :
  mount_succeeds env = true ->
  float_textures env = false ->
  In w (words (session rand env evs)) ->
  neuronStateTextureRef (session rand env evs) = Some createAndSetupTexture /\
  neuronStateTextureRef
    (processInput rand (words (session rand env evs)) w (session rand env evs))
    = Some createAndSetupTexture /\
  randomCalls
    (processInput rand (words (session rand env evs)) w (session rand env evs))
  = (randomCalls (session rand env evs)
     + Z.to_nat (TEXTURE_SIZE * TEXTURE_SIZE))%nat.
Proof.
  intros Hmount Hfloat Hin.
  rewrite (mount_succeeds_without_float env Hmount Hfloat) in *.
  destruct (session_store_without_images rand evs) as [Hgl [Hneuron _]].
  split; [exact Hneuron |].
  exact (processInput_no_float rand _ w _ _ _ Hin Hgl eq_refl Hneuron).
Qed.

(** A session with the word [a] in a browser that follows WebGL 1: after
    [a] is processed the grid still has no image. *)
Lemma processInput_upload_is_refused_a :
  neuronStateTextureRef
    (processInput rand_half
       (words (session rand_half webgl1_browser [ChooseFile (Some "a")])) "a"
       (session rand_half webgl1_browser [ChooseFile (Some "a")]))
    = Some createAndSetupTexture /\
  randomCalls
    (processInput rand_half
       (words (session rand_half webgl1_browser [ChooseFile (Some "a")])) "a"
       (session rand_half webgl1_browser [ChooseFile (Some "a")]))
  = (randomCalls (session rand_half webgl1_browser [ChooseFile (Some "a")])
     + Z.to_nat (TEXTURE_SIZE * TEXTURE_SIZE))%nat.
Proof.
  destruct (processInput_upload_is_refused rand_half webgl1_browser
              [ChooseFile (Some "a")] "a") as [_ [Hgrid Hcalls]].
  - reflexivity.
  - reflexivity.
  - rewrite words_session. vm_compute. now left.
  - split; [exact Hgrid | exact Hcalls].
Defined.

(** ** Adding words one by one *)

Lemma session_snoc (rand : nat -> float) (env : Browser) (evs : list Event)
    (ev : Event) :
  session rand env (evs ++ [ev]) = step rand (session rand env evs) ev.
Proof. unfold session, run. now rewrite fold_left_app. Qed.

Lemma wordDataTextureRef_handleAddWord (ws : list string) (nw : string) (st : State) :
  wordDataTextureRef (handleAddWord ws nw st)
  = if negb (nw =? "")%string && negb (includes ws nw)
    then wordDataTextureRef (addWord ws nw st)
    else wordDataTextureRef st.
Proof.
  unfold handleAddWord.
  destruct (negb (nw =? "")%string && negb (includes ws nw)); reflexivity.
Qed.

(** Once the registry holds a word, "Add Word" leaves the word-data texture
    as it was. *)
Lemma click_add_word_upload_rejected (rand : nat -> float) (st : State) :
  store_allocated st -> 1 <= len (words st) ->
  wordDataTextureRef (step rand st ClickAddWord) = wordDataTextureRef st.
Proof.
  intros Halloc Hlen. simpl step. rewrite wordDataTextureRef_handleAddWord.
  destruct (negb (newWord st =? "")%string && negb (includes (words st) (newWord st)));
    [| reflexivity].
  now apply addWord_upload_rejected.
Qed.

Lemma session_snoc2 (rand : nat -> float) (env : Browser) (evs : list Event)
    (ev1 ev2 : Event) :
  session rand env (evs ++ [ev1; ev2])
  = step rand (step rand (session rand env evs) ev1) ev2.
Proof. unfold session, run. now rewrite fold_left_app. Qed.

(** The first word typed and added goes to row 0 of the word-data texture,
    and fills it. *)
Lemma type_and_add_first_word (rand : nat -> float) (st : State) (w : string) :
  store_allocated st -> words st = [] -> w <> "" ->
  exists wordData,
    wordDataTextureRef (step rand (step rand st (TypeNewWord w)) ClickAddWord)
      = Some wordData /\
    tex_width wordData = TEXTURE_SIZE /\ tex_height wordData = 1 /\
    (forall x, 0 <= x < str_length w -> x < TEXTURE_SIZE ->
       texel wordData x 0 0 = fround (div (charCodeAt w x) (Number 255))) /\
    (forall x c, 0 <= x < TEXTURE_SIZE -> 0 <= c < 4 ->
       (0 < c \/ str_length w <= x) -> texel wordData x 0 c = plus_zero).
Proof.
  intros Halloc Hwords Hne.
  assert (Halloc' : store_allocated (step rand st (TypeNewWord w)))
    by now apply step_store_allocated.
  simpl step. rewrite wordDataTextureRef_handleAddWord.
  change (words (setNewWord w st)) with (words st).
  change (newWord (setNewWord w st)) with w.
  rewrite Hwords.
  replace (w =? "")%string with false by (symmetry; now apply String.eqb_neq).
  simpl negb. simpl andb. cbv iota.
  exact (addWord_first_upload w (setNewWord w st) Halloc').
Qed.

(** A word typed and added when the registry holds a word already leaves
    the word-data texture as it was. *)
Lemma type_and_add_later_word (rand : nat -> float) (st : State) (w : string) :
  store_allocated st -> 1 <= len (words st) ->
  wordDataTextureRef (step rand (step rand st (TypeNewWord w)) ClickAddWord)
  = wordDataTextureRef st.
Proof.
  intros Halloc Hlen.
  rewrite click_add_word_upload_rejected.
  - reflexivity.
  - now apply step_store_allocated.
  - exact Hlen.
Qed.

(** C6 at the second word. In a working browser, after [a] and then [b] are
    added through the form, the registry is [a, b], [b] has insertion index
    1, and the word-data texture is what it was before [b] was added: one
    row, whose first cell holds the code of [a] (97) over 255 in channel 0.
    The code of [b] (98) over 255 is another value; it was written
    nowhere. In a browser that follows WebGL 1, where the context has no
    extension enabled, the same events leave the same registry and a
    word-data texture without an image: neither encoding was written. *)
Lemma second_word_is_not_uploaded :
  words (session rand_zero working_browser
           [TypeNewWord "a"; ClickAddWord; TypeNewWord "b"; ClickAddWord])
    = ["a"; "b"] /\
  wordDataTextureRef
    (session rand_zero working_browser
       [TypeNewWord "a"; ClickAddWord; TypeNewWord "b"; ClickAddWord])
    = wordDataTextureRef
        (session rand_zero working_browser [TypeNewWord "a"; ClickAddWord]) /\
  (exists wordData,
     wordDataTextureRef
       (session rand_zero working_browser
          [TypeNewWord "a"; ClickAddWord; TypeNewWord "b"; ClickAddWord])
       = Some wordData /\
     tex_height wordData = 1 /\
     texel wordData 0 0 0 = fround (div (Number 97) (Number 255))) /\
  fround (div (Number 98) (Number 255)) <> fround (div (Number 97) (Number 255)) /\
  words (session rand_zero webgl1_browser
           [TypeNewWord "a"; ClickAddWord; TypeNewWord "b"; ClickAddWord])
    = ["a"; "b"] /\
  wordDataTextureRef
    (session rand_zero webgl1_browser
       [TypeNewWord "a"; ClickAddWord; TypeNewWord "b"; ClickAddWord])
    = Some createAndSetupTexture /\
  tex_height createAndSetupTexture = 0.
Proof.
  assert (Hsecond :
    wordDataTextureRef
      (session rand_zero working_browser
         ([TypeNewWord "a"; ClickAddWord] ++ [TypeNewWord "b"; ClickAddWord]))
    = wordDataTextureRef
        (session rand_zero working_browser [TypeNewWord "a"; ClickAddWord])).
  { rewrite session_snoc2. apply type_and_add_later_word.
    - apply session_store_allocated.
    - rewrite words_session. vm_compute. discriminate. }
  assert (Hfirst :
    exists wordData,
      wordDataTextureRef
        (session rand_zero working_browser ([] ++ [TypeNewWord "a"; ClickAddWord]))
        = Some wordData /\
      tex_height wordData = 1 /\
      texel wordData 0 0 0 = fround (div (Number 97) (Number 255))).
  { rewrite session_snoc2.
    destruct (type_and_add_first_word rand_zero
                (session rand_zero working_browser []) "a")
      as [wordData [Href [_ [Hh [Hchar _]]]]].
    - apply session_store_allocated.
    - now rewrite words_session.
    - discriminate.
    - exists wordData. split; [exact Href |]. split; [exact Hh |].
      pose proof TEXTURE_SIZE_pos as Hpos.
      rewrite Hchar; [reflexivity | | exact Hpos].
      vm_compute. split; [discriminate | reflexivity]. }
  split; [rewrite words_session; vm_compute; reflexivity |].
  split; [exact Hsecond |].
  split.
  - destruct Hfirst as [wordData [Href [Hh Hchar]]].
    exists wordData. split; [| split; assumption].
    change [TypeNewWord "a"; ClickAddWord; TypeNewWord "b"; ClickAddWord]
      with ([TypeNewWord "a"; ClickAddWord] ++ [TypeNewWord "b"; ClickAddWord]).
    rewrite Hsecond. exact Href.
  - split; [vm_compute; discriminate |].
    split; [rewrite words_session; vm_compute; reflexivity |].
    split; [| reflexivity].
    apply (session_store_without_images rand_zero).
Qed.

(** ** Repeated words and capitals *)

(** C4 at a text that repeats a word. The upload of the text [a a] into the
    empty registry of a fresh session calls [addWord] on [a] twice in
    succession, both times through the callback created over the empty
    registry, and leaves the registry [a, a]: two words, where one call
    leaves one. *)
Lemma addWord_twice_in_one_upload :
  wordsFromFile "a a" = ["a"; "a"] /\
  words (session rand_zero working_browser [ChooseFile (Some "a a")]) = ["a"; "a"] /\
  words (addWord [] "a" initialState) = ["a"] /\
  words (addWord [] "a" (addWord [] "a" initialState)) = ["a"; "a"].
Proof.
  split; [vm_compute; reflexivity |].
  split; [rewrite words_session; vm_compute; reflexivity |].
  split; vm_compute; reflexivity.
Qed.


(** C8 at two sessions. The upload of [the cat the dog] leaves [the] in the
    registry twice; and [Hello], added through the form, is stored with its
    capital, though its lower case is [hello]. *)
Lemma registry_keeps_duplicates_and_capitals :
  words (session rand_zero working_browser [ChooseFile (Some "the cat the dog")])
    = ["the"; "cat"; "the"; "dog"] /\
  words (session rand_zero working_browser [TypeNewWord "Hello"; ClickAddWord])
    = ["Hello"] /\
  toLowerCase "Hello" = "hello".
Proof.
  split; [rewrite words_session; vm_compute; reflexivity |].
  split; [rewrite words_session; vm_compute; reflexivity |].
  reflexivity.
Qed.

(** * Further properties *)

Lemma step_appends (rand : nat -> float) (st : State) (ev : Event) :
  exists added, words (step rand st ev) = words st ++ added.
Proof.
  rewrite words_step. destruct ev as [s | | [text |] | s |];
    try (exists []; now rewrite app_nil_r).
  - destruct (negb (newWord st =? "")%string && accepts (words st) (newWord st)).
    + now exists [newWord st].
    + exists []. now rewrite app_nil_r.
  - eexists. reflexivity.
Qed.

Lemma run_appends (rand : nat -> float) (evs : list Event) (st : State) :
  exists added, words (run rand st evs) = words st ++ added.
Proof.
  revert st. induction evs as [|ev rest IH]; intros st.
  - exists []. now rewrite app_nil_r.
  - rewrite run_cons. destruct (IH (step rand st ev)) as [l2 H2].
    destruct (step_appends rand st ev) as [l1 H1].
    exists (l1 ++ l2). now rewrite H2, H1, app_assoc.
Qed.

(** X1. The registry only grows, and only at its end: whatever a session
    goes on to do, the registry it had is a prefix of the registry it gets,
    so every word stays at the index it was inserted at. *)
Theorem registry_is_append_only (rand : nat -> float) (env : Browser)
    (evs more : list Event) :
  exists added,
    words (session rand env (evs ++ more)) = words (session rand env evs) ++ added /\
    forall i, (i < List.length (words (session rand env evs)))%nat ->
      nth_error (words (session rand env (evs ++ more))) i
      = nth_error (words (session rand env evs)) i.
Proof.
  assert (Hsplit : session rand env (evs ++ more)
                   = run rand (session rand env evs) more).
  { unfold session, run. now rewrite fold_left_app. }
  rewrite Hsplit.
  destruct (run_appends rand more (session rand env evs)) as [added Hadded].
  exists added. split; [exact Hadded |].
  intros i Hi. rewrite Hadded. now apply nth_error_app1.
Qed.

(** X2. [addWord] called again after a render, that is through a callback
    created over the registry the first call left, changes nothing. *)
Theorem addWord_after_render_is_idempotent (st : State) (w : string) :
  addWord (words (addWord (words st) w st)) w (addWord (words st) w st)
  = addWord (words st) w st.
Proof.
  apply addWord_rejects. rewrite words_addWord.
  destruct (accepts (words st) w) eqn:Hacc.
  - unfold accepts.
    replace (includes (words st ++ [w]) w) with true; [reflexivity |].
    symmetry. apply includes_true_iff, in_or_app. right. now left.
  - exact Hacc.
Qed.

(** ** The tokens of a text *)

Lemma all_chars_app (f : ascii -> bool) (a b : string) :
  all_chars f (a ++ b) = all_chars f a && all_chars f b.
Proof.
  induction a as [|c a IH]; simpl; [reflexivity |].
  rewrite IH. now rewrite andb_assoc.
Qed.

(** A word character of a lower-cased text is one of [a-z0-9_]: lower-casing
    it again changes nothing. *)
Lemma lower_char_word_fixed (c : ascii) :
  is_word_char (lower_char c) = true ->
  Ascii.eqb (lower_char (lower_char c)) (lower_char c) = true.
Proof.
  destruct c as [b0 b1 b2 b3 b4 b5 b6 b7].
  destruct b0, b1, b2, b3, b4, b5, b6, b7; vm_compute; intros H;
    first [reflexivity | discriminate H].
Qed.

(** Lower-casing makes no word character out of another character. *)
Lemma lower_char_not_word (c : ascii) :
  is_word_char c = false -> is_word_char (lower_char c) = false.
Proof.
  destruct c as [b0 b1 b2 b3 b4 b5 b6 b7].
  destruct b0, b1, b2, b3, b4, b5, b6, b7; vm_compute; intros H;
    first [reflexivity | discriminate H].
Qed.

Lemma match_words_from_plain (text cur : string) :
  all_chars (fun c => is_word_char c && Ascii.eqb (lower_char c) c) cur = true ->
  forallb plain_word (match_words_from (toLowerCase text) cur) = true.
Proof.
  revert cur. induction text as [|c text IH]; intros cur Hcur; simpl.
  - destruct (String.eqb_spec cur "") as [-> | Hne]; [reflexivity |].
    simpl. rewrite andb_true_r. unfold plain_word. rewrite Hcur.
    now replace (cur =? "")%string with false
      by (symmetry; now apply String.eqb_neq).
  - destruct (is_word_char (lower_char c)) eqn:Hword.
    + apply IH. rewrite all_chars_app, Hcur. simpl.
      now rewrite Hword, lower_char_word_fixed.
    + rewrite forallb_app. rewrite (IH "") by reflexivity. rewrite andb_true_r.
      destruct (String.eqb_spec cur "") as [-> | Hne]; [reflexivity |].
      simpl. rewrite andb_true_r. unfold plain_word. rewrite Hcur.
      now replace (cur =? "")%string with false
        by (symmetry; now apply String.eqb_neq).
Qed.

Lemma tokens_are_lower_case_words_aux (text : string) :
  Forall (fun t => t <> "") (wordsFromFile text).
Proof.
  apply Forall_forall. intros t Hin.
  assert (H : forallb plain_word (wordsFromFile text) = true)
    by (apply match_words_from_plain; reflexivity).
  rewrite forallb_forall in H. now apply plain_word_parts, H.
Qed.

(** A word character that lower-casing keeps is a small letter, a digit or
    the underscore. *)
Lemma plain_char_is_small (c : ascii) :
  is_word_char c && Ascii.eqb (lower_char c) c = true ->
  is_small_word_char c = true.
Proof.
  destruct c as [b0 b1 b2 b3 b4 b5 b6 b7].
  destruct b0, b1, b2, b3, b4, b5, b6, b7; vm_compute; intros H;
    first [reflexivity | discriminate H].
Qed.

Lemma all_chars_impl (f g : ascii -> bool) (s : string) :
  (forall c, f c = true -> g c = true) ->
  all_chars f s = true -> all_chars g s = true.
Proof.
  intros Himpl. induction s as [|c s IH]; simpl; [reflexivity |].
  intros H. apply andb_true_iff in H. destruct H as [Hc Hs].
  now rewrite (Himpl c Hc), IH.
Qed.

(** X4. Every token an upload reads from a text, whatever the text (of code
    units below 256), is non-empty and made of small letters [a-z], digits
    and underscores only: it holds no capital letter. *)
Theorem tokens_are_lower_case_words (text : string) :
  Forall (fun t => t <> "" /\ all_chars is_small_word_char t = true)
         (wordsFromFile text).
Proof.
  apply Forall_forall. intros t Hin.
  assert (H : forallb plain_word (wordsFromFile text) = true)
    by (apply match_words_from_plain; reflexivity).
  rewrite forallb_forall in H. specialize (H t Hin).
  unfold plain_word in H. apply andb_true_iff in H. destruct H as [Hne Hplain].
  split.
  - intros ->. discriminate Hne.
  - exact (all_chars_impl _ _ t plain_char_is_small Hplain).
Qed.

(** The tokens of [Hello, World_2!] are [hello] and [world_2]. *)
Lemma tokens_are_lower_case_words_hello :
  wordsFromFile "Hello, World_2!" = ["hello"; "world_2"] /\
  Forall (fun t => t <> "" /\ all_chars is_small_word_char t = true)
         (wordsFromFile "Hello, World_2!").
Proof.
  split; [reflexivity |].
  apply (tokens_are_lower_case_words "Hello, World_2!").
Defined.

Lemma match_words_from_separator (s1 s2 cur : string) (c : ascii) :
  is_word_char c = false ->
  match_words_from (s1 ++ String c s2) cur
  = match_words_from s1 cur ++ match_words_from s2 "".
Proof.
  intros Hc. revert cur. induction s1 as [|d s1 IH]; intros cur; simpl.
  - now rewrite Hc.
  - destruct (is_word_char d).
    + apply IH.
    + now rewrite IH, app_assoc.
Qed.

(** X5. For texts of code units below 256: the tokens of two texts joined
    by a character that is no word character are the tokens of the first
    followed by the tokens of the second. (In that range lower-casing makes
    no word character out of another character; beyond it, it does: the
    Kelvin sign U+212A becomes [k].) *)
Theorem tokens_of_separated_texts (t1 t2 : string) (c : ascii) :
  is_word_char c = false ->
  wordsFromFile (t1 ++ String c t2) = wordsFromFile t1 ++ wordsFromFile t2.
Proof.
  intros Hc. unfold wordsFromFile, match_words.
  rewrite toLowerCase_app. simpl toLowerCase.
  apply match_words_from_separator. now apply lower_char_not_word.
Qed.

(** Two lines of text: the tokens of both, in order. *)
Lemma tokens_of_separated_texts_lines :
  wordsFromFile ("Red fish" ++ String "010"%char "blue FISH")
  = ["red"; "fish"; "blue"; "fish"].
Proof.
  rewrite (tokens_of_separated_texts "Red fish" "blue FISH" "010"%char).
  - reflexivity.
  - reflexivity.
Defined.

(** X6. A list of non-empty lower-case words of word characters, written
    out with a space after each, is read back as the same list. *)
Theorem tokens_of_joined_words (ws : list string) :
  forallb plain_word ws = true -> wordsFromFile (join_words ws) = ws.
Proof.
  unfold wordsFromFile, match_words.
  induction ws as [|w rest IH]; intros H; simpl.
  - reflexivity.
  - simpl in H. apply andb_true_iff in H. destruct H as [Hw Hrest].
    destruct (plain_word_parts w Hw) as [Hne [Hword Hlow]].
    rewrite toLowerCase_app, Hlow, match_words_from_run by exact Hword.
    simpl.
    destruct (String.eqb_spec w "") as [-> | _]; [congruence |].
    simpl. now rewrite IH.
Qed.

Lemma tokens_of_joined_words_sample :
  wordsFromFile (join_words ["word_1"; "x2"; "word_1"]) = ["word_1"; "x2"; "word_1"].
Proof.
  apply (tokens_of_joined_words ["word_1"; "x2"; "word_1"]). reflexivity.
Defined.

(** ** What the registry holds *)

Lemma In_firstn_le (l : list string) (n m : nat) (x : string) :
  (n <= m)%nat -> In x (firstn n l) -> In x (firstn m l).
Proof.
  revert n m. induction l as [|y rest IH]; intros n m Hle Hin.
  - now rewrite firstn_nil in *.
  - destruct n as [|n]; [contradiction |].
    destruct m as [|m]; [lia |].
    simpl in *. destruct Hin as [-> | Hin]; [now left | right].
    apply (IH n m); [lia | exact Hin].
Qed.

Lemma In_firstn (l : list string) (n : nat) (x : string) :
  In x (firstn n l) -> In x l.
Proof.
  intros Hin. rewrite <- (firstn_all l).
  destruct (Nat.le_ge_cases n (List.length l)) as [Hle | Hge].
  - now apply (In_firstn_le l n (List.length l)).
  - rewrite firstn_all2 in Hin by exact Hge. now rewrite firstn_all.
Qed.

Lemma step_keeps_words_non_empty (rand : nat -> float) (st : State) (ev : Event) :
  Forall (fun w => w <> "") (words st) ->
  Forall (fun w => w <> "") (words (step rand st ev)).
Proof.
  intros Hold. rewrite words_step.
  destruct ev as [s | | [text |] | s |]; try exact Hold.
  - destruct (negb (newWord st =? "")%string) eqn:Hnw; simpl; [| exact Hold].
    destruct (accepts (words st) (newWord st)); [| exact Hold].
    apply Forall_app. split; [exact Hold |].
    constructor; [| constructor].
    apply negb_true_iff in Hnw. now apply String.eqb_neq.
  - apply Forall_app. split; [exact Hold |].
    apply Forall_forall. intros t Hin.
    apply filter_In in Hin. destruct Hin as [Hin _].
    apply In_firstn in Hin.
    pose proof (tokens_are_lower_case_words_aux text) as Htok.
    rewrite Forall_forall in Htok. now apply Htok.
Qed.

(** X7. The registry never holds the empty word: "Add Word" asks for a
    non-empty field, and the tokens of a text are non-empty. *)
Theorem registry_has_no_empty_word (rand : nat -> float) (env : Browser)
    (evs : list Event) :
  Forall (fun w => w <> "") (words (session rand env evs)).
Proof.
  unfold session.
  assert (Hmount : Forall (fun w => w <> "") (words (mount rand env initialState)))
    by (rewrite words_mount; constructor).
  revert Hmount. generalize (mount rand env initialState).
  induction evs as [|ev rest IH]; intros st Hst.
  - exact Hst.
  - rewrite run_cons. apply IH. now apply step_keeps_words_non_empty.
Qed.

Lemma accepts_later (ws added : list string) (x : string) :
  accepts ws x = false -> accepts (ws ++ added) x = false.
Proof.
  unfold accepts. intros H.
  apply andb_false_iff in H. apply andb_false_iff.
  destruct H as [H | H].
  - left. apply negb_false_iff in H. apply negb_false_iff.
    apply includes_true_iff. apply includes_true_iff in H.
    apply in_or_app. now left.
  - right. apply Z.ltb_ge in H. apply Z.ltb_ge.
    rewrite len_app. pose proof (len_nonneg added). lia.
Qed.

Lemma filter_none (f : string -> bool) (l : list string) :
  (forall x, In x l -> f x = false) -> filter f l = [].
Proof.
  induction l as [|y rest IH]; intros H; simpl; [reflexivity |].
  rewrite (H y) by now left. apply IH. intros x Hx. apply H. now right.
Qed.

(** X8. The same file chosen twice in a row: the second upload leaves the
    registry as the first left it, whatever the text and the registry. *)
Theorem upload_twice_adds_nothing (rand : nat -> float) (st : State) (text : string) :
  words (step rand (step rand st (ChooseFile (Some text))) (ChooseFile (Some text)))
  = words (step rand st (ChooseFile (Some text))).
Proof.
  rewrite (words_step rand (step rand st (ChooseFile (Some text)))).
  rewrite (words_step rand st). cbv iota.
  set (W := words st).
  set (F := firstn (Z.to_nat (totalWords W text)) (wordsFromFile text)).
  set (A := filter (accepts W) F).
  rewrite filter_none; [apply app_nil_r |].
  intros x Hx.
  assert (Hle : (Z.to_nat (totalWords (W ++ A) text)
                 <= Z.to_nat (totalWords W text))%nat).
  { unfold totalWords. rewrite len_app. pose proof (len_nonneg A). lia. }
  apply (In_firstn_le _ _ _ _ Hle) in Hx. fold F in Hx.
  destruct (accepts W x) eqn:Hacc.
  - unfold accepts. replace (includes (W ++ A) x) with true; [reflexivity |].
    symmetry. apply includes_true_iff, in_or_app. right.
    apply filter_In. now split.
  - now apply accepts_later.
Qed.

Lemma step_keeps_NoDup (rand : nat -> float) (st : State) (ev : Event) :
  no_repeated_token ev -> NoDup (words st) -> NoDup (words (step rand st ev)).
Proof.
  intros Hev Hnd. rewrite words_step.
  destruct ev as [s | | [text |] | s |]; try exact Hnd.
  - destruct (negb (newWord st =? "")%string); simpl; [| exact Hnd].
    destruct (accepts (words st) (newWord st)) eqn:Hacc; [| exact Hnd].
    apply NoDup_app; [exact Hnd | repeat constructor; intros [] |].
    intros a Ha [<- | []].
    unfold accepts in Hacc. apply andb_true_iff in Hacc. destruct Hacc as [Hinc _].
    apply negb_true_iff in Hinc. now apply includes_false_iff in Hinc.
  - simpl in Hev. apply NoDup_app; [exact Hnd | |].
    + apply NoDup_filter.
      rewrite <- (firstn_skipn (Z.to_nat (totalWords (words st) text))
                    (wordsFromFile text)) in Hev.
      now apply NoDup_app_remove_r in Hev.
    + intros a Ha Hin. apply filter_In in Hin. destruct Hin as [_ Hacc].
      unfold accepts in Hacc. apply andb_true_iff in Hacc. destruct Hacc as [Hinc _].
      apply negb_true_iff in Hinc. now apply includes_false_iff in Hinc.
Qed.

Lemma session_without_repeats (rand : nat -> float) (env : Browser)
    (evs : list Event) :
  Forall no_repeated_token evs -> NoDup (words (session rand env evs)).
Proof.
  unfold session.
  assert (Hmount : NoDup (words (mount rand env initialState)))
    by (rewrite words_mount; constructor).
  revert Hmount. generalize (mount rand env initialState).
  induction evs as [|ev rest IH]; intros st Hst Hall.
  - exact Hst.
  - rewrite run_cons. inversion Hall as [| ? ? Hev Hrest]; subst.
    apply IH; [now apply step_keeps_NoDup | exact Hrest].
Qed.

(** X9. A run in which each upload ends before the next event (after a
    file is chosen nothing happens but the resumptions of that upload), and
    in which no uploaded text repeats a token, keeps the registry free of
    repeated words: "Add Word" never adds a word the registry holds, and
    such an upload never adds one the registry held when it began. *)
Theorem registry_without_repeats (rand : nat -> float) (env : Browser)
    (evs : list Event) :
  Forall no_repeated_token evs ->
  NoDup (words (app (play rand (mounted rand env) (uninterrupted ([], "") evs)))).
Proof.
  intros Hall. rewrite sessions_are_uninterrupted_runs. cbn [app].
  now apply session_without_repeats.
Qed.

(** Two uploads that share a word, and the same word typed and added: the
    registry holds each word once. *)
Lemma registry_without_repeats_sample :
  NoDup (words (app (play rand_zero (mounted rand_zero webgl1_browser)
                       (uninterrupted ([], "")
                          [ChooseFile (Some "a b"); ChooseFile (Some "b c");
                           TypeNewWord "c"; ClickAddWord])))) /\
  words (app (play rand_zero (mounted rand_zero webgl1_browser)
                (uninterrupted ([], "")
                   [ChooseFile (Some "a b"); ChooseFile (Some "b c");
                    TypeNewWord "c"; ClickAddWord]))) = ["a"; "b"; "c"].
Proof.
  split.
  - apply (registry_without_repeats rand_zero webgl1_browser).
    repeat constructor; simpl; intuition discriminate.
  - rewrite sessions_are_uninterrupted_runs. cbn [app].
    rewrite words_session. vm_compute. reflexivity.
Defined.

(** ** What the user sees does not depend on WebGL *)

Lemma addWord_keeps_fields (ws : list string) (w : string) (st : State) :
  inputWord (addWord ws w st) = inputWord st /\
  outputWord (addWord ws w st) = outputWord st /\
  isProcessing (addWord ws w st) = isProcessing st.
Proof.
  unfold addWord.
  destruct (negb (includes ws w) && (len ws <? MAX_WORDS)); [| now repeat split].
  simpl glRef. simpl wordDataTextureRef.
  destruct (glRef st); [| now repeat split].
  destruct (wordDataTextureRef st); now repeat split.
Qed.

Lemma fold_addWord_keeps_fields (ws toks : list string) (st : State) :
  inputWord (fold_left (fun st w => addWord ws w st) toks st) = inputWord st /\
  outputWord (fold_left (fun st w => addWord ws w st) toks st) = outputWord st /\
  isProcessing (fold_left (fun st w => addWord ws w st) toks st) = isProcessing st.
Proof.
  revert st. induction toks as [|t rest IH]; intros st; simpl.
  - now repeat split.
  - destruct (IH (addWord ws t st)) as [H1 [H2 H3]].
    destruct (addWord_keeps_fields ws t st) as [G1 [G2 G3]].
    rewrite H1, H2, H3, G1, G2, G3. now repeat split.
Qed.

Lemma handleFileUpload_keeps_fields (ws : list string) (file : option string)
    (st : State) :
  inputWord (handleFileUpload ws file st) = inputWord st /\
  outputWord (handleFileUpload ws file st) = outputWord st /\
  isProcessing (handleFileUpload ws file st) = false.
Proof.
  destruct file as [text |]; [| now repeat split].
  rewrite handleFileUpload_fold.
  destruct (fold_addWord_keeps_fields ws
              (firstn (Z.to_nat (totalWords ws text)) (wordsFromFile text))
              (setIsProcessing true st)) as [H1 [H2 _]].
  repeat split; [exact H1 | exact H2].
Qed.

Lemma handleAddWord_keeps_fields (ws : list string) (nw : string) (st : State) :
  inputWord (handleAddWord ws nw st) = inputWord st /\
  outputWord (handleAddWord ws nw st) = outputWord st /\
  isProcessing (handleAddWord ws nw st) = isProcessing st.
Proof.
  unfold handleAddWord.
  destruct (negb (nw =? "")%string && negb (includes ws nw)); [| now repeat split].
  exact (addWord_keeps_fields ws nw st).
Qed.

Lemma processInput_keeps_fields (rand : nat -> float) (ws : list string)
    (w : string) (st : State) :
  inputWord (processInput rand ws w st) = inputWord st /\
  isProcessing (processInput rand ws w st) = isProcessing st /\
  error (processInput rand ws w st) = error st.
Proof.
  unfold processInput.
  destruct (indexOf ws w =? -1); [now repeat split |].
  destruct (glRef st); [| now repeat split].
  destruct (neuronStateTextureRef st); now repeat split.
Qed.

Lemma visible_mount (rand : nat -> float) (env : Browser) (st : State) :
  visible (mount rand env st) = visible st.
Proof.
  unfold mount.
  destruct (has_canvas env); [| reflexivity].
  destruct (has_webgl env); [| reflexivity].
  destruct (shaders_compile env); [| reflexivity].
  destruct (program_links env); reflexivity.
Qed.

Lemma visible_step (rand1 rand2 : nat -> float) (st1 st2 : State) (ev : Event) :
  visible st1 = visible st2 ->
  visible (step rand1 st1 ev) = visible (step rand2 st2 ev).
Proof.
  unfold visible. intros H. inversion H as [[Hw Hn Hi Ho]].
  pose proof (registry_step_correct rand1 st1 ev) as R1.
  pose proof (registry_step_correct rand2 st2 ev) as R2.
  rewrite Hw, Hn in R1. rewrite <- R2 in R1. inversion R1 as [[Rw Rn]].
  rewrite Rw, Rn. f_equal; [f_equal |].
  - destruct ev as [s | | file | s |]; simpl step.
    + exact Hi.
    + destruct (handleAddWord_keeps_fields (words st1) (newWord st1) st1) as [-> _].
      destruct (handleAddWord_keeps_fields (words st2) (newWord st2) st2) as [-> _].
      exact Hi.
    + destruct (handleFileUpload_keeps_fields (words st1) file st1) as [-> _].
      destruct (handleFileUpload_keeps_fields (words st2) file st2) as [-> _].
      exact Hi.
    + reflexivity.
    + destruct (processInput_keeps_fields rand1 (words st1) (inputWord st1) st1)
        as [-> _].
      destruct (processInput_keeps_fields rand2 (words st2) (inputWord st2) st2)
        as [-> _].
      exact Hi.
  - destruct ev as [s | | file | s |]; simpl step.
    + exact Ho.
    + destruct (handleAddWord_keeps_fields (words st1) (newWord st1) st1)
        as [_ [-> _]].
      destruct (handleAddWord_keeps_fields (words st2) (newWord st2) st2)
        as [_ [-> _]].
      exact Ho.
    + destruct (handleFileUpload_keeps_fields (words st1) file st1) as [_ [-> _]].
      destruct (handleFileUpload_keeps_fields (words st2) file st2) as [_ [-> _]].
      exact Ho.
    + exact Ho.
    + rewrite !outputWord_processInput. now rewrite Hw, Hi.
Qed.

(** X10. The registry, the two text fields and the output word at the end
    of a session depend on the events alone: they are the same in a browser
    with WebGL and in one without, and the same for every stream of random
    values. *)
Theorem visible_state_ignores_webgl (rand1 rand2 : nat -> float)
    (env1 env2 : Browser) (evs : list Event) :
  visible (session rand1 env1 evs) = visible (session rand2 env2 evs).
Proof.
  unfold session.
  assert (Hmount : visible (mount rand1 env1 initialState)
                   = visible (mount rand2 env2 initialState))
    by now rewrite !visible_mount.
  revert Hmount.
  generalize (mount rand1 env1 initialState) (mount rand2 env2 initialState).
  induction evs as [|ev rest IH]; intros st1 st2 H.
  - exact H.
  - rewrite !run_cons. apply IH. now apply visible_step.
Qed.

(** ** Errors and edge cases of the form and of the file input *)

(** The registry and the "new word" field at the end of a session are
    computed from the events alone. *)
Lemma registry_session (rand : nat -> float) (env : Browser) (evs : list Event) :
  (words (session rand env evs), newWord (session rand env evs))
  = fold_left registry_step evs ([], "").
Proof.
  unfold session. rewrite registry_run. f_equal. f_equal.
  - apply words_mount.
  - unfold mount.
    destruct (has_canvas env); [| reflexivity].
    destruct (has_webgl env); [| reflexivity].
    destruct (shaders_compile env); [| reflexivity].
    destruct (program_links env); reflexivity.
Qed.

Lemma step_ends_processing (rand : nat -> float) (st : State) (ev : Event) :
  isProcessing st = false -> isProcessing (step rand st ev) = false.
Proof.
  intros H. destruct ev as [s | | file | s |]; simpl step.
  - exact H.
  - destruct (handleAddWord_keeps_fields (words st) (newWord st) st) as [_ [_ ->]].
    exact H.
  - now destruct (handleFileUpload_keeps_fields (words st) file st) as [_ [_ ->]].
  - exact H.
  - destruct (processInput_keeps_fields rand (words st) (inputWord st) st)
      as [_ [-> _]].
    exact H.
Qed.

Lemma session_ends_processing (rand : nat -> float) (env : Browser)
    (evs : list Event) :
  isProcessing (session rand env evs) = false.
Proof.
  unfold session.
  assert (Hmount : isProcessing (mount rand env initialState) = false).
  { unfold mount.
    destruct (has_canvas env); [| reflexivity].
    destruct (has_webgl env); [| reflexivity].
    destruct (shaders_compile env); [| reflexivity].
    destruct (program_links env); reflexivity. }
  revert Hmount. generalize (mount rand env initialState).
  induction evs as [|ev rest IH]; intros st Hst.
  - exact Hst.
  - rewrite run_cons. apply IH. now apply step_ends_processing.
Qed.

Lemma failed_read_sets_error_only (st : State) :
  isProcessing st = false ->
  handleFileUpload (words st) None st
  = setError (Some "Error reading file. Please try again.") st.
Proof.
  destruct st. simpl. intros ->. reflexivity.
Qed.

(** X11. At the end of every session the progress bar is hidden
    ([isProcessing] is false), and a file that cannot be read then changes
    nothing but the error message: the registry, the fields, the output
    word, the textures and the count of random draws stay as they were. *)
Theorem failed_upload_changes_error_only (rand : nat -> float) (env : Browser)
    (evs : list Event) :
  isProcessing (session rand env evs) = false /\
  step rand (session rand env evs) (ChooseFile None)
  = setError (Some "Error reading file. Please try again.") (session rand env evs).
Proof.
  split; [apply session_ends_processing |].
  rewrite step_ChooseFile.
  apply failed_read_sets_error_only, session_ends_processing.
Qed.

(** X12. "Add Word" with an empty field, or with a word the registry
    holds, changes nothing at all: not the registry, and not the field
    either. *)
Theorem add_word_refused_changes_nothing (rand : nat -> float) (st : State) :
  newWord st = "" \/ In (newWord st) (words st) ->
  step rand st ClickAddWord = st.
Proof.
  intros H. simpl step. unfold handleAddWord.
  replace (negb (newWord st =? "")%string
           && negb (includes (words st) (newWord st))) with false; [reflexivity |].
  symmetry. apply andb_false_iff.
  destruct H as [-> | Hin].
  - now left.
  - right. apply negb_false_iff. now apply includes_true_iff.
Qed.

(** [b] typed and added when the registry holds [a] and [b]. *)
Lemma add_word_refused_changes_nothing_sample :
  step rand_zero
    (session rand_zero working_browser [ChooseFile (Some "a b"); TypeNewWord "b"])
    ClickAddWord
  = session rand_zero working_browser [ChooseFile (Some "a b"); TypeNewWord "b"].
Proof.
  apply (add_word_refused_changes_nothing rand_zero).
  right.
  pose proof (registry_session rand_zero working_browser
                [ChooseFile (Some "a b"); TypeNewWord "b"]) as H.
  assert (E : fold_left registry_step [ChooseFile (Some "a b"); TypeNewWord "b"]
                ([], "") = (["a"; "b"], "b")) by (vm_compute; reflexivity).
  rewrite E in H.
  pose proof (f_equal fst H) as Hw. pose proof (f_equal snd H) as Hn.
  cbn [fst snd] in Hw, Hn. rewrite Hw, Hn. right. now left.
Defined.

Lemma step_TypeNewWord (rand : nat -> float) (st : State) (s : string) :
  step rand st (TypeNewWord s) = setNewWord s st.
Proof. reflexivity. Qed.

Lemma newWord_setNewWord (s : string) (st : State) : newWord (setNewWord s st) = s.
Proof. reflexivity. Qed.

Lemma numbered_word_is_bits (n : nat) (w : string) :
  In w (numbered_words n) -> exists p, w = bits p.
Proof.
  unfold numbered_words. intros Hin. apply in_map_iff in Hin.
  destruct Hin as [i [<- _]]. now eexists.
Qed.

(** The registry after the upload of [text_beyond_capacity 0] in a fresh
    session: [MAX_WORDS] words, none of them [x]. *)
Lemma full_registry (rand : nat -> float) (env : Browser) :
  words (session rand env [ChooseFile (Some (text_beyond_capacity 0))])
  = numbered_words (Z.to_nat MAX_WORDS).
Proof.
  unfold session. rewrite run_one, step_ChooseFile.
  rewrite words_upload_into_empty by apply words_mount.
  rewrite wordsFromFile_text_beyond_capacity, Z.add_0_r.
  apply firstn_numbered_words. lia.
Qed.

(** X13. "Add Word" with a new word when the registry is full drops the
    word without a sign: the registry, the error message and the textures
    stay as they were, and the field is cleared as after an add that went
    through. *)
Theorem add_word_at_capacity_clears_field (rand : nat -> float) (st : State) :
  MAX_WORDS <= len (words st) ->
  newWord st <> "" ->
  ~ In (newWord st) (words st) ->
  step rand st ClickAddWord = setNewWord "" st.
Proof.
  intros Hfull Hne Hnot. simpl step. unfold handleAddWord.
  replace (newWord st =? "")%string with false
    by (symmetry; now apply String.eqb_neq).
  replace (includes (words st) (newWord st)) with false
    by (symmetry; now apply includes_false_iff).
  simpl. f_equal. apply addWord_rejects. unfold accepts.
  replace (len (words st) <? MAX_WORDS) with false
    by (symmetry; apply Z.ltb_ge; exact Hfull).
  apply andb_false_r.
Qed.

(** The word [x] typed and added after an upload that filled the
    registry. *)
Lemma add_word_at_capacity_clears_field_sample :
  step rand_zero
    (step rand_zero
       (session rand_zero working_browser
          [ChooseFile (Some (text_beyond_capacity 0))])
       (TypeNewWord "x"))
    ClickAddWord
  = setNewWord ""
      (step rand_zero
         (session rand_zero working_browser
            [ChooseFile (Some (text_beyond_capacity 0))])
         (TypeNewWord "x")).
Proof.
  apply (add_word_at_capacity_clears_field rand_zero).
  - rewrite step_TypeNewWord, words_setNewWord, full_registry. unfold len.
    rewrite length_numbered_words, MAX_WORDS_eq. lia.
  - rewrite step_TypeNewWord, newWord_setNewWord. discriminate.
  - rewrite step_TypeNewWord, words_setNewWord, newWord_setNewWord, full_registry.
    intros Hin. apply numbered_word_is_bits in Hin. destruct Hin as [p Hp].
    destruct p; discriminate Hp.
Defined.

Lemma indexOf_appended (ws : list string) (w : string) :
  ~ In w ws -> indexOf (ws ++ [w]) w = len ws.
Proof.
  intros Hnot. unfold indexOf.
  rewrite (indexOf_from_first (ws ++ [w]) w 0 (List.length ws)).
  - unfold len. lia.
  - rewrite nth_error_app2 by lia. now rewrite Nat.sub_diag.
  - intros j Hj Hat. rewrite nth_error_app1 in Hat by exact Hj.
    apply Hnot. now apply nth_error_In in Hat.
Qed.

(** X14. A new word typed and added while the registry has room goes to
    the end of the registry, at the index that was the registry's size, and
    the field is cleared; typed and processed next, it is found there and
    the word shown is the first word of the registry (the successor wraps
    around), or the word itself if it is the only one. *)
Theorem added_word_is_found_last (rand : nat -> float) (st : State) (w : string) :
  w <> "" ->
  ~ In w (words st) ->
  len (words st) < MAX_WORDS ->
  words (step rand (step rand st (TypeNewWord w)) ClickAddWord) = words st ++ [w] /\
  newWord (step rand (step rand st (TypeNewWord w)) ClickAddWord) = "" /\
  indexOf (words (step rand (step rand st (TypeNewWord w)) ClickAddWord)) w
    = len (words st) /\
  outputWord
    (step rand
       (step rand (step rand (step rand st (TypeNewWord w)) ClickAddWord)
          (TypeInputWord w))
       ClickProcess)
    = Some (hd w (words st)).
Proof.
  intros Hne Hnot Hroom.
  pose proof (registry_step_correct rand (step rand st (TypeNewWord w)) ClickAddWord)
    as Hreg.
  change (words (step rand st (TypeNewWord w))) with (words st) in Hreg.
  change (newWord (step rand st (TypeNewWord w))) with w in Hreg.
  unfold registry_step in Hreg.
  replace (w =? "")%string with false in Hreg
    by (symmetry; now apply String.eqb_neq).
  assert (Hacc : accepts (words st) w = true).
  { unfold accepts. apply andb_true_iff. split.
    - apply negb_true_iff. now apply includes_false_iff.
    - now apply Z.ltb_lt. }
  rewrite Hacc in Hreg. simpl negb in Hreg. simpl andb in Hreg. cbv iota in Hreg.
  pose proof (f_equal fst Hreg) as Hw. pose proof (f_equal snd Hreg) as Hn.
  cbn [fst snd] in Hw, Hn.
  split; [exact Hw |]. split; [exact Hn |].
  split; [rewrite Hw; now apply indexOf_appended |].
  set (st' := step rand (step rand st (TypeNewWord w)) ClickAddWord) in *.
  change (step rand (step rand st' (TypeInputWord w)) ClickProcess)
    with (processInput rand (words st') w (setInputWord w st')).
  rewrite outputWord_processInput, Hw, indexOf_appended by exact Hnot.
  replace (len (words st) =? -1) with false
    by (symmetry; apply Z.eqb_neq; pose proof (len_nonneg (words st)); lia).
  rewrite len_app. change (len [w]) with 1.
  rewrite Z.rem_same by (pose proof (len_nonneg (words st)); lia).
  unfold at_index. simpl.
  destruct (words st); reflexivity.
Qed.

(** [c] added to the registry [a, b] and processed: the word shown is [a]. *)
Lemma added_word_is_found_last_sample :
  outputWord
    (step rand_zero
       (step rand_zero
          (step rand_zero
             (step rand_zero
                (session rand_zero working_browser [ChooseFile (Some "a b")])
                (TypeNewWord "c"))
             ClickAddWord)
          (TypeInputWord "c"))
       ClickProcess)
  = Some "a".
Proof.
  assert (Hwords : words (session rand_zero working_browser
                            [ChooseFile (Some "a b")]) = ["a"; "b"])
    by (rewrite words_session; vm_compute; reflexivity).
  destruct (added_word_is_found_last rand_zero
              (session rand_zero working_browser [ChooseFile (Some "a b")]) "c")
    as [_ [_ [_ H]]].
  - discriminate.
  - rewrite Hwords. simpl. intuition discriminate.
  - rewrite Hwords, MAX_WORDS_eq. reflexivity.
  - rewrite H, Hwords. reflexivity.
Defined.

(** ** A session without textures *)

Lemma mount_failed_untouched (rand : nat -> float) (env : Browser) :
  mount_succeeds env = false -> untouched (mount rand env initialState).
Proof.
  unfold mount_succeeds, mount, untouched.
  destruct (has_canvas env); [| now repeat split].
  destruct (has_webgl env); [| now repeat split].
  destruct (shaders_compile env); [| now repeat split].
  destruct (program_links env); [discriminate | now repeat split].
Qed.

Lemma addWord_untouched (ws : list string) (w : string) (st : State) :
  untouched st -> untouched (addWord ws w st).
Proof.
  intros [Hn [Hw Hc]]. unfold untouched.
  destruct (addWord_keeps_grid ws w st) as [_ [-> ->]].
  rewrite wordDataTextureRef_addWord, Hw.
  split; [exact Hn |]. split; [| exact Hc].
  destruct (accepts ws w); [| reflexivity].
  destruct (glRef st); reflexivity.
Qed.

Lemma fold_addWord_untouched (ws toks : list string) (st : State) :
  untouched st -> untouched (fold_left (fun st w => addWord ws w st) toks st).
Proof.
  revert st. induction toks as [|t rest IH]; intros st H; simpl.
  - exact H.
  - apply IH. now apply addWord_untouched.
Qed.

Lemma step_untouched (rand : nat -> float) (st : State) (ev : Event) :
  untouched st -> untouched (step rand st ev).
Proof.
  intros H. destruct ev as [s | | [text |] | s |];
    [simpl step | simpl step | rewrite step_ChooseFile | simpl step
     | simpl step | simpl step].
  - exact H.
  - unfold handleAddWord.
    destruct (negb (newWord st =? "")%string
              && negb (includes (words st) (newWord st))); [| exact H].
    exact (addWord_untouched (words st) (newWord st) st H).
  - rewrite handleFileUpload_fold.
    exact (fold_addWord_untouched (words st)
             (firstn (Z.to_nat (totalWords (words st) text)) (wordsFromFile text))
             (setIsProcessing true st) H).
  - exact H.
  - exact H.
  - destruct H as [Hn [Hw Hc]]. unfold processInput, untouched.
    destruct (indexOf (words st) (inputWord st) =? -1); simpl negb; cbv iota.
    + now repeat split.
    + rewrite Hn. destruct (glRef st); now repeat split.
Qed.

(** X15. When the mount effect stops before its texture uploads (no
    canvas, no WebGL, a shader that does not compile, a program that does
    not link), no later event creates a texture or calls [Math.random()]:
    at the end of every session both texture references are empty and no
    value has been drawn. *)
Theorem failed_mount_never_allocates (rand : nat -> float) (env : Browser)
    (evs : list Event) :
  mount_succeeds env = false ->
  neuronStateTextureRef (session rand env evs) = None /\
  wordDataTextureRef (session rand env evs) = None /\
  randomCalls (session rand env evs) = O.
Proof.
  intros Hfail. unfold session.
  pose proof (mount_failed_untouched rand env Hfail) as Hmount.
  revert Hmount. generalize (mount rand env initialState).
  induction evs as [|ev rest IH]; intros st Hst.
  - exact Hst.
  - rewrite run_cons. apply IH. now apply step_untouched.
Qed.

(** Without WebGL, after an upload, an add and a processed word. *)
Lemma failed_mount_never_allocates_sample :
  neuronStateTextureRef
    (session rand_half browser_without_webgl
       [ChooseFile (Some "a b"); TypeNewWord "c"; ClickAddWord;
        TypeInputWord "a"; ClickProcess]) = None /\
  wordDataTextureRef
    (session rand_half browser_without_webgl
       [ChooseFile (Some "a b"); TypeNewWord "c"; ClickAddWord;
        TypeInputWord "a"; ClickProcess]) = None /\
  randomCalls
    (session rand_half browser_without_webgl
       [ChooseFile (Some "a b"); TypeNewWord "c"; ClickAddWord;
        TypeInputWord "a"; ClickProcess]) = O.
Proof.
  apply (failed_mount_never_allocates rand_half browser_without_webgl).
  reflexivity.
Defined.

(** ** The textures, event by event *)





(** X18. The neuron-state texture changes, and [Math.random()] is called,
    only when a word of the registry is processed: every other event, and
    "Process" on a word the registry does not hold, leaves both as they
    were. *)
Theorem grid_changes_only_when_processing (rand : nat -> float) (st : State)
    (ev : Event) :
  ev <> ClickProcess \/ ~ In (inputWord st) (words st) ->
  neuronStateTextureRef (step rand st ev) = neuronStateTextureRef st /\
  randomCalls (step rand st ev) = randomCalls st.
Proof.
  intros H. destruct ev as [s | | file | s |]; simpl step.
  - now split.
  - unfold handleAddWord.
    destruct (negb (newWord st =? "")%string
              && negb (includes (words st) (newWord st))); [| now split].
    destruct (addWord_keeps_grid (words st) (newWord st) st) as [_ [Hn Hc]].
    now split.
  - destruct (handleFileUpload_keeps_grid (words st) file st) as [_ [Hn Hc]].
    now split.
  - now split.
  - destruct H as [H | H]; [congruence |].
    apply indexOf_absent_iff in H. unfold processInput. rewrite H. now split.
Qed.

(** An upload in a working browser leaves the grid and the count of draws
    as the mount effect left them. *)
Lemma grid_changes_only_when_processing_sample :
  neuronStateTextureRef
    (step rand_half (session rand_half working_browser []) (ChooseFile (Some "a b")))
    = neuronStateTextureRef (session rand_half working_browser []) /\
  randomCalls
    (step rand_half (session rand_half working_browser []) (ChooseFile (Some "a b")))
    = randomCalls (session rand_half working_browser []).
Proof.
  apply (grid_changes_only_when_processing rand_half).
  left. discriminate.
Defined.

(** ** Feeding the output back *)

Lemma process_chain_succ (rand : nat -> float) (k : nat) (st : State) (w : string) :
  process_chain rand (S k) st w
  = match outputWord (processInput rand (words st) w (setInputWord w st)) with
    | Some w' =>
        process_chain rand k (processInput rand (words st) w (setInputWord w st)) w'
    | None => processInput rand (words st) w (setInputWord w st)
    end.
Proof. reflexivity. Qed.

(** In a registry without repeats, [processInput] shows the word one place
    further, the first after the last. *)
Lemma successor_of_place (rand : nat -> float) (ws : list string) (w : string)
    (i : nat) (st : State) :
  NoDup ws -> nth_error ws i = Some w ->
  outputWord (processInput rand ws w st)
    = nth_error ws ((i + 1) mod List.length ws)%nat /\
  exists t, nth_error ws ((i + 1) mod List.length ws)%nat = Some t.
Proof.
  intros Hnd Hat.
  assert (Hlt : (i < List.length ws)%nat) by (apply nth_error_Some; congruence).
  assert (Hidx : indexOf ws w = Z.of_nat i).
  { unfold indexOf.
    rewrite (indexOf_from_first _ _ 0 i Hat (first_place_of_NoDup ws w i Hnd Hat)).
    lia. }
  rewrite outputWord_processInput, Hidx.
  replace (Z.of_nat i =? -1) with false by (symmetry; apply Z.eqb_neq; lia).
  rewrite Z.rem_mod_nonneg by (unfold len; lia).
  unfold len.
  replace (Z.of_nat i + 1) with (Z.of_nat (i + 1)) by lia.
  rewrite <- Nat2Z.inj_mod, at_index_nth_error.
  split; [reflexivity |].
  destruct (nth_error ws ((i + 1) mod List.length ws)) as [t |] eqn:Ht.
  - now exists t.
  - apply nth_error_None in Ht.
    pose proof (Nat.mod_upper_bound (i + 1) (List.length ws)). lia.
Qed.

Lemma process_chain_walk (rand : nat -> float) (ws : list string) :
  NoDup ws ->
  forall (k : nat) (st : State) (i : nat) (w : string),
    words st = ws -> nth_error ws i = Some w ->
    words (process_chain rand (S k) st w) = ws /\
    outputWord (process_chain rand (S k) st w)
      = nth_error ws ((i + S k) mod List.length ws)%nat.
Proof.
  intros Hnd. induction k as [|k IH]; intros st i w Hws Hat;
    rewrite process_chain_succ, Hws;
    destruct (successor_of_place rand ws w i (setInputWord w st) Hnd Hat)
      as [Hout [t Ht]];
    rewrite Hout, Ht.
  - simpl process_chain. rewrite words_processInput, Hout. now split.
  - destruct (IH (processInput rand ws w (setInputWord w st))
                ((i + 1) mod List.length ws)%nat t) as [Hwords Hshown].
    + now rewrite words_processInput.
    + exact Ht.
    + split; [exact Hwords |]. rewrite Hshown.
      rewrite Nat.Div0.add_mod_idemp_l. f_equal. f_equal. lia.
Qed.

(** X20. Feeding the output back walks the registry: in a registry without
    repeats, when the user processes the word at index [i] and then, again
    and again, the word just shown, the [k]-th output is the word at index
    [(i + k) mod n]; after [n] rounds, [n] the size of the registry, the
    output is the word the user started with. The registry stays as it
    was. *)
Theorem processing_walks_the_registry (rand : nat -> float) (st : State)
    (w : string) (i k : nat) :
  NoDup (words st) ->
  nth_error (words st) i = Some w ->
  words (process_chain rand (S k) st w) = words st /\
  outputWord (process_chain rand (S k) st w)
    = nth_error (words st) ((i + S k) mod List.length (words st))%nat /\
  outputWord (process_chain rand (List.length (words st)) st w) = Some w.
Proof.
  intros Hnd Hat.
  assert (Hlt : (i < List.length (words st))%nat)
    by (apply nth_error_Some; congruence).
  destruct (process_chain_walk rand (words st) Hnd k st i w eq_refl Hat)
    as [Hwords Hshown].
  split; [exact Hwords |]. split; [exact Hshown |].
  destruct (List.length (words st)) as [|m] eqn:Hn; [lia |].
  destruct (process_chain_walk rand (words st) Hnd m st i w eq_refl Hat)
    as [_ Hround].
  rewrite Hround, Hn.
  replace (i + S m)%nat with (i + 1 * S m)%nat by lia.
  rewrite Nat.Div0.mod_add, Nat.mod_small by lia.
  exact Hat.
Qed.

(** With the registry [a, b, c], two rounds from [a] show [c], and three
    rounds show [a] again. *)
Lemma processing_walks_the_registry_abc :
  outputWord (process_chain rand_zero 2 (registry_state ["a"; "b"; "c"]) "a")
    = Some "c" /\
  outputWord (process_chain rand_zero 3 (registry_state ["a"; "b"; "c"]) "a")
    = Some "a".
Proof.
  destruct (processing_walks_the_registry rand_zero
              (registry_state ["a"; "b"; "c"]) "a" 0 1) as [_ [H2 H3]].
  - repeat constructor; simpl; intuition discriminate.
  - reflexivity.
  - split; [rewrite H2; reflexivity | exact H3].
Defined.

(** ** The word list *)

Lemma length_map_items (l : list string) (from : Z) :
  List.length (map_items l from) = List.length l.
Proof.
  revert from. induction l as [|a rest IH]; intros from; simpl.
  - reflexivity.
  - now rewrite IH.
Qed.

Lemma In_map_items (l : list string) (from k : Z) (w : string) :
  In (WordItem k w) (map_items l from) <->
  from <= k /\ nth_error l (Z.to_nat (k - from)) = Some w.
Proof.
  revert from. induction l as [|a rest IH]; intros from; simpl.
  - split; [tauto |]. intros [_ H]. destruct (Z.to_nat (k - from)); discriminate.
  - rewrite IH. split.
    + intros [H | [Hle Hat]].
      * injection H as -> ->. rewrite Z.sub_diag. split; [lia | reflexivity].
      * split; [lia |].
        replace (Z.to_nat (k - from)) with (S (Z.to_nat (k - (from + 1)))) by lia.
        exact Hat.
    + intros [Hle Hat].
      destruct (Z.eq_dec from k) as [-> | Hne].
      * rewrite Z.sub_diag in Hat. simpl in Hat. left. congruence.
      * right. split; [lia |].
        replace (Z.to_nat (k - from)) with (S (Z.to_nat (k - (from + 1)))) in Hat
          by lia.
        exact Hat.
Qed.

Lemma no_more_line_in_map_items (l : list string) (from c : Z) :
  ~ In (MoreItem c) (map_items l from).
Proof.
  revert from. induction l as [|a rest IH]; intros from; simpl.
  - tauto.
  - intros [H | H]; [discriminate | exact (IH _ H)].
Qed.

(** X21. The word list shows the first 100 words of the registry, each
    under its index as key and no other, followed by one line with the
    count of the words left out exactly when the registry holds more than
    100 words: at most 101 lines, however large the registry. *)
Theorem wordList_shows_first_hundred (ws : list string) :
  Z.of_nat (List.length (wordList ws)) = Z.min (len ws) 101 /\
  (forall k w, In (WordItem k w) (wordList ws) <->
               0 <= k < 100 /\ at_index ws k = Some w) /\
  (forall c, In (MoreItem c) (wordList ws) <->
             100 < len ws /\ c = len ws - 100).
Proof.
  unfold wordList, slice_from_0, len. split; [| split].
  - rewrite length_app, length_map_items, length_firstn.
    destruct (100 <? Z.of_nat (List.length ws)) eqn:Hmore; simpl List.length.
    + apply Z.ltb_lt in Hmore. lia.
    + apply Z.ltb_ge in Hmore. lia.
  - intros k w. rewrite in_app_iff, In_map_items, Z.sub_0_r, nth_error_firstn.
    split.
    + intros [[Hle Hat] | H].
      * destruct (Z.to_nat k <? Z.to_nat 100)%nat eqn:Hk; [| discriminate].
        apply Nat.ltb_lt in Hk. split; [lia |].
        unfold at_index.
        replace (k <? 0) with false by (symmetry; apply Z.ltb_ge; lia).
        exact Hat.
      * destruct (100 <? Z.of_nat (List.length ws)); simpl in H.
        -- destruct H as [H | []]. discriminate.
        -- destruct H.
    + intros [[Hlo Hhi] Hat]. left. split; [exact Hlo |].
      replace (Z.to_nat k <? Z.to_nat 100)%nat with true
        by (symmetry; apply Nat.ltb_lt; lia).
      unfold at_index in Hat.
      replace (k <? 0) with false in Hat by (symmetry; apply Z.ltb_ge; lia).
      exact Hat.
  - intros c. rewrite in_app_iff. split.
    + intros [H | H].
      * now apply no_more_line_in_map_items in H.
      * destruct (100 <? Z.of_nat (List.length ws)) eqn:Hmore; simpl in H.
        -- apply Z.ltb_lt in Hmore. destruct H as [H | []].
           split; [exact Hmore | congruence].
        -- destruct H.
    + intros [Hmore ->]. right.
      apply Z.ltb_lt in Hmore. rewrite Hmore. now left.
Qed.

(** ** The textures and the error message along a session *)

Lemma error_step (rand : nat -> float) (st : State) (ev : Event) :
  is_upload ev = false -> error (step rand st ev) = error st.
Proof.
  destruct ev as [s | | file | s |]; intros H; simpl step.
  - reflexivity.
  - unfold handleAddWord.
    destruct (negb (newWord st =? "")%string
              && negb (includes (words st) (newWord st))); [| reflexivity].
    exact (error_addWord (words st) (newWord st) st).
  - discriminate H.
  - reflexivity.
  - unfold processInput.
    destruct (indexOf (words st) (inputWord st) =? -1); [reflexivity |].
    destruct (glRef st); [| reflexivity].
    destruct (neuronStateTextureRef st); reflexivity.
Qed.

Lemma error_run (rand : nat -> float) (evs : list Event) (st : State) :
  forallb (fun ev => negb (is_upload ev)) evs = true ->
  error (run rand st evs) = error st.
Proof.
  revert st. induction evs as [|ev rest IH]; intros st H.
  - reflexivity.
  - simpl in H. apply andb_true_iff in H. destruct H as [Hev Hrest].
    rewrite run_cons, IH by exact Hrest.
    apply error_step. now apply negb_true_iff.
Qed.

Lemma error_upload (rand : nat -> float) (st : State) (file : option string) :
  error (step rand st (ChooseFile file))
  = match file with
    | Some _ => None
    | None => Some "Error reading file. Please try again."
    end.
Proof.
  rewrite step_ChooseFile. destruct file as [text |].
  - rewrite handleFileUpload_fold. reflexivity.
  - reflexivity.
Qed.

(** X23. In a run in which each upload ends before the next event, the
    error message is decided by the mount effect and by the last file
    chosen: without an upload it is the message of the mount effect, and
    after an upload it is the reading error when the file could not be read
    and no message at all when it could. So the message of a failed mount
    disappears with the first file that is read, although the failure
    stays. *)
Theorem error_follows_the_last_upload (rand : nat -> float) (env : Browser)
    (before after : list Event) (file : option string) :
  forallb (fun ev => negb (is_upload ev)) after = true ->
  error (app (play rand (mounted rand env) (uninterrupted ([], "") after)))
    = error (mount rand env initialState) /\
  error (app (play rand (mounted rand env)
                (uninterrupted ([], "") (before ++ ChooseFile file :: after))))
  = match file with
    | Some _ => None
    | None => Some "Error reading file. Please try again."
    end.
Proof.
  intros H. rewrite !sessions_are_uninterrupted_runs. cbn [app]. split.
  - unfold session. now apply error_run.
  - unfold session, run. rewrite fold_left_app.
    change (error (run rand
                     (step rand (run rand (mount rand env initialState) before)
                        (ChooseFile file)) after) = 
            match file with
            | Some _ => None
            | None => Some "Error reading file. Please try again."
            end).
    rewrite error_run by exact H. apply error_upload.
Qed.

(** In a browser without WebGL the message is shown after "Process", and is
    gone after the upload of [a]. *)
Lemma error_follows_the_last_upload_without_webgl :
  error (app (play rand_zero (mounted rand_zero browser_without_webgl)
                (uninterrupted ([], "") [ClickProcess])))
    = Some "WebGL is not supported in your browser." /\
  error (app (play rand_zero (mounted rand_zero browser_without_webgl)
                (uninterrupted ([], "")
                   ([] ++ ChooseFile (Some "a") :: [ClickProcess])))) = None.
Proof.
  destruct (error_follows_the_last_upload rand_zero browser_without_webgl []
              [ClickProcess] (Some "a")) as [H1 H2].
  - reflexivity.
  - split; [rewrite H1; reflexivity | exact H2].
Defined.

(** ** The uploads, with the extension and without *)

Lemma upload_into_empty_keeps_tokens (rand : nat -> float) (st : State)
    (text : string) (toks : list string) (last : string) :
  words st = [] ->
  wordsFromFile text = toks ++ [last] ->
  len (toks ++ [last]) <= MAX_WORDS ->
  firstn (Z.to_nat (totalWords (words st) text)) (wordsFromFile text) = toks ++ [last] /\
  words (step rand st (ChooseFile (Some text))) = toks ++ [last].
Proof.
  intros Hempty Htoks Hlen.
  assert (Hfirst : firstn (Z.to_nat (totalWords (words st) text)) (wordsFromFile text)
                   = toks ++ [last]).
  { unfold totalWords. rewrite Hempty, Htoks. change (len []) with 0.
    apply firstn_all2. unfold len in *. lia. }
  split; [exact Hfirst |].
  rewrite step_ChooseFile, words_handleFileUpload, Hfirst, Hempty.
  simpl app. apply filter_accepts_nil.
Qed.

Lemma upload_leaves_last_token_allocated (rand : nat -> float) (st : State)
    (text : string) (toks : list string) (last : string) :
  store_allocated st ->
  words st = [] ->
  wordsFromFile text = toks ++ [last] ->
  len (toks ++ [last]) <= MAX_WORDS ->
  exists wordData,
    wordDataTextureRef (step rand st (ChooseFile (Some text))) = Some wordData /\
    (forall x, 0 <= x < str_length last -> x < TEXTURE_SIZE ->
       texel wordData x 0 0 = fround (div (charCodeAt last x) (Number 255))) /\
    (forall x c, 0 <= x < TEXTURE_SIZE -> 0 <= c < 4 ->
       (0 < c \/ str_length last <= x) -> texel wordData x 0 c = plus_zero).
Proof.
  intros Halloc Hempty Htoks Hlen.
  destruct (upload_into_empty_keeps_tokens rand st text toks last Hempty Htoks Hlen)
    as [Hfirst _].
  rewrite step_ChooseFile, handleFileUpload_fold, Hfirst, Hempty, fold_left_app.
  simpl fold_left.
  set (st' := fold_left (fun st0 w => addWord [] w st0) toks
                (setIsProcessing true st)).
  assert (Halloc' : store_allocated st')
    by (apply fold_addWord_store_allocated; exact Halloc).
  destruct (addWord_first_upload last st' Halloc')
    as [wordData [Href [_ [_ [Hchar Hrest]]]]].
  exists wordData. split; [exact Href |]. now split.
Qed.

Lemma successive_processings_allocated (rand : nat -> float) (st : State)
    (w1 w2 : string) :
  store_allocated st ->
  In w1 (words st) ->
  In w2 (words st) ->
  exists grid1 grid2,
    neuronStateTextureRef (processInput rand (words st) w1 st) = Some grid1 /\
    neuronStateTextureRef
      (processInput rand (words st) w2 (processInput rand (words st) w1 st))
      = Some grid2 /\
    randomCalls (processInput rand (words st) w1 st)
      = (randomCalls st + Z.to_nat (TEXTURE_SIZE * TEXTURE_SIZE))%nat /\
    randomCalls
      (processInput rand (words st) w2 (processInput rand (words st) w1 st))
      = (randomCalls st + Z.to_nat (TEXTURE_SIZE * TEXTURE_SIZE)
         + Z.to_nat (TEXTURE_SIZE * TEXTURE_SIZE))%nat /\
    forall x y, 0 <= x < TEXTURE_SIZE -> 0 <= y < TEXTURE_SIZE ->
      texel grid1 x y 0
        = fround (rand (randomCalls st + Z.to_nat (y * TEXTURE_SIZE + x))%nat) /\
      texel grid2 x y 0
        = fround (rand (randomCalls st + Z.to_nat (TEXTURE_SIZE * TEXTURE_SIZE)
                        + Z.to_nat (y * TEXTURE_SIZE + x))%nat).
Proof.
  intros Halloc Hin1 Hin2.
  pose proof (processInput_store_allocated rand (words st) w1 st Halloc)
    as [Hgl' _].
  destruct Halloc as [Hgl [[neuron [Hneuron [Hw Hh]]] _]].
  destruct (processInput_grid rand (words st) w1 st neuron Hin1 Hgl Hneuron Hw Hh)
    as [grid1 [Href1 [Hw1 [Hh1 [Hcalls1 Hcells1]]]]].
  destruct (processInput_grid rand (words st) w2
              (processInput rand (words st) w1 st) grid1 Hin2 Hgl' Href1 Hw1 Hh1)
    as [grid2 [Href2 [_ [_ [Hcalls2 Hcells2]]]]].
  exists grid1, grid2. split; [exact Href1 |]. split; [exact Href2 |].
  split; [exact Hcalls1 |].
  split; [now rewrite Hcalls2, Hcalls1 |].
  intros x y Hx Hy.
  destruct (Hcells1 x y Hx Hy) as [H1 _].
  destruct (Hcells2 x y Hx Hy) as [H2 _].
  rewrite Hcalls1 in H2. now split.
Qed.

(** X3. The first word added through the form, where the mount effect went
    through and the registry is empty. [addWord] builds its array (element
    [4 x] holds the code unit of the x-th character over 255, for every
    character among the first 4096) and uploads it to row 0 of the
    word-data texture. On a context with [OES_texture_float] enabled the
    upload replaces the one row of the texture: channel 0 of cell [x] holds
    that value and every other channel holds [+0]. On the context the
    component gets by itself, without the extension, the upload is refused
    and the texture stays without an image. *)
Theorem first_word_is_encoded (rand : nat -> float) (env : Browser)
    (evs : list Event) (w : string) :
  mount_succeeds env = true ->
  words (session rand env evs) = [] ->
  w <> "" ->
  (forall x, 0 <= x < str_length w -> x < TEXTURE_SIZE ->
     fa_at (encode_word w) (x * 4) = fround (div (charCodeAt w x) (Number 255))) /\
  exists wordData,
    wordDataTextureRef
      (step rand (step rand (session rand env evs) (TypeNewWord w)) ClickAddWord)
      = Some wordData /\
    if float_textures env
    then tex_width wordData = TEXTURE_SIZE /\ tex_height wordData = 1 /\
         (forall x, 0 <= x < str_length w -> x < TEXTURE_SIZE ->
            texel wordData x 0 0 = fround (div (charCodeAt w x) (Number 255))) /\
         (forall x c, 0 <= x < TEXTURE_SIZE -> 0 <= c < 4 ->
            (0 < c \/ str_length w <= x) -> texel wordData x 0 c = plus_zero)
    else wordData = createAndSetupTexture.
Proof.
  intros Hmount Hempty Hne. split.
  - intros x Hx Hin. rewrite <- (Z.add_0_r (x * 4)). now apply encode_word_char.
  - destruct (float_textures env) eqn:Hfloat.
    + rewrite (mount_succeeds_with_float env Hmount Hfloat) in *.
      apply type_and_add_first_word;
        [apply session_store_allocated | exact Hempty | exact Hne].
    + rewrite (mount_succeeds_without_float env Hmount Hfloat) in *.
      exists createAndSetupTexture. split; [| reflexivity].
      apply (step_store_without_images rand), (step_store_without_images rand),
        session_store_without_images.
Qed.

(** The word [hi], added first. With the extension: the codes of [h] (104)
    and [i] (105) over 255 in channel 0 of the first two cells, [+0] in the
    third. In a browser that follows WebGL 1: no image. *)
Lemma first_word_is_encoded_hi :
  (exists wordData,
     wordDataTextureRef
       (step rand_zero
          (step rand_zero (session rand_zero working_browser []) (TypeNewWord "hi"))
          ClickAddWord) = Some wordData /\
     texel wordData 0 0 0 = fround (div (Number 104) (Number 255)) /\
     texel wordData 1 0 0 = fround (div (Number 105) (Number 255)) /\
     texel wordData 2 0 0 = plus_zero) /\
  wordDataTextureRef
    (step rand_zero
       (step rand_zero (session rand_zero webgl1_browser []) (TypeNewWord "hi"))
       ClickAddWord) = Some createAndSetupTexture.
Proof.
  split.
  - destruct (first_word_is_encoded rand_zero working_browser [] "hi")
      as [_ [wordData [Href H]]].
    + reflexivity.
    + now rewrite words_session.
    + discriminate.
    + cbn [float_textures working_browser] in H.
      destruct H as [_ [_ [Hchar Hrest]]].
      exists wordData. split; [exact Href |].
      pose proof TEXTURE_SIZE_eq as Hsize.
      assert (Hlen : str_length "hi" = 2) by reflexivity.
      split; [| split].
      * rewrite Hchar; [reflexivity | lia | lia].
      * rewrite Hchar; [reflexivity | lia | lia].
      * apply Hrest; lia.
  - destruct (first_word_is_encoded rand_zero webgl1_browser [] "hi")
      as [_ [wordData [Href H]]].
    + reflexivity.
    + now rewrite words_session.
    + discriminate.
    + cbn [float_textures webgl1_browser] in H. now rewrite Href, H.
Defined.

(** X17. An upload that nothing interrupts, of a text of at most
    [MAX_WORDS] tokens into an empty registry, where the mount effect went
    through: the registry becomes the tokens of the text, and every token
    is sent to row 0 of the word-data texture, one over the other. On a
    context with [OES_texture_float] enabled the row holds, at the end, the
    encoding of the last token of the text, not of the first word of the
    registry. On the context the component gets by itself every one of
    these uploads is refused and the texture stays without an image. *)
Theorem upload_leaves_last_token (rand : nat -> float) (env : Browser)
    (evs : list Event) (text : string) (toks : list string) (last : string) :
  mount_succeeds env = true ->
  words (session rand env evs) = [] ->
  wordsFromFile text = toks ++ [last] ->
  len (toks ++ [last]) <= MAX_WORDS ->
  words (step rand (session rand env evs) (ChooseFile (Some text))) = toks ++ [last] /\
  exists wordData,
    wordDataTextureRef (step rand (session rand env evs) (ChooseFile (Some text)))
      = Some wordData /\
    if float_textures env
    then (forall x, 0 <= x < str_length last -> x < TEXTURE_SIZE ->
            texel wordData x 0 0 = fround (div (charCodeAt last x) (Number 255))) /\
         (forall x c, 0 <= x < TEXTURE_SIZE -> 0 <= c < 4 ->
            (0 < c \/ str_length last <= x) -> texel wordData x 0 c = plus_zero)
    else wordData = createAndSetupTexture.
Proof.
  intros Hmount Hempty Htoks Hlen. split.
  - now apply upload_into_empty_keeps_tokens.
  - destruct (float_textures env) eqn:Hfloat.
    + rewrite (mount_succeeds_with_float env Hmount Hfloat) in *.
      apply (upload_leaves_last_token_allocated rand _ text toks last);
        [apply session_store_allocated | assumption | assumption | assumption].
    + rewrite (mount_succeeds_without_float env Hmount Hfloat) in *.
      exists createAndSetupTexture. split; [| reflexivity].
      apply (step_store_without_images rand), session_store_without_images.
Qed.

(** The upload of [ab cd] in a fresh session: the registry is [ab, cd]; with
    the extension the first cell of the texture holds the code of [c] (99)
    over 255, and in a browser that follows WebGL 1 there is no image. *)
Lemma upload_leaves_last_token_sample :
  (words (step rand_zero (session rand_zero working_browser [])
            (ChooseFile (Some "ab cd"))) = ["ab"; "cd"] /\
   exists wordData,
     wordDataTextureRef
       (step rand_zero (session rand_zero working_browser [])
          (ChooseFile (Some "ab cd"))) = Some wordData /\
     texel wordData 0 0 0 = fround (div (Number 99) (Number 255))) /\
  words (step rand_zero (session rand_zero webgl1_browser [])
           (ChooseFile (Some "ab cd"))) = ["ab"; "cd"] /\
  wordDataTextureRef
    (step rand_zero (session rand_zero webgl1_browser [])
       (ChooseFile (Some "ab cd"))) = Some createAndSetupTexture.
Proof.
  assert (Hlen : len (["ab"] ++ ["cd"]) <= MAX_WORDS)
    by (rewrite MAX_WORDS_eq; vm_compute; discriminate).
  split.
  - destruct (upload_leaves_last_token rand_zero working_browser [] "ab cd"
                ["ab"] "cd") as [Hwords [wordData [Href H]]].
    + reflexivity.
    + now rewrite words_session.
    + reflexivity.
    + exact Hlen.
    + cbn [float_textures working_browser] in H. destruct H as [Hchar _].
      split; [exact Hwords |].
      exists wordData. split; [exact Href |].
      pose proof TEXTURE_SIZE_pos as Hpos.
      rewrite Hchar; [reflexivity | | exact Hpos].
      vm_compute. split; [discriminate | reflexivity].
  - destruct (upload_leaves_last_token rand_zero webgl1_browser [] "ab cd"
                ["ab"] "cd") as [Hwords [wordData [Href H]]].
    + reflexivity.
    + now rewrite words_session.
    + reflexivity.
    + exact Hlen.
    + cbn [float_textures webgl1_browser] in H.
      split; [exact Hwords |]. now rewrite Href, H.
Defined.

(** X19. Two processings in a row of words of the registry, where the mount
    effect went through, draw different values: the first draws the next
    4096 * 4096 values of [Math.random()], the second the 4096 * 4096
    values after those. On a context with [OES_texture_float] enabled the
    first fills channel 0 of the grid with its draws and the second with
    its own, so no cell of the second grid reads a draw the first grid
    used. On the context the component gets by itself both uploads are
    refused, and the grid stays without an image. *)
Theorem successive_processings_use_new_draws (rand : nat -> float) (env : Browser)
    (evs : list Event) (w1 w2 : string) :
  mount_succeeds env = true ->
  In w1 (words (session rand env evs)) ->
  In w2 (words (session rand env evs)) ->
  exists grid1 grid2,
    neuronStateTextureRef
      (processInput rand (words (session rand env evs)) w1 (session rand env evs))
      = Some grid1 /\
    neuronStateTextureRef
      (processInput rand (words (session rand env evs)) w2
         (processInput rand (words (session rand env evs)) w1 (session rand env evs)))
      = Some grid2 /\
    randomCalls
      (processInput rand (words (session rand env evs)) w1 (session rand env evs))
      = (randomCalls (session rand env evs)
         + Z.to_nat (TEXTURE_SIZE * TEXTURE_SIZE))%nat /\
    randomCalls
      (processInput rand (words (session rand env evs)) w2
         (processInput rand (words (session rand env evs)) w1 (session rand env evs)))
      = (randomCalls (session rand env evs)
         + Z.to_nat (TEXTURE_SIZE * TEXTURE_SIZE)
         + Z.to_nat (TEXTURE_SIZE * TEXTURE_SIZE))%nat /\
    if float_textures env
    then forall x y, 0 <= x < TEXTURE_SIZE -> 0 <= y < TEXTURE_SIZE ->
           (Z.to_nat (y * TEXTURE_SIZE + x)
            < Z.to_nat (TEXTURE_SIZE * TEXTURE_SIZE))%nat /\
           texel grid1 x y 0
             = fround (rand (randomCalls (session rand env evs)
                             + Z.to_nat (y * TEXTURE_SIZE + x))%nat) /\
           texel grid2 x y 0
             = fround (rand (randomCalls (session rand env evs)
                             + Z.to_nat (TEXTURE_SIZE * TEXTURE_SIZE)
                             + Z.to_nat (y * TEXTURE_SIZE + x))%nat)
    else grid1 = createAndSetupTexture /\ grid2 = createAndSetupTexture.
Proof.
  intros Hmount Hin1 Hin2.
  destruct (float_textures env) eqn:Hfloat.
  - rewrite (mount_succeeds_with_float env Hmount Hfloat) in *.
    destruct (successive_processings_allocated rand
                (session rand working_browser evs) w1 w2
                (session_store_allocated rand evs) Hin1 Hin2)
      as [grid1 [grid2 [H1 [H2 [Hc1 [Hc2 Hcells]]]]]].
    exists grid1, grid2. do 4 (split; [assumption |]).
    intros x y Hx Hy. split; [apply Z2Nat.inj_lt; nia | now apply Hcells].
  - rewrite (mount_succeeds_without_float env Hmount Hfloat) in *.
    pose proof (session_store_without_images rand evs) as Hstore.
    pose proof (processInput_store_without_images rand
                  (words (session rand webgl1_browser evs)) w1 _ Hstore) as Hstore1.
    destruct Hstore as [Hgl [Hneuron _]].
    destruct Hstore1 as [Hgl1 [Hneuron1 _]].
    destruct (processInput_no_float rand _ w1 _ _ _ Hin1 Hgl eq_refl Hneuron)
      as [H1 Hc1].
    destruct (processInput_no_float rand _ w2 _ _ _ Hin2 Hgl1 eq_refl Hneuron1)
      as [H2 Hc2].
    exists createAndSetupTexture, createAndSetupTexture.
    split; [exact H1 |]. split; [exact H2 |]. split; [exact Hc1 |].
    split; [now rewrite Hc2, Hc1 |]. now split.
Qed.

(** In a session with the word [a] and every draw equal to 0.5. With the
    extension the first cell holds 0.5 after [a] is processed, and again
    after it is processed a second time; in a browser that follows WebGL 1
    the grid has no image after either. *)
Lemma successive_processings_use_new_draws_a :
  (exists grid1 grid2,
     neuronStateTextureRef
       (processInput rand_half
          (words (session rand_half working_browser [ChooseFile (Some "a")])) "a"
          (session rand_half working_browser [ChooseFile (Some "a")])) = Some grid1 /\
     neuronStateTextureRef
       (processInput rand_half
          (words (session rand_half working_browser [ChooseFile (Some "a")])) "a"
          (processInput rand_half
             (words (session rand_half working_browser [ChooseFile (Some "a")])) "a"
             (session rand_half working_browser [ChooseFile (Some "a")])))
       = Some grid2 /\
     texel grid1 0 0 0 = fround half /\
     texel grid2 0 0 0 = fround half) /\
  neuronStateTextureRef
    (processInput rand_half
       (words (session rand_half webgl1_browser [ChooseFile (Some "a")])) "a"
       (processInput rand_half
          (words (session rand_half webgl1_browser [ChooseFile (Some "a")])) "a"
          (session rand_half webgl1_browser [ChooseFile (Some "a")])))
    = Some createAndSetupTexture.
Proof.
  split.
  - destruct (successive_processings_use_new_draws rand_half working_browser
                [ChooseFile (Some "a")] "a" "a")
      as [grid1 [grid2 [H1 [H2 [_ [_ Hcells]]]]]].
    + reflexivity.
    + rewrite words_session_a. now left.
    + rewrite words_session_a. now left.
    + cbn [float_textures working_browser] in Hcells.
      exists grid1, grid2. split; [exact H1 |]. split; [exact H2 |].
      pose proof TEXTURE_SIZE_pos as Hpos.
      destruct (Hcells 0 0) as [_ [G1 G2]]; [lia | lia |].
      split; [exact G1 | exact G2].
  - destruct (successive_processings_use_new_draws rand_half webgl1_browser
                [ChooseFile (Some "a")] "a" "a")
      as [grid1 [grid2 [_ [H2 [_ [_ Hgrids]]]]]].
    + reflexivity.
    + rewrite words_session. vm_compute. now left.
    + rewrite words_session. vm_compute. now left.
    + cbn [float_textures webgl1_browser] in Hgrids.
      destruct Hgrids as [_ Hg2]. now rewrite H2, Hg2.
Defined.

(** X22. Where the mount effect goes through, the context and the two
    texture objects are there in every state of a session, and what the
    effect made of the textures stays: no event allocates, reallocates or
    resizes them. On a context with [OES_texture_float] enabled they keep
    the sizes 4096 x 4096 and 4096 x 1. On the context the component gets
    by itself they stay without an image, of width and height 0. *)
Theorem textures_keep_their_sizes (rand : nat -> float) (env : Browser)
    (evs : list Event) :
  mount_succeeds env = true ->
  glRef (session rand env evs)
    = Some {| OES_texture_float := float_textures env |} /\
  exists neuron wordData,
    neuronStateTextureRef (session rand env evs) = Some neuron /\
    wordDataTextureRef (session rand env evs) = Some wordData /\
    if float_textures env
    then tex_width neuron = TEXTURE_SIZE /\ tex_height neuron = TEXTURE_SIZE /\
         tex_width wordData = TEXTURE_SIZE /\ tex_height wordData = 1
    else neuron = createAndSetupTexture /\ wordData = createAndSetupTexture /\
         tex_width createAndSetupTexture = 0 /\ tex_height createAndSetupTexture = 0.
Proof.
  intros Hmount. destruct (float_textures env) eqn:Hfloat.
  - rewrite (mount_succeeds_with_float env Hmount Hfloat) in *.
    destruct (session_store_allocated rand evs)
      as [Hgl [[neuron [Hneuron [Hw Hh]]] [wordData [Hword [Hw' Hh']]]]].
    split; [exact Hgl |]. exists neuron, wordData. now repeat split.
  - rewrite (mount_succeeds_without_float env Hmount Hfloat) in *.
    destruct (session_store_without_images rand evs) as [Hgl [Hneuron Hword]].
    split; [exact Hgl |].
    exists createAndSetupTexture, createAndSetupTexture. now repeat split.
Qed.

(** After an upload and a processing both textures are as the mount effect
    left them: with their sizes where the extension is enabled, without an
    image in a browser that follows WebGL 1. *)
Lemma textures_keep_their_sizes_sample :
  (exists neuron wordData,
     neuronStateTextureRef
       (session rand_zero working_browser
          [ChooseFile (Some "a b"); TypeInputWord "a"; ClickProcess]) = Some neuron /\
     wordDataTextureRef
       (session rand_zero working_browser
          [ChooseFile (Some "a b"); TypeInputWord "a"; ClickProcess]) = Some wordData /\
     tex_width neuron = TEXTURE_SIZE /\ tex_height neuron = TEXTURE_SIZE /\
     tex_width wordData = TEXTURE_SIZE /\ tex_height wordData = 1) /\
  neuronStateTextureRef
    (session rand_zero webgl1_browser
       [ChooseFile (Some "a b"); TypeInputWord "a"; ClickProcess])
    = Some createAndSetupTexture /\
  wordDataTextureRef
    (session rand_zero webgl1_browser
       [ChooseFile (Some "a b"); TypeInputWord "a"; ClickProcess])
    = Some createAndSetupTexture.
Proof.
  split.
  - destruct (textures_keep_their_sizes rand_zero working_browser
                [ChooseFile (Some "a b"); TypeInputWord "a"; ClickProcess])
      as [_ [neuron [wordData [Hneuron [Hword H]]]]].
    + reflexivity.
    + cbn [float_textures working_browser] in H.
      exists neuron, wordData. split; [exact Hneuron |]. split; [exact Hword |].
      exact H.
  - destruct (textures_keep_their_sizes rand_zero webgl1_browser
                [ChooseFile (Some "a b"); TypeInputWord "a"; ClickProcess])
      as [_ [neuron [wordData [Hneuron [Hword H]]]]].
    + reflexivity.
    + cbn [float_textures webgl1_browser] in H.
      destruct H as [Hn [Hw _]]. rewrite Hneuron, Hword, Hn, Hw. now split.
Defined.

(** ** The arrays of random values *)

(** X25. The arrays the mount effect fills, one call of [Math.random()] for
    each element: element [j] holds the binary32 value nearest to the j-th
    value drawn, and when every draw is a binary64 value in [0, 1) that
    element lies between 0 and 1, both included: a draw within [2^-25] of 1
    is stored as 1. *)
Theorem random_array_in_unit_interval (rand : nat -> float) (n : Z)
    (calls : nat) (j : Z) :
  (forall k, unit_interval (rand k) = true) ->
  0 <= j < n ->
  fa_at (fst (fill_random rand n 1 (new_Float32Array n) calls)) j
    = fround (rand (calls + Z.to_nat j)%nat) /\
  leb32 plus_zero (fa_at (fst (fill_random rand n 1 (new_Float32Array n) calls)) j)
    = true /\
  leb32 (fa_at (fst (fill_random rand n 1 (new_Float32Array n) calls)) j) one32
    = true /\
  snd (fill_random rand n 1 (new_Float32Array n) calls) = (calls + Z.to_nat n)%nat.
Proof.
  intros Hrand Hj. rewrite random_array by exact Hj.
  split; [reflexivity |].
  destruct (fround_unit_interval (rand (calls + Z.to_nat j)%nat) (Hrand _))
    as [Hlow Hhigh].
  split; [exact Hlow |]. split; [exact Hhigh |].
  apply random_array_calls.
Qed.

(** An array of four elements filled with the largest value below 1: the
    element at index 2 is stored as 1, which is not below 1. *)
Lemma random_array_in_unit_interval_one :
  unit_interval below_one = true /\
  fa_at (fst (fill_random rand_below_one 4 1 (new_Float32Array 4) O)) 2 = one32 /\
  ltb32 (fa_at (fst (fill_random rand_below_one 4 1 (new_Float32Array 4) O)) 2)
    one32 = false /\
  leb32 (fa_at (fst (fill_random rand_below_one 4 1 (new_Float32Array 4) O)) 2)
    one32 = true.
Proof.
  destruct (random_array_in_unit_interval rand_below_one 4 O 2)
    as [Hval [_ [Hhigh _]]].
  - intros k. reflexivity.
  - lia.
  - split; [reflexivity |].
    split; [rewrite Hval; apply fround_below_one |].
    split; [rewrite Hval; unfold rand_below_one; rewrite fround_below_one; reflexivity |].
    exact Hhigh.
Defined.

(** ** Capacity, when nothing interrupts an upload *)

(** X24. A run in which each upload ends before the next event (the
    component mounts, then any sequence of events: typing, "Add Word", file
    uploads, "Process", and after a file is chosen nothing but the
    resumptions of that upload) is a session, and in every session the
    registry never holds more than [MAX_WORDS] = 100000 words; once it
    holds that many, no event changes it and [addWord] changes nothing at
    all; and "Add Word" never sets an error message. *)
Theorem registry_never_exceeds_capacity (rand : nat -> float) (env : Browser)
    (evs : list Event) :
  MAX_WORDS = 100000 /\
  play rand (mounted rand env) (uninterrupted ([], "") evs)
    = {| app := session rand env evs; uploads := [] |} /\
  len (words (session rand env evs)) <= MAX_WORDS /\
  (forall ev, len (words (session rand env evs)) = MAX_WORDS ->
     words (step rand (session rand env evs) ev) = words (session rand env evs)) /\
  (forall w, len (words (session rand env evs)) = MAX_WORDS ->
     addWord (words (session rand env evs)) w (session rand env evs)
       = session rand env evs) /\
  error (step rand (session rand env evs) ClickAddWord)
    = error (session rand env evs).
Proof.
  split; [exact MAX_WORDS_eq |].
  split; [apply sessions_are_uninterrupted_runs |].
  split; [apply session_within_capacity |].
  split; [| split].
  - intros ev Hfull. apply step_at_capacity. lia.
  - intros w Hfull. apply addWord_rejects. unfold accepts.
    replace (len (words (session rand env evs)) <? MAX_WORDS) with false
      by (symmetry; apply Z.ltb_ge; lia).
    apply andb_false_r.
  - apply error_handleAddWord.
Qed.

(** A session that fills the registry: the upload of a text of
    [MAX_WORDS + 1] different words leaves [MAX_WORDS] words, and a second
    upload changes nothing. *)
Lemma registry_never_exceeds_capacity_full :
  len (words (session rand_zero webgl1_browser
                [ChooseFile (Some (text_beyond_capacity 1))])) = MAX_WORDS /\
  words (step rand_zero
           (session rand_zero webgl1_browser
              [ChooseFile (Some (text_beyond_capacity 1))])
           (ChooseFile (Some "one more word")))
  = words (session rand_zero webgl1_browser
             [ChooseFile (Some (text_beyond_capacity 1))]).
Proof.
  assert (Hfull : len (words (session rand_zero webgl1_browser
                     [ChooseFile (Some (text_beyond_capacity 1))])) = MAX_WORDS).
  { unfold session. rewrite run_one, step_ChooseFile.
    rewrite words_upload_into_empty by apply words_mount.
    rewrite wordsFromFile_text_beyond_capacity, firstn_numbered_words
      by (rewrite MAX_WORDS_eq; lia).
    unfold len. rewrite length_numbered_words, MAX_WORDS_eq. lia. }
  split; [exact Hfull |].
  destruct (registry_never_exceeds_capacity rand_zero webgl1_browser
              [ChooseFile (Some (text_beyond_capacity 1))]) as [_ [_ [_ [H _]]]].
  apply H. exact Hfull.
Defined.

(** ** The registry while uploads are in flight *)

Lemma loop_from_appends (ws wff : list string) (total i : Z) (st : State) :
  exists added, words (fst (loop_from ws wff total i st)) = words st ++ added.
Proof.
  unfold loop_from. destruct (i <? total); cbn [fst].
  - destruct (at_index wff i) as [w |].
    + rewrite words_addWord. destruct (accepts ws w).
      * now exists [w].
      * exists []. now rewrite app_nil_r.
    + exists []. now rewrite app_nil_r.
  - exists []. now rewrite app_nil_r.
Qed.

Lemma resume_appends (up : Upload) (st : State) :
  exists added, words (fst (resume up st)) = words st ++ added.
Proof.
  unfold resume. destruct (up_stage up) as [[text |] | wff total i].
  - apply loop_from_appends.
  - exists []. now rewrite app_nil_r.
  - apply loop_from_appends.
Qed.

Lemma act_appends (rand : nat -> float) (r : Running) (a : Action) :
  exists added, words (app (act rand r a)) = words (app r) ++ added.
Proof.
  destruct a as [ev | k].
  - destruct ev as [s | | file | s |];
      try exact (step_appends rand (app r) _).
    exists []. now rewrite app_nil_r.
  - unfold act. destruct (nth_error (uploads r) k) as [up |].
    + cbn [app]. apply resume_appends.
    + exists []. now rewrite app_nil_r.
Qed.

Lemma play_appends (rand : nat -> float) (acts : list Action) (r : Running) :
  exists added, words (app (play rand r acts)) = words (app r) ++ added.
Proof.
  revert r. induction acts as [|a rest IH]; intros r.
  - exists []. now rewrite app_nil_r.
  - rewrite play_cons. destruct (IH (act rand r a)) as [l2 H2].
    destruct (act_appends rand r a) as [l1 H1].
    exists (l1 ++ l2). now rewrite H2, H1, app_assoc.
Qed.

(** X26. The registry only grows, and only at its end, also while uploads
    are in flight: in every run of the component, whatever the user does
    between the passes of an upload and however many uploads overlap, the
    registry the run had is a prefix of the registry it gets, so every word
    stays at the index it was inserted at. *)
Theorem running_registry_is_append_only (rand : nat -> float) (env : Browser)
    (acts more : list Action) :
  exists added,
    words (app (play rand (mounted rand env) (acts ++ more)))
    = words (app (play rand (mounted rand env) acts)) ++ added /\
    forall i, (i < List.length (words (app (play rand (mounted rand env) acts))))%nat ->
      nth_error (words (app (play rand (mounted rand env) (acts ++ more)))) i
      = nth_error (words (app (play rand (mounted rand env) acts))) i.
Proof.
  rewrite play_app.
  destruct (play_appends rand more (play rand (mounted rand env) acts))
    as [added Hadded].
  exists added. split; [exact Hadded |].
  intros i Hi. rewrite Hadded. now apply nth_error_app1.
Qed.
